(** * sitemap_validator: a shallow embedding of [SitemapValidator]

    The development follows [sitemap_validator.py].  The class
    [SitemapValidator] becomes a record, its methods become computations in a
    small monad [Py] that threads the object, may raise a Python exception,
    and records every HTTP request that is sent.  Everything the program gets
    from outside (the [requests] client, [ET.fromstring], [urlparse] and the
    completion order of the thread pool) is collected in a record [World].

    Conventions.
    - A Python [bytes] value is the [string] of its bytes, a [str] the
      [string] of the bytes of its UTF-8 encoding.
    - A Python [int] is a [Z].
    - [print] is not modelled.
    - The stack of the interpreter has room for a number of nested calls of
      [validate], which is the first argument of [validate]; the call after
      those raises [RecursionError].
    - The workers of the thread pool are serialised: each [_check_url] runs
      atomically, in the order [as_completed] picks. *)

From Stdlib Require Import ZArith NArith List String Ascii Bool Lia.
From Stdlib Require Import Permutation.
From Stdlib Require Import DecimalString.
Import ListNotations.

Set Warnings "-register-all".
Local Open Scope string_scope.
Local Open Scope Z_scope.

(** ** Strings *)

Module Str.

(** [str(n)] for an [int]. *)
Definition of_Z (n : Z) : string := NilZero.string_of_int (Z.to_int n).

(** Truth value of a [str]: the empty string is false. *)
Definition truthy (s : string) : bool :=
  match s with
  | EmptyString => false
  | String _ _ => true
  end.

(** [c.isspace()] for the character of code point [cp]: U+0009 to U+000D,
    U+001C to U+0020, U+0085, U+00A0, U+1680, U+2000 to U+200A, U+2028,
    U+2029, U+202F, U+205F and U+3000. *)
Definition isspace (cp : N) : bool :=
  ((9 <=? cp) && (cp <=? 13) || (28 <=? cp) && (cp <=? 32)
   || (cp =? 133) || (cp =? 160) || (cp =? 5760)
   || (8192 <=? cp) && (cp <=? 8202) || (cp =? 8232) || (cp =? 8233)
   || (cp =? 8239) || (cp =? 8287) || (cp =? 12288))%N.

Definition byte (c : ascii) : N := N_of_ascii c.

(** A byte that continues a character. *)
Definition continues (c : ascii) : bool :=
  ((128 <=? byte c) && (byte c <? 192))%N.

(** The code point that one byte, two bytes or three bytes encode, where
    they encode one.  No character of four bytes is white space. *)
Definition code1 (a : ascii) : option N :=
  if (byte a <? 128)%N then Some (byte a) else None.

Definition code2 (a b : ascii) : option N :=
  if ((194 <=? byte a) && (byte a <? 224))%N && continues b
  then Some ((byte a - 192) * 64 + (byte b - 128))%N
  else None.

Definition code3 (a b c : ascii) : option N :=
  let cp := ((byte a - 224) * 4096 + (byte b - 128) * 64
             + (byte c - 128))%N in
  if ((224 <=? byte a) && (byte a <? 240))%N && continues b && continues c
     && (2048 <=? cp)%N && negb ((55296 <=? cp) && (cp <? 57344))%N
  then Some cp
  else None.

Definition space (o : option N) : bool :=
  match o with
  | Some cp => isspace cp
  | None => false
  end.

(** [chr(cp)] *)
Definition chr (cp : N) : string :=
  let b n := String (ascii_of_N n) EmptyString in
  if (cp <? 128)%N then b cp
  else if (cp <? 2048)%N then b (192 + cp / 64)%N ++ b (128 + cp mod 64)%N
  else if (cp <? 65536)%N then
    b (224 + cp / 4096)%N ++ b (128 + (cp / 64) mod 64)%N
    ++ b (128 + cp mod 64)%N
  else
    b (240 + cp / 262144)%N ++ b (128 + (cp / 4096) mod 64)%N
    ++ b (128 + (cp / 64) mod 64)%N ++ b (128 + cp mod 64)%N.

(** [s] without its first character, where that is white space. *)
Definition drop_space (s : string) : option string :=
  match s with
  | EmptyString => None
  | String a s1 =>
      if space (code1 a) then Some s1 else
      match s1 with
      | EmptyString => None
      | String b s2 =>
          if space (code2 a b) then Some s2 else
          match s2 with
          | EmptyString => None
          | String c s3 => if space (code3 a b c) then Some s3 else None
          end
      end
  end.

(** [s.lstrip()] *)
Fixpoint lstrip (s : string) : string :=
  match s with
  | EmptyString => s
  | String a s1 =>
      if space (code1 a) then lstrip s1 else
      match s1 with
      | EmptyString => s
      | String b s2 =>
          if space (code2 a b) then lstrip s2 else
          match s2 with
          | EmptyString => s
          | String c s3 => if space (code3 a b c) then lstrip s3 else s
          end
      end
  end.

(** [s.rstrip()]: [s] up to the place from which it is white space only. *)
Fixpoint rstrip (s : string) : string :=
  match s with
  | EmptyString => EmptyString
  | String c s' =>
      if truthy (lstrip s) then String c (rstrip s') else EmptyString
  end.

(** [s.strip()] *)
Definition strip (s : string) : string := rstrip (lstrip s).

(** [s.lower()] for a string whose code points are below 256, as those of
    the header fields that [requests] gives are: the letters A to Z, and
    the capitals U+00C0 to U+00DE, the sign U+00D7 excepted, which are
    written as the byte 195 and a byte from 128 to 158. *)
Fixpoint lower (s : string) : string :=
  match s with
  | EmptyString => EmptyString
  | String a s1 =>
      if ((65 <=? byte a) && (byte a <=? 90))%N
      then String (ascii_of_N (byte a + 32)) (lower s1)
      else
        match s1 with
        | EmptyString => s
        | String b s2 =>
            if ((byte a =? 195) && (128 <=? byte b) && (byte b <=? 158)
                && negb (byte b =? 151))%N
            then String a (String (ascii_of_N (byte b + 32)) (lower s2))
            else String a (lower s1)
        end
  end.

(** [pat in s] *)
Fixpoint contains (pat s : string) : bool :=
  prefix pat s ||
  match s with
  | EmptyString => false
  | String _ s' => contains pat s'
  end.

End Str.

(** ** XML element trees, as [xml.etree.ElementTree] builds them *)

Module ET.

Inductive Element : Type :=
  mkElement (tag : string) (text : option string) (children : list Element).

Definition tag (e : Element) : string :=
  match e with mkElement t _ _ => t end.
Definition text (e : Element) : option string :=
  match e with mkElement _ t _ => t end.
Definition children (e : Element) : list Element :=
  match e with mkElement _ _ cs => cs end.

(** [if e.text]: the text is neither [None] nor empty. *)
Definition has_text (e : Element) : bool :=
  match text e with
  | Some s => Str.truthy s
  | None => false
  end.

(** [e.text] where [has_text e] holds. *)
Definition text_of (e : Element) : string :=
  match text e with
  | Some s => s
  | None => EmptyString
  end.

(** [e.iter()]: the element and all its descendants, in document order. *)
Fixpoint iter (e : Element) : list Element :=
  match e with
  | mkElement _ _ cs => e :: flat_map iter cs
  end.

(** The namespace map of [_parse_sitemap]. *)
Definition namespaces_sm : string :=
  "http://www.sitemaps.org/schemas/sitemap/0.9".

(** The tag that the path step [sm:name] selects. *)
Definition sm (name : string) : string :=
  "{" ++ namespaces_sm ++ "}" ++ name.

Definition is_tag (t : string) (e : Element) : bool := String.eqb (tag e) t.

(** [root.findall('.//sm:name', namespaces)]: every descendant with that tag,
    the root itself excluded, in document order. *)
Definition findall_descendants (name : string) (root : Element)
  : list Element :=
  filter (is_tag (sm name)) (flat_map iter (children root)).

(** [e.find('./sm:name', namespaces)]: the first child with that tag. *)
Definition find_child (name : string) (e : Element) : option Element :=
  find (is_tag (sm name)) (children e).

End ET.

(** ** Exceptions *)

(** The exception classes the program can meet.  [RequestException] stands for
    [requests.exceptions.RequestException] and all its subclasses (timeouts,
    connection and TLS errors); [ParseError] is raised by [ET.fromstring];
    [ValueError] is raised by [urlparse] and by [ThreadPoolExecutor]; every
    other subclass of [Exception] is an [OtherException]. *)
Inductive exn : Type :=
| RequestException (msg : string)
| ParseError (msg : string)
| ValueError (msg : string)
| OtherException (msg : string).

(** [str(e)] *)
Definition str_exn (e : exn) : string :=
  match e with
  | RequestException m | ParseError m | ValueError m | OtherException m => m
  end.

(** The [RecursionError] of a call for which the stack has no room. *)
Definition RecursionError : exn :=
  OtherException "maximum recursion depth exceeded".

(** [isinstance(e, requests.exceptions.RequestException)] *)
Definition is_RequestException (e : exn) : bool :=
  match e with
  | RequestException _ => true
  | _ => false
  end.

(** ** Data *)

(** The dictionary [self.results]. *)
Record Results : Type := mkResults {
  valid_urls : Z;
  invalid_urls : Z;
  total_urls : Z;
  errors : list string
}.

(** The dictionary built for each [<url>] element. *)
Record UrlData : Type := mkUrlData {
  loc : string;
  lastmod : option string;
  changefreq : option string;
  priority : option string
}.

(** [url_data.copy()] with the key ['is_valid'] added. *)
Record UrlResult : Type := mkUrlResult {
  url_data_of : UrlData;
  is_valid : bool
}.

Definition Headers : Type := list (string * string).

Record SitemapValidator : Type := mkSitemapValidator {
  sitemap_url : string;
  timeout : Z;
  max_workers : Z;
  headers : Headers;
  results : Results;
  _all_processed_urls : list UrlResult
}.

Definition default_timeout : Z := 10.
Definition default_max_workers : Z := 5.
Definition default_user_agent : string := "SitemapValidator/1.0".

(** [SitemapValidator.__init__] *)
Definition __init__ (sitemap_url : string) (timeout max_workers : Z)
  (user_agent : string) : SitemapValidator :=
  {| sitemap_url := sitemap_url;
     timeout := timeout;
     max_workers := max_workers;
     headers := [("User-Agent", user_agent)];
     results := {| valid_urls := 0; invalid_urls := 0; total_urls := 0;
                   errors := [] |};
     _all_processed_urls := [] |}.

(** ** The outside world *)

Inductive Method : Type := GET | HEAD.

(** One HTTP request, as it is sent. *)
Record Request : Type := mkRequest {
  req_method : Method;
  req_url : string;
  req_headers : Headers;
  req_timeout : Z
}.

Record Response : Type := mkResponse {
  status_code : Z;
  resp_headers : Headers;
  content : string
}.

(** The two fields of [urlparse(url)] that are read. *)
Record ParseResult : Type := mkParseResult {
  scheme : string;
  netloc : string
}.

(** What the program calls and does not define.  A call returns a value
    ([inr]) or raises ([inl]).
    - [requests_get url headers timeout]
    - [requests_head url headers timeout allow_redirects]
    - [ET_fromstring content]
    - [urlparse url]
    - [as_completed urls]: the order in which the pool completes the checks
      submitted for [urls]. *)
Record World : Type := mkWorld {
  requests_get : string -> Headers -> Z -> exn + Response;
  requests_head : string -> Headers -> Z -> bool -> exn + Response;
  ET_fromstring : string -> exn + ET.Element;
  urlparse : string -> exn + ParseResult;
  as_completed : list UrlData -> list UrlData
}.

(** [response.headers.get(key, default)]; header names compare without
    regard to case. *)
Fixpoint headers_get (key default : string) (hs : Headers) : string :=
  match hs with
  | [] => default
  | (k, v) :: hs' =>
      if String.eqb (Str.lower k) (Str.lower key) then v
      else headers_get key default hs'
  end.

(** ** The monad of method bodies *)

Inductive completion (A : Type) : Type :=
| Normal (a : A)
| Raised (e : exn).
Arguments Normal {A} a.
Arguments Raised {A} e.

(** A method body runs on the object [self].  Where it completes, normally
    or with an exception, it gives the object as it has become and the
    requests it has sent, oldest first; [None] is for a body that does not
    complete.  Updates made before an exception is raised stay. *)
Definition Py (A : Type) : Type :=
  SitemapValidator ->
  option (completion A * SitemapValidator * list Request).

Definition ret {A : Type} (a : A) : Py A :=
  fun self => Some (Normal a, self, []).

Definition raise {A : Type} (e : exn) : Py A :=
  fun self => Some (Raised e, self, []).

Definition bind {A B : Type} (m : Py A) (k : A -> Py B) : Py B :=
  fun self =>
    match m self with
    | None => None
    | Some (Raised e, self1, sent1) => Some (Raised e, self1, sent1)
    | Some (Normal a, self1, sent1) =>
        match k a self1 with
        | None => None
        | Some (c, self2, sent2) => Some (c, self2, (sent1 ++ sent2)%list)
        end
    end.

Declare Scope py_scope.
Delimit Scope py_scope with py.
Notation "x <- m ;; k" := (bind m (fun x => k))
  (at level 61, m at next level, right associativity) : py_scope.
Notation "m ;; k" := (bind m (fun _ => k))
  (at level 61, right associativity) : py_scope.
Local Open Scope py_scope.

(** [try: m  except C as e: handler e], where [catches e] tells whether [e]
    is an instance of [C]. *)
Definition try_except {A : Type} (m : Py A) (catches : exn -> bool)
  (handler : exn -> Py A) : Py A :=
  fun self =>
    match m self with
    | None => None
    | Some (Normal a, self1, sent1) => Some (Normal a, self1, sent1)
    | Some (Raised e, self1, sent1) =>
        if catches e then
          match handler e self1 with
          | None => None
          | Some (c, self2, sent2) => Some (c, self2, (sent1 ++ sent2)%list)
          end
        else Some (Raised e, self1, sent1)
    end.

(** [except Exception] *)
Definition any_Exception (e : exn) : bool := true.

(** The result of a call to the outside world. *)
Definition call {A : Type} (r : exn + A) : Py A :=
  match r with
  | inl e => raise e
  | inr a => ret a
  end.

Definition get_self : Py SitemapValidator :=
  fun self => Some (Normal self, self, []).

Definition send (r : Request) : Py unit :=
  fun self => Some (Normal tt, self, [r]).

(** [obj.m()]: the method [m] run on another object.  The caller keeps no
    reference to [obj] afterwards. *)
Definition call_on {A : Type} (obj : SitemapValidator) (m : Py A) : Py A :=
  fun self =>
    match m obj with
    | None => None
    | Some (c, _, sent) => Some (c, self, sent)
    end.

Fixpoint for_each {A : Type} (l : list A) (body : A -> Py unit) : Py unit :=
  match l with
  | [] => ret tt
  | x :: l' => body x ;; for_each l' body
  end.

(** *** Updates of [self] *)

Definition with_results (self : SitemapValidator) (r : Results)
  : SitemapValidator :=
  {| sitemap_url := sitemap_url self;
     timeout := timeout self;
     max_workers := max_workers self;
     headers := headers self;
     results := r;
     _all_processed_urls := _all_processed_urls self |}.

Definition modify_results (f : Results -> Results) : Py unit :=
  fun self => Some (Normal tt, with_results self (f (results self)), []).

(** [self.results["errors"].append(msg)] *)
Definition append_error (msg : string) : Py unit :=
  modify_results (fun r =>
    {| valid_urls := valid_urls r; invalid_urls := invalid_urls r;
       total_urls := total_urls r; errors := errors r ++ [msg] |}).

(** [self.results["valid_urls"] += 1] *)
Definition incr_valid_urls : Py unit :=
  modify_results (fun r =>
    {| valid_urls := valid_urls r + 1; invalid_urls := invalid_urls r;
       total_urls := total_urls r; errors := errors r |}).

(** [self.results["invalid_urls"] += 1] *)
Definition incr_invalid_urls : Py unit :=
  modify_results (fun r =>
    {| valid_urls := valid_urls r; invalid_urls := invalid_urls r + 1;
       total_urls := total_urls r; errors := errors r |}).

(** [self.results["total_urls"] = n] *)
Definition set_total_urls (n : Z) : Py unit :=
  modify_results (fun r =>
    {| valid_urls := valid_urls r; invalid_urls := invalid_urls r;
       total_urls := n; errors := errors r |}).

(** The four lines that merge [child_results] into [self.results]. *)
Definition merge (r child_results : Results) : Results :=
  {| valid_urls := valid_urls r + valid_urls child_results;
     invalid_urls := invalid_urls r + invalid_urls child_results;
     total_urls := total_urls r + total_urls child_results;
     errors := errors r ++ errors child_results |}.

Definition merge_results (child_results : Results) : Py unit :=
  modify_results (fun r => merge r child_results).

(** [self._all_processed_urls.append(url_result)] *)
Definition append_processed (url_result : UrlResult) : Py unit :=
  fun self =>
    Some (Normal tt,
          {| sitemap_url := sitemap_url self;
             timeout := timeout self;
             max_workers := max_workers self;
             headers := headers self;
             results := results self;
             _all_processed_urls := _all_processed_urls self ++ [url_result] |},
          []).

(** [return self.results] *)
Definition return_results : Py Results :=
  fun self => Some (Normal (results self), self, []).

(** ** The methods of [SitemapValidator] *)

Section Methods.

Variable w : World.

(** [requests.get(url, headers=self.headers, timeout=self.timeout)] *)
Definition get (url : string) : Py Response :=
  self <- get_self ;;
  send (mkRequest GET url (headers self) (timeout self)) ;;
  call (requests_get w url (headers self) (timeout self)).

(** [requests.head(url, headers=self.headers, timeout=self.timeout,
    allow_redirects=True)] *)
Definition head (url : string) : Py Response :=
  self <- get_self ;;
  send (mkRequest HEAD url (headers self) (timeout self)) ;;
  call (requests_head w url (headers self) (timeout self) true).

(** [_get_tag_text] *)
Definition _get_tag_text (element : ET.Element) (tag_path : string)
  : option string :=
  match ET.find_child tag_path element with
  | Some tag => if ET.has_text tag then Some (Str.strip (ET.text_of tag))
                else None
  | None => None
  end.

(** [_check_url].  The [try] block yields [None] where the source executes
    [return], and otherwise the [url_result] with which control reaches the
    last line of the method. *)
Definition _check_url (url_data : UrlData) : Py unit :=
  let url := loc url_data in
  let url_result := {| url_data_of := url_data; is_valid := false |} in
  next <-
    try_except
      (parsed <- call (urlparse w url) ;;
       if negb (forallb Str.truthy [scheme parsed; netloc parsed]) then
         incr_invalid_urls ;;
         append_error ("Invalid URL structure: " ++ url) ;;
         append_processed url_result ;;
         ret None
       else
         response <- head url ;;
         response <-
           (if existsb (Z.eqb (status_code response)) [405; 404; 403]
            then get url else ret response) ;;
         if (200 <=? status_code response) && (status_code response <? 300)
         then
           incr_valid_urls ;;
           ret (Some {| url_data_of := url_data; is_valid := true |})
         else
           incr_invalid_urls ;;
           append_error ("URL returned HTTP "
                         ++ Str.of_Z (status_code response) ++ ": " ++ url) ;;
           ret (Some url_result))
      is_RequestException
      (fun e =>
         incr_invalid_urls ;;
         append_error ("Failed to connect to " ++ url ++ ": " ++ str_exn e) ;;
         ret (Some url_result)) ;;
  match next with
  | None => ret tt
  | Some url_result => append_processed url_result
  end.

(** The body of the loop over the completed futures: [future.result()]
    raises what the check of [url] raised. *)
Definition future_result (url : UrlData) : Py unit :=
  try_except (_check_url url) any_Exception
    (fun e => append_error ("Error during URL validation: " ++ str_exn e)).

(** [_validate_urls].  [ThreadPoolExecutor] refuses a pool without
    workers. *)
Definition _validate_urls (urls : list UrlData) : Py unit :=
  self <- get_self ;;
  if max_workers self <=? 0 then
    raise (ValueError "max_workers must be greater than 0")
  else
    for_each (as_completed w urls) future_result.

(** The body of the loop over [url_tags]. *)
Definition add_url (urls : list UrlData) (url : ET.Element) : list UrlData :=
  match ET.find_child "loc" url with
  | Some loc_tag =>
      if ET.has_text loc_tag then
        urls ++ [ {| loc := Str.strip (ET.text_of loc_tag);
                     lastmod := _get_tag_text url "lastmod";
                     changefreq := _get_tag_text url "changefreq";
                     priority := _get_tag_text url "priority" |} ]
      else urls
  | None => urls
  end.

Section Recursion.

(** [validate], as the recursive calls see it. *)
Variable validate_rec : Py Results.

(** The body of the loop over [sitemap_tags]. *)
Definition visit_sitemap (sitemap : ET.Element) : Py unit :=
  match ET.find_child "loc" sitemap with
  | Some loc_tag =>
      if ET.has_text loc_tag then
        self <- get_self ;;
        let child_validator :=
          __init__ (ET.text_of loc_tag) (timeout self) (max_workers self)
            default_user_agent in
        child_results <- call_on child_validator validate_rec ;;
        merge_results child_results
      else ret tt
  | None => ret tt
  end.

(** [_parse_sitemap] *)
Definition _parse_sitemap (content : string) : Py (list UrlData) :=
  let urls := [] in
  root <- call (ET_fromstring w content) ;;
  let sitemap_tags := ET.findall_descendants "sitemap" root in
  match sitemap_tags with
  | _ :: _ =>
      for_each sitemap_tags visit_sitemap ;;
      ret urls
  | [] =>
      let url_tags := ET.findall_descendants "url" root in
      ret (fold_left add_url url_tags urls)
  end.

(** The [try] block of [validate]. *)
Definition validate_try : Py Results :=
  self <- get_self ;;
  response <- get (sitemap_url self) ;;
  if negb (status_code response =? 200) then
    append_error ("Failed to fetch sitemap (HTTP "
                  ++ Str.of_Z (status_code response) ++ ")") ;;
    return_results
  else
    let content_type :=
      headers_get "Content-Type" EmptyString (resp_headers response) in
    (if negb (Str.contains "xml" (Str.lower content_type)) then
       append_error ("Sitemap is not XML (Content-Type: "
                     ++ content_type ++ ")")
     else ret tt) ;;
    urls <- _parse_sitemap (content response) ;;
    set_total_urls (Z.of_nat (List.length urls)) ;;
    _validate_urls urls ;;
    return_results.

(** One call of [validate]. *)
Definition validate_call : Py Results :=
  try_except validate_try any_Exception
    (fun e =>
       append_error ("Validation failed: " ++ str_exn e) ;;
       return_results).

End Recursion.

(** [validate].  The stack of the interpreter has room for [fuel] nested
    calls of [validate] below this one; the call after those raises
    [RecursionError], as a call does at the recursion limit. *)
Fixpoint validate (fuel : nat) : Py Results :=
  validate_call
    match fuel with
    | O => raise RecursionError
    | S fuel' => validate fuel'
    end.

End Methods.

(** ** Vocabulary of the statements *)

(** A string of white-space characters only. *)
Fixpoint all_space (s : string) : bool :=
  match s with
  | EmptyString => true
  | String a s1 =>
      if Str.space (Str.code1 a) then all_space s1 else
      match s1 with
      | EmptyString => false
      | String b s2 =>
          if Str.space (Str.code2 a b) then all_space s2 else
          match s2 with
          | EmptyString => false
          | String c s3 => Str.space (Str.code3 a b c) && all_space s3
          end
      end
  end.

(** A string that neither starts nor ends with a white-space character. *)
Definition trimmed (s : string) : Prop :=
  forall cp rest,
    Str.isspace cp = true ->
    s <> Str.chr cp ++ rest /\ s <> rest ++ Str.chr cp.

(** [v] is [s] without the white space at its two ends: what was taken off
    is white space, and what is left neither starts nor ends with it. *)
Definition trim_of (s v : string) : Prop :=
  trimmed v /\
  exists a b, s = a ++ v ++ b /\ all_space a = true /\ all_space b = true.

Definition trimmed_field (o : option string) : Prop :=
  match o with
  | Some s => trimmed s
  | None => True
  end.

Definition trimmed_entry (u : UrlData) : Prop :=
  trimmed (loc u) /\ trimmed_field (lastmod u) /\
  trimmed_field (changefreq u) /\ trimmed_field (priority u).

(** The first child of [e] named [name] has the text [s], which is not
    empty. *)
Definition text_at (e : ET.Element) (name s : string) : Prop :=
  exists tag,
    ET.find_child name e = Some tag /\ ET.text tag = Some s /\
    s <> EmptyString.

(** [e] has no child named [name], or the first one has no text or an empty
    text. *)
Definition no_text_at (e : ET.Element) (name : string) : Prop :=
  match ET.find_child name e with
  | Some tag => ET.text tag = None \/ ET.text tag = Some EmptyString
  | None => True
  end.

(** A [<loc>] whose text is empty or missing, or no [<loc>] at all. *)
Definition no_location (e : ET.Element) : Prop := no_text_at e "loc".

(** A field of an entry, against the [<url>] element it is read from: the
    stripped text of the child of that name, or nothing where there is no
    such text. *)
Definition field_of (url : ET.Element) (name : string) (o : option string)
  : Prop :=
  match o with
  | Some v => exists s, text_at url name s /\ v = Str.strip s
  | None => no_text_at url name
  end.

(** An entry, against the [<url>] element it is read from. *)
Definition entry_of (url : ET.Element) (u : UrlData) : Prop :=
  field_of url "loc" (Some (loc u)) /\
  field_of url "lastmod" (lastmod u) /\
  field_of url "changefreq" (changefreq u) /\
  field_of url "priority" (priority u).

(** An element whose first [<loc>] child has a text that is not empty. *)
Definition has_location (e : ET.Element) : bool :=
  match ET.find_child "loc" e with
  | Some loc_tag => ET.has_text loc_tag
  | None => false
  end.

(** The [<loc>] children of the [<url>] elements of a document. *)
Definition loc_elements (root : ET.Element) : list ET.Element :=
  flat_map (fun url => filter (ET.is_tag (ET.sm "loc")) (ET.children url))
    (ET.findall_descendants "url" root).

(** A urlset in which no [<url>] has two [<loc>] children. *)
Definition one_loc_per_url (root : ET.Element) : Prop :=
  Forall (fun url =>
            (List.length (filter (ET.is_tag (ET.sm "loc")) (ET.children url))
             <= 1)%nat)
    (ET.findall_descendants "url" root).

(** The location a [<sitemap>] element gives, if it gives one. *)
Definition child_loc (sitemap : ET.Element) : list string :=
  match ET.find_child "loc" sitemap with
  | Some loc_tag => if ET.has_text loc_tag then [ET.text_of loc_tag] else []
  | None => []
  end.

(** The child locations of an index, in document order. *)
Definition child_locs (root : ET.Element) : list string :=
  flat_map child_loc (ET.findall_descendants "sitemap" root).

(** The validator that [_parse_sitemap] builds for a child location. *)
Definition child_validator (self : SitemapValidator) (l : string)
  : SitemapValidator :=
  __init__ l (timeout self) (max_workers self) default_user_agent.

Definition sum_of (f : Results -> Z) (rs : list Results) : Z :=
  fold_right (fun r acc => f r + acc) 0 rs.

(** The warning [validate] records for a content type without "xml". *)
Definition content_type_warning (response : Response) : list string :=
  let content_type :=
    headers_get "Content-Type" EmptyString (resp_headers response) in
  if Str.contains "xml" (Str.lower content_type) then []
  else ["Sitemap is not XML (Content-Type: " ++ content_type ++ ")"].

(** The pool completes every check it was given, once. *)
Definition completes_all (w : World) : Prop :=
  forall urls, Permutation (as_completed w urls) urls.

(** The document that a fetch of [url] yields; none where the fetch or the
    parse fails or the status is not 200. *)
Definition document_at (w : World) (url : string) (h : Headers) (t : Z)
  : option ET.Element :=
  match requests_get w url h t with
  | inr response =>
      if status_code response =? 200 then
        match ET_fromstring w (content response) with
        | inr root => Some root
        | inl _ => None
        end
      else None
  | inl _ => None
  end.

(** The document that [self] validates. *)
Definition document_of (w : World) (self : SitemapValidator)
  : option ET.Element :=
  document_at w (sitemap_url self) (headers self) (timeout self).

(** The child locations of the document that a fetch of [url] yields. *)
Definition children_at (w : World) (url : string) (h : Headers) (t : Z)
  : list string :=
  match document_at w url h t with
  | Some root => child_locs root
  | None => []
  end.

(** The headers of a validator built with the default user agent. *)
Definition default_headers : Headers := [("User-Agent", default_user_agent)].

(** Nesting of indexes is well founded: every child location has a smaller
    rank than the location of the index that lists it. *)
Definition ranked (w : World) (rank : string -> nat) : Prop :=
  forall url h t child,
    In child (children_at w url h t) -> (rank child < rank url)%nat.

(** *** Runs of a method body *)

(** [run d m self Q]: the body [m], started on [self], completes in a way
    that satisfies [Q]; [d] is what holds of a run that does not complete.
    With [d := False] the run must complete, with [d := True] it may not. *)
Definition run {A : Type} (d : Prop) (m : Py A) (self : SitemapValidator)
  (Q : completion A -> SitemapValidator -> list Request -> Prop) : Prop :=
  match m self with
  | Some (c, self', sent) => Q c self' sent
  | None => d
  end.

(** The settings of the object are those of [self]. *)
Definition same_settings (self self' : SitemapValidator) : Prop :=
  sitemap_url self' = sitemap_url self /\ timeout self' = timeout self /\
  max_workers self' = max_workers self /\ headers self' = headers self.

(** A request that carries the headers and the timeout of [self]. *)
Definition sent_by (self : SitemapValidator) (r : Request) : Prop :=
  req_headers r = headers self /\ req_timeout r = timeout self.

(** The report after one more valid URL. *)
Definition count_valid (r : Results) : Results :=
  {| valid_urls := valid_urls r + 1; invalid_urls := invalid_urls r;
     total_urls := total_urls r; errors := errors r |}.

(** The report after one more invalid URL, with its error string. *)
Definition count_invalid (msg : string) (r : Results) : Results :=
  {| valid_urls := valid_urls r; invalid_urls := invalid_urls r + 1;
     total_urls := total_urls r; errors := errors r ++ [msg] |}.

(** The object with more error strings and nothing else changed. *)
Definition with_errors (self : SitemapValidator) (msgs : list string)
  : SitemapValidator :=
  with_results self
    {| valid_urls := valid_urls (results self);
       invalid_urls := invalid_urls (results self);
       total_urls := total_urls (results self);
       errors := errors (results self) ++ msgs |}.

(** The object after the handler of [validate] has recorded [e]. *)
Definition failed (e : exn) (self : SitemapValidator) : SitemapValidator :=
  with_errors self ["Validation failed: " ++ str_exn e].

(** The object after the assignment to [total_urls]. *)
Definition with_total (self : SitemapValidator) (n : Z) : SitemapValidator :=
  with_results self
    {| valid_urls := valid_urls (results self);
       invalid_urls := invalid_urls (results self);
       total_urls := n;
       errors := errors (results self) |}.

(** The request [self] sends to [url]. *)
Definition request_of (m : Method) (self : SitemapValidator) (url : string)
  : Request :=
  mkRequest m url (headers self) (timeout self).

(** The request that fetches the sitemap of [self]. *)
Definition fetch_of (self : SitemapValidator) : Request :=
  request_of GET self (sitemap_url self).

(** Where an exception that leaves [_check_url] comes from. *)
Definition raised_by_world (w : World) (self : SitemapValidator)
  (url : string) (e : exn) : Prop :=
  urlparse w url = inl e \/
  requests_head w url (headers self) (timeout self) true = inl e \/
  requests_get w url (headers self) (timeout self) = inl e.

(** What one call of [_check_url] does. *)
Definition check_post (w : World) (u : UrlData) (self : SitemapValidator)
  (c : completion unit) (self' : SitemapValidator) (sent : list Request)
  : Prop :=
  same_settings self self' /\ Forall (sent_by self) sent /\
  match c with
  | Normal _ =>
      exists v : bool,
        _all_processed_urls self'
        = (_all_processed_urls self ++ [mkUrlResult u v])%list /\
        if v then results self' = count_valid (results self)
        else exists msg, results self' = count_invalid msg (results self)
  | Raised e =>
      is_RequestException e = false /\ self' = self /\
      raised_by_world w self (loc u) e
  end.

(** The reports and the requests of the children of an index, validated one
    after the other. *)
Fixpoint child_runs (w : World) (fuel : nat) (self : SitemapValidator)
  (locs : list string) : option (list (Results * list Request)) :=
  match locs with
  | [] => Some []
  | l :: locs' =>
      match validate w fuel (child_validator self l) with
      | Some (Normal r, _, sent) =>
          match child_runs w fuel self locs' with
          | Some outs => Some ((r, sent) :: outs)
          | None => None
          end
      | _ => None
      end
  end.

(** The report into which the reports [rs] have been merged, in order. *)
Definition merged (r0 : Results) (rs : list Results) : Results :=
  {| valid_urls := valid_urls r0 + sum_of valid_urls rs;
     invalid_urls := invalid_urls r0 + sum_of invalid_urls rs;
     total_urls := total_urls r0 + sum_of total_urls rs;
     errors := errors r0 ++ List.concat (map errors rs) |}.

(** A validator whose document is a urlset: it is fetched with status 200,
    it parses, and it has no [<sitemap>] element. *)
Definition is_urlset (w : World) (self : SitemapValidator) : Prop :=
  exists root,
    document_of w self = Some root /\
    ET.findall_descendants "sitemap" root = [].

(** The world raises nothing but [RequestException]s, and [urlparse]
    raises nothing. *)
Definition only_request_errors (w : World) : Prop :=
  (forall url e, urlparse w url <> inl e) /\
  (forall url h t e,
      requests_get w url h t = inl e -> is_RequestException e = true) /\
  (forall url h t b e,
      requests_head w url h t b = inl e -> is_RequestException e = true).

(** ** A small web, used to run the methods *)

Module Demo.

Definition xml_headers : Headers := [("Content-Type", "application/xml")].
Definition html_headers : Headers := [("content-type", "text/html")].

Definition url_tag (l : string) : ET.Element :=
  ET.mkElement (ET.sm "url") None
    [ET.mkElement (ET.sm "loc") (Some l) []].

Definition sitemap_tag (l : string) : ET.Element :=
  ET.mkElement (ET.sm "sitemap") None
    [ET.mkElement (ET.sm "loc") (Some l) []].

(** An index of two children. *)
Definition index_doc : ET.Element :=
  ET.mkElement (ET.sm "sitemapindex") None
    [sitemap_tag "https://example.com/a.xml";
     sitemap_tag "https://example.com/b.xml"].

(** An index of one child. *)
Definition small_index_doc : ET.Element :=
  ET.mkElement (ET.sm "sitemapindex") None
    [sitemap_tag "https://example.com/c.xml"].

Definition a_doc : ET.Element :=
  ET.mkElement (ET.sm "urlset") None
    [url_tag "https://example.com/1"; url_tag " https://example.com/2 "].

Definition b_doc : ET.Element :=
  ET.mkElement (ET.sm "urlset") None
    [url_tag "https://example.com/3";
     ET.mkElement (ET.sm "url") None [ET.mkElement (ET.sm "loc") None []];
     url_tag "not-a-url"].

Definition c_doc : ET.Element :=
  ET.mkElement (ET.sm "urlset") None [url_tag "https://example.com/1"].

Definition d_doc : ET.Element :=
  ET.mkElement (ET.sm "urlset") None [url_tag "http://[bad"].

Definition fromstring (body : string) : exn + ET.Element :=
  if String.eqb body "index" then inr index_doc
  else if String.eqb body "small index" then inr small_index_doc
  else if String.eqb body "a" then inr a_doc
  else if String.eqb body "b" then inr b_doc
  else if String.eqb body "c" then inr c_doc
  else if String.eqb body "d" then inr d_doc
  else inl (ParseError "unclosed token: line 1, column 0").

Definition get (url : string) (h : Headers) (t : Z) : exn + Response :=
  if String.eqb url "https://example.com/sitemap.xml"
  then inr (mkResponse 200 xml_headers "index")
  else if String.eqb url "https://example.com/small.xml"
  then inr (mkResponse 200 xml_headers "small index")
  else if String.eqb url "https://example.com/a.xml"
  then inr (mkResponse 200 xml_headers "a")
  else if String.eqb url "https://example.com/b.xml"
  then inr (mkResponse 200 xml_headers "b")
  else if String.eqb url "https://example.com/c.xml"
  then inr (mkResponse 200 xml_headers "c")
  else if String.eqb url "https://example.com/d.xml"
  then inr (mkResponse 200 xml_headers "d")
  else if String.eqb url "https://example.com/broken.xml"
  then inr (mkResponse 200 html_headers "<html")
  else if String.eqb url "https://example.com/3"
  then inr (mkResponse 200 html_headers "<html></html>")
  else if String.eqb url "https://down.example/sitemap.xml"
  then inl (RequestException "connection refused")
  else inr (mkResponse 404 html_headers "not found").

Definition head (url : string) (h : Headers) (t : Z) (redirects : bool)
  : exn + Response :=
  if String.eqb url "https://example.com/1"
  then inr (mkResponse 200 html_headers EmptyString)
  else if String.eqb url "https://example.com/2"
  then inl (RequestException "timed out")
  else inr (mkResponse 404 html_headers EmptyString).

Definition parse (url : string) : exn + ParseResult :=
  if prefix "https://example.com/" url
  then inr (mkParseResult "https" "example.com")
  else if String.eqb url "http://[bad"
  then inl (ValueError "Invalid IPv6 URL")
  else inr (mkParseResult EmptyString EmptyString).

Definition world : World :=
  {| requests_get := get;
     requests_head := head;
     ET_fromstring := fromstring;
     urlparse := parse;
     as_completed := fun urls => urls |}.

Definition validator (url : string) : SitemapValidator :=
  __init__ url default_timeout default_max_workers "MyBot/2.0".

(** The report of a run, if it returned one. *)
Definition report (fuel : nat) (url : string) : option Results :=
  match validate world fuel (validator url) with
  | Some (Normal r, _, _) => Some r
  | _ => None
  end.

(** The two indexes lie above everything else. *)
Definition rank (url : string) : nat :=
  if String.eqb url "https://example.com/sitemap.xml"
     || String.eqb url "https://example.com/small.xml"
  then 1 else 0.

Definition entry (l : string) : UrlData :=
  {| loc := l; lastmod := None; changefreq := None; priority := None |}.

(** A [<url>] element whose [<loc>] is empty. *)
Definition empty_url_tag : ET.Element :=
  ET.mkElement (ET.sm "url") None [ET.mkElement (ET.sm "loc") None []].

End Demo.

(** ** Submission to the Indexing API *)

Module Indexing.

(** A value that [json.loads] gives.  A float is kept as the text [str]
    prints for it. *)
Inductive json : Type :=
| JNull
| JBool (b : bool)
| JInt (n : Z)
| JFloat (text : string)
| JString (s : string)
| JArray (items : list json)
| JObject (fields : list (string * json)).

(** The items of a dictionary with string keys. *)
Definition dict : Type := list (string * json).

Fixpoint lookup (key : string) (d : dict) : option json :=
  match d with
  | [] => None
  | (k, v) :: d' => if String.eqb k key then Some v else lookup key d'
  end.

(** [key in d] *)
Definition has_key (key : string) (d : dict) : bool :=
  match lookup key d with
  | Some _ => true
  | None => false
  end.

(** [type(v).__name__] *)
Definition type_name (v : json) : string :=
  match v with
  | JNull => "NoneType"
  | JBool _ => "bool"
  | JInt _ => "int"
  | JFloat _ => "float"
  | JString _ => "str"
  | JArray _ => "list"
  | JObject _ => "dict"
  end.

(** [v.get(key, default)]: only a dictionary has the method. *)
Definition get (v : json) (key : string) (default : json) : exn + json :=
  match v with
  | JObject fields =>
      inr (match lookup key fields with
           | Some x => x
           | None => default
           end)
  | _ =>
      inl (OtherException
             ("'" ++ type_name v ++ "' object has no attribute 'get'"))
  end.

Inductive Credentials : Type := mkCredentials (account : string).
Inductive Service : Type := mkService (credentials : Credentials).

(** What [publish(body=...).execute()] does: it returns a dictionary, raises
    an [HttpError] with its [content] and its [str], or raises something
    else. *)
Inductive publish_result : Type :=
| Returns (result : dict)
| HttpError (content : string) (str_e : string)
| Raises (e : exn).

(** The Google client and the library calls of
    [submit_to_google_indexing].
    - [from_service_account_file credentials_file scopes]
    - [build serviceName version credentials]
    - [execute_publish service body]
    - [decode content]: [content.decode()]
    - [json_loads text]
    - [repr v]: what [str] prints for a list or a dictionary. *)
Record Google : Type := mkGoogle {
  from_service_account_file : string -> list string -> exn + Credentials;
  build : string -> string -> Credentials -> exn + Service;
  execute_publish : Service -> dict -> publish_result;
  decode : string -> exn + string;
  json_loads : string -> exn + json;
  repr : json -> string
}.

(** The dictionary [submit_to_google_indexing] returns. *)
Record Submission : Type := mkSubmission {
  total_submitted : Z;
  successful : Z;
  failed : Z;
  errors : list string
}.

(** [range(start, stop, step)] for a positive step. *)
Fixpoint range_up (fuel : nat) (i stop step : Z) : list Z :=
  match fuel with
  | O => []
  | S fuel' =>
      if i <? stop then i :: range_up fuel' (i + step) stop step else []
  end.

(** [range(start, stop, step)] for a negative step. *)
Fixpoint range_down (fuel : nat) (i stop step : Z) : list Z :=
  match fuel with
  | O => []
  | S fuel' =>
      if stop <? i then i :: range_down fuel' (i + step) stop step else []
  end.

(** [range(start, stop, step)] *)
Definition range (start stop step : Z) : exn + list Z :=
  if step =? 0 then inl (ValueError "range() arg 3 must not be zero")
  else if 0 <? step
       then inr (range_up (Z.to_nat (stop - start)) start stop step)
       else inr (range_down (Z.to_nat (start - stop)) start stop step).

(** [l[i:j]] for indices that are not negative. *)
Definition slice {A : Type} (l : list A) (i j : Z) : list A :=
  firstn (Z.to_nat (j - i)) (skipn (Z.to_nat i) l).

(** [_get_valid_urls] *)
Definition _get_valid_urls (self : SitemapValidator) : list UrlResult :=
  fold_left
    (fun valid_urls url_data =>
       if is_valid url_data then (valid_urls ++ [url_data])%list
       else valid_urls)
    (_all_processed_urls self) [].

Section Submit.

Variable g : Google.

(** [str(v)], as an f-string prints [v]. *)
Definition format (v : json) : string :=
  match v with
  | JNull => "None"
  | JBool true => "True"
  | JBool false => "False"
  | JInt n => Str.of_Z n
  | JFloat text => text
  | JString s => s
  | JArray _ | JObject _ => repr g v
  end.

(** The counters and the error list of the loop. *)
Record Tally : Type := mkTally {
  tally_successful : Z;
  tally_failed : Z;
  tally_errors : list string
}.

Definition body_of (url : string) : dict :=
  [("url", JString url); ("type", JString "URL_UPDATED")].

(** The handler of [HttpError]; [failed] has been incremented. *)
Definition on_http_error (tally : Tally) (url content str_e : string)
  : exn + Tally :=
  match decode g content with
  | inl e => inl e
  | inr text =>
      match json_loads g text with
      | inl e => inl e
      | inr error_details =>
          match get error_details "error" (JObject []) with
          | inl e => inl e
          | inr error =>
              match get error "message" (JString str_e) with
              | inl e => inl e
              | inr error_reason =>
                  inr {| tally_successful := tally_successful tally;
                         tally_failed := tally_failed tally;
                         tally_errors :=
                           tally_errors tally
                           ++ ["Failed to submit " ++ url ++ ": "
                               ++ format error_reason] |}
              end
          end
      end
  end.

(** The body of the loop over a batch, for one [url]: the tally as it
    becomes, or the exception that leaves the loop. *)
Definition submit_url (service : Service) (tally : Tally) (url : string)
  : exn + Tally :=
  match execute_publish g service (body_of url) with
  | Returns result =>
      if has_key "urlNotificationMetadata" result then
        inr {| tally_successful := tally_successful tally + 1;
               tally_failed := tally_failed tally;
               tally_errors := tally_errors tally |}
      else
        inr {| tally_successful := tally_successful tally;
               tally_failed := tally_failed tally + 1;
               tally_errors :=
                 tally_errors tally
                 ++ ["Failed to submit " ++ url ++ ": Unexpected response"] |}
  | HttpError content str_e =>
      on_http_error
        {| tally_successful := tally_successful tally;
           tally_failed := tally_failed tally + 1;
           tally_errors := tally_errors tally |}
        url content str_e
  | Raises e => inl e
  end.

(** The loop over one batch.  The second component lists the bodies that
    were published, oldest first. *)
Fixpoint submit_batch (service : Service) (batch : list string)
  (tally : Tally) : (exn + Tally) * list dict :=
  match batch with
  | [] => (inr tally, [])
  | url :: batch' =>
      match submit_url service tally url with
      | inl e => (inl e, [body_of url])
      | inr tally' =>
          let (r, published) := submit_batch service batch' tally' in
          (r, body_of url :: published)
      end
  end.

(** The loop over the batches. *)
Fixpoint submit_batches (service : Service) (batches : list (list string))
  (tally : Tally) : (exn + Tally) * list dict :=
  match batches with
  | [] => (inr tally, [])
  | batch :: batches' =>
      match submit_batch service batch tally with
      | (inl e, published) => (inl e, published)
      | (inr tally', published) =>
          let (r, published') := submit_batches service batches' tally' in
          (r, (published ++ published')%list)
      end
  end.

(** What the outer handler returns. *)
Definition process_failed (e : exn) : Submission :=
  {| total_submitted := 0; successful := 0; failed := 0;
     errors := ["Submission process failed: " ++ str_exn e] |}.

Definition default_batch_size : Z := 100.

(** [submit_to_google_indexing]: the dictionary it returns and the bodies
    it has published. *)
Definition submit_to_google_indexing (self : SitemapValidator)
  (credentials_file : string) (batch_size : Z) : Submission * list dict :=
  match from_service_account_file g credentials_file
          ["https://www.googleapis.com/auth/indexing"] with
  | inl e => (process_failed e, [])
  | inr credentials =>
      match build g "indexing" "v3" credentials with
      | inl e => (process_failed e, [])
      | inr service =>
          let urls_to_submit :=
            fold_left
              (fun urls url_data =>
                 (urls ++ [loc (url_data_of url_data)])%list)
              (_get_valid_urls self) [] in
          let total_urls := Z.of_nat (List.length urls_to_submit) in
          match range 0 total_urls batch_size with
          | inl e => (process_failed e, [])
          | inr starts =>
              let batches :=
                map (fun i => slice urls_to_submit i (i + batch_size))
                  starts in
              match submit_batches service batches
                      {| tally_successful := 0; tally_failed := 0;
                         tally_errors := [] |} with
              | (inl e, published) => (process_failed e, published)
              | (inr tally, published) =>
                  ({| total_submitted := total_urls;
                      successful := tally_successful tally;
                      failed := tally_failed tally;
                      errors := tally_errors tally |}, published)
              end
          end
      end
  end.

End Submit.

End Indexing.

(** *** More vocabulary *)

(** The entries recorded as valid, and those recorded as not valid. *)
Definition recorded_valid (self : SitemapValidator) : list UrlResult :=
  filter is_valid (_all_processed_urls self).

Definition recorded_invalid (self : SitemapValidator) : list UrlResult :=
  filter (fun r => negb (is_valid r)) (_all_processed_urls self).

(** The document of [self] is no index: it is a urlset, or there is none. *)
Definition no_index (w : World) (self : SitemapValidator) : Prop :=
  match document_of w self with
  | Some root => ET.findall_descendants "sitemap" root = []
  | None => True
  end.

(** No header of [hs] is named [key], whatever the case of the letters. *)
Definition header_absent (key : string) (hs : Headers) : Prop :=
  Forall (fun kv => String.eqb (Str.lower (fst kv)) (Str.lower key) = false)
    hs.

(** The counters move with the recorded entries, and errors are only
    appended. *)
Definition keeps (self s : SitemapValidator) : Prop :=
  valid_urls (results s) - Z.of_nat (List.length (recorded_valid s))
  = valid_urls (results self) - Z.of_nat (List.length (recorded_valid self)) /\
  invalid_urls (results s) - Z.of_nat (List.length (recorded_invalid s))
  = invalid_urls (results self)
    - Z.of_nat (List.length (recorded_invalid self)) /\
  exists more, errors (results s) = (errors (results self) ++ more)%list.

(** The locations [submit_to_google_indexing] submits for [self]. *)
Definition valid_locations (self : SitemapValidator) : list string :=
  map (fun r => loc (url_data_of r)) (recorded_valid self).

(** A publication that returns, or that fails with an [HttpError] whose
    content is a JSON object in which ["error"], if present, is an object. *)
Definition answers (g : Indexing.Google) (service : Indexing.Service)
  (url : string) : Prop :=
  match Indexing.execute_publish g service (Indexing.body_of url) with
  | Indexing.Returns _ => True
  | Indexing.HttpError content _ =>
      exists text fields,
        Indexing.decode g content = inr text /\
        Indexing.json_loads g text = inr (Indexing.JObject fields) /\
        match Indexing.lookup "error" fields with
        | Some (Indexing.JObject _) | None => True
        | Some _ => False
        end
  | Indexing.Raises _ => False
  end.

(** *** More of the small web *)

Module Demo2.

(** The small web with a [urlparse] that raises nothing. *)
Definition quiet_parse (url : string) : exn + ParseResult :=
  match Demo.parse url with
  | inl _ => inr (mkParseResult EmptyString EmptyString)
  | inr p => inr p
  end.

Definition quiet_world : World :=
  {| requests_get := Demo.get;
     requests_head := Demo.head;
     ET_fromstring := Demo.fromstring;
     urlparse := quiet_parse;
     as_completed := fun urls => urls |}.

(** A [<url>] whose [<loc>] holds a space and a line break. *)
Definition blank_url_tag : ET.Element :=
  ET.mkElement (ET.sm "url") None
    [ET.mkElement (ET.sm "loc")
       (Some (String " " (String (ascii_of_nat 10) EmptyString))) []].

(** A validator that has recorded three checks. *)
Definition checked : SitemapValidator :=
  {| sitemap_url := "https://example.com/a.xml";
     timeout := 10;
     max_workers := 5;
     headers := [("User-Agent", "MyBot/2.0")];
     results := {| valid_urls := 2; invalid_urls := 1; total_urls := 3;
                   errors :=
                     ["URL returned HTTP 500: https://example.com/x"] |};
     _all_processed_urls :=
       [mkUrlResult (Demo.entry "https://example.com/1") true;
        mkUrlResult (Demo.entry "https://example.com/x") false;
        mkUrlResult (Demo.entry "https://example.com/3") true] |}.

(** A validator that has recorded three valid URLs, the second of which
    the API cannot be asked about. *)
Definition checked_boom : SitemapValidator :=
  {| sitemap_url := "https://example.com/a.xml";
     timeout := 10;
     max_workers := 5;
     headers := [("User-Agent", "MyBot/2.0")];
     results := {| valid_urls := 3; invalid_urls := 0; total_urls := 3;
                   errors := [] |};
     _all_processed_urls :=
       [mkUrlResult (Demo.entry "https://example.com/1") true;
        mkUrlResult (Demo.entry "https://example.com/boom") true;
        mkUrlResult (Demo.entry "https://example.com/3") true] |}.

(** The small web with one more sitemap, served without a content type. *)
Definition bare_get (url : string) (h : Headers) (t : Z) : exn + Response :=
  if String.eqb url "https://example.com/bare.xml"
  then inr (mkResponse 200 [("Server", "nginx")] "c")
  else Demo.get url h t.

Definition bare_world : World :=
  {| requests_get := bare_get;
     requests_head := Demo.head;
     ET_fromstring := Demo.fromstring;
     urlparse := Demo.parse;
     as_completed := fun urls => urls |}.

(** The small web with an index of three children: one that answers 404,
    one that is not XML, and the urlset c.xml. *)
Definition mixed_doc : ET.Element :=
  ET.mkElement (ET.sm "sitemapindex") None
    [Demo.sitemap_tag "https://example.com/nothing.xml";
     Demo.sitemap_tag "https://example.com/broken.xml";
     Demo.sitemap_tag "https://example.com/c.xml"].

Definition mixed_get (url : string) (h : Headers) (t : Z) : exn + Response :=
  if String.eqb url "https://example.com/mixed.xml"
  then inr (mkResponse 200 Demo.xml_headers "mixed")
  else Demo.get url h t.

Definition mixed_fromstring (body : string) : exn + ET.Element :=
  if String.eqb body "mixed" then inr mixed_doc else Demo.fromstring body.

Definition mixed_world : World :=
  {| requests_get := mixed_get;
     requests_head := Demo.head;
     ET_fromstring := mixed_fromstring;
     urlparse := Demo.parse;
     as_completed := fun urls => urls |}.

Definition mixed_rank (url : string) : nat :=
  if String.eqb url "https://example.com/mixed.xml" then 1 else Demo.rank url.

(** A urlset whose entries have more fields, with white space around
    some of them: a line feed and a no-break space after the first
    location, an em space before the last one. *)
Definition field (name text : string) : ET.Element :=
  ET.mkElement (ET.sm name) (Some text) [].

Definition fields_doc : ET.Element :=
  ET.mkElement (ET.sm "urlset") None
    [ET.mkElement (ET.sm "url") None
       [field "loc"
          (" https://example.com/1" ++ Str.chr 10 ++ Str.chr 160);
        field "lastmod" "  2024-05-01 ";
        field "changefreq" "daily";
        ET.mkElement (ET.sm "priority") None []];
     Demo.empty_url_tag;
     ET.mkElement (ET.sm "url") None [field "lastmod" "2024-05-02"];
     ET.mkElement (ET.sm "url") None
       [field "loc" (Str.chr 8195 ++ "https://example.com/2");
        field "priority" " 0.8"]].

Definition fields_world : World :=
  {| requests_get := Demo.get;
     requests_head := Demo.head;
     ET_fromstring := fun _ => inr fields_doc;
     urlparse := Demo.parse;
     as_completed := fun urls => urls |}.

(** A web in which every address serves an index that lists itself. *)
Definition loop_doc : ET.Element :=
  ET.mkElement (ET.sm "sitemapindex") None
    [Demo.sitemap_tag "https://example.com/loop.xml"].

Definition loop_world : World :=
  {| requests_get := fun _ _ _ => inr (mkResponse 200 Demo.xml_headers "loop");
     requests_head := Demo.head;
     ET_fromstring := fun _ => inr loop_doc;
     urlparse := Demo.parse;
     as_completed := fun urls => urls |}.

Definition account : Indexing.Credentials :=
  Indexing.mkCredentials "bot@example.iam.gserviceaccount.com".

Definition service : Indexing.Service := Indexing.mkService account.

Definition publish (s : Indexing.Service) (body : Indexing.dict)
  : Indexing.publish_result :=
  match Indexing.lookup "url" body with
  | Some (Indexing.JString url) =>
      if String.eqb url "https://example.com/1"
      then Indexing.Returns
             [("urlNotificationMetadata", Indexing.JObject [])]
      else if String.eqb url "https://example.com/3"
      then Indexing.HttpError "quota" "<HttpError 429>"
      else if String.eqb url "https://example.com/boom"
      then Indexing.Raises (OtherException "timed out")
      else Indexing.Returns []
  | _ => Indexing.Raises (OtherException "no url")
  end.

Definition loads (text : string) : exn + Indexing.json :=
  if String.eqb text "quota"
  then inr (Indexing.JObject
              [("error",
                Indexing.JObject
                  [("code", Indexing.JInt 429);
                   ("message", Indexing.JString "Quota exceeded")])])
  else inl (ValueError "Expecting value: line 1 column 1 (char 0)").

Definition google : Indexing.Google :=
  {| Indexing.from_service_account_file := fun file _ =>
       if String.eqb file "key.json" then inr account
       else inl (OtherException "[Errno 2] No such file or directory");
     Indexing.build := fun _ _ c => inr (Indexing.mkService c);
     Indexing.execute_publish := publish;
     Indexing.decode := fun content => inr content;
     Indexing.json_loads := loads;
     Indexing.repr := fun _ => "{...}" |}.

(** A client whose every publication succeeds. *)
Definition obliging : Indexing.Google :=
  {| Indexing.from_service_account_file := fun _ _ => inr account;
     Indexing.build := fun _ _ c => inr (Indexing.mkService c);
     Indexing.execute_publish := fun _ _ =>
       Indexing.Returns [("urlNotificationMetadata", Indexing.JObject [])];
     Indexing.decode := fun content => inr content;
     Indexing.json_loads := loads;
     Indexing.repr := fun _ => "{...}" |}.

End Demo2.

(** Closes the cases of [_check_url]. *)
Ltac close_check :=
  repeat split; cbn -[append Str.of_Z];
  try solve [ repeat constructor
            | reflexivity
            | exists true; split; reflexivity
            | exists false; split; [reflexivity | eexists; reflexivity] ].

(** * Properties *)

(** ** Strings *)

Lemma append_nil_r (s : string) : s ++ EmptyString = s.
Proof. induction s; simpl; congruence. Qed.

Lemma append_assoc (a b c : string) : (a ++ b) ++ c = a ++ b ++ c.
Proof. induction a; simpl; congruence. Qed.

Lemma length_append (a b : string) :
  String.length (a ++ b) = (String.length a + String.length b)%nat.
Proof. induction a; simpl; congruence. Qed.

Lemma isspace_cases (cp : N) :
  Str.isspace cp = true ->
  In cp [9; 10; 11; 12; 13; 28; 29; 30; 31; 32; 133; 160; 5760; 8192; 8193;
         8194; 8195; 8196; 8197; 8198; 8199; 8200; 8201; 8202; 8232; 8233;
         8239; 8287; 12288]%N.
Proof.
  unfold Str.isspace.
  rewrite !orb_true_iff, !andb_true_iff, !N.leb_le, !N.eqb_eq.
  intros H. simpl.
  assert (cp = 9 \/ cp = 10 \/ cp = 11 \/ cp = 12 \/ cp = 13 \/ cp = 28 \/
          cp = 29 \/ cp = 30 \/ cp = 31 \/ cp = 32 \/ cp = 133 \/ cp = 160 \/
          cp = 5760 \/ cp = 8192 \/ cp = 8193 \/ cp = 8194 \/ cp = 8195 \/
          cp = 8196 \/ cp = 8197 \/ cp = 8198 \/ cp = 8199 \/ cp = 8200 \/
          cp = 8201 \/ cp = 8202 \/ cp = 8232 \/ cp = 8233 \/ cp = 8239 \/
          cp = 8287 \/ cp = 12288)%N as Hc by lia.
  repeat (destruct Hc as [Hc|Hc]; [subst; tauto|]). subst; tauto.
Qed.

Lemma drop_space_chr (cp : N) (rest : string) :
  Str.isspace cp = true -> Str.drop_space (Str.chr cp ++ rest) = Some rest.
Proof.
  intros H. apply isspace_cases in H. simpl in H.
  repeat (destruct H as [<-|H]; [reflexivity|]). contradiction.
Qed.

Lemma byte_chr (a : ascii) :
  String (ascii_of_N (Str.byte a)) EmptyString = String a EmptyString.
Proof. unfold Str.byte. now rewrite ascii_N_embedding. Qed.

Lemma chr_code1 (a : ascii) (cp : N) :
  Str.code1 a = Some cp -> Str.chr cp = String a EmptyString.
Proof.
  unfold Str.code1. destruct (Str.byte a <? 128)%N eqn:H; [|discriminate].
  intros [= <-]. unfold Str.chr. rewrite H. apply byte_chr.
Qed.

Lemma chr_code2 (a b : ascii) (cp : N) :
  Str.code2 a b = Some cp -> Str.chr cp = String a (String b EmptyString).
Proof.
  unfold Str.code2, Str.continues.
  destruct ((194 <=? Str.byte a) && (Str.byte a <? 224) &&
            ((128 <=? Str.byte b) && (Str.byte b <? 192)))%N eqn:H;
    [|discriminate].
  rewrite !andb_true_iff, !N.leb_le, !N.ltb_lt in H.
  intros [= <-]. unfold Str.chr.
  set (x := (Str.byte a - 192)%N). set (y := (Str.byte b - 128)%N).
  assert (Hq : ((x * 64 + y) / 64 = x)%N)
    by (symmetry; apply (N.div_unique _ 64 x y); lia).
  assert (Hr : ((x * 64 + y) mod 64 = y)%N)
    by (symmetry; apply (N.mod_unique _ 64 x y); lia).
  replace (_ <? 128)%N with false by (symmetry; apply N.ltb_ge; lia).
  replace (_ <? 2048)%N with true by (symmetry; apply N.ltb_lt; lia).
  rewrite Hq, Hr.
  replace (192 + x)%N with (Str.byte a) by lia.
  replace (128 + y)%N with (Str.byte b) by lia.
  simpl. unfold Str.byte. now rewrite !ascii_N_embedding.
Qed.

Lemma chr_code3 (a b c : ascii) (cp : N) :
  Str.code3 a b c = Some cp ->
  Str.chr cp = String a (String b (String c EmptyString)).
Proof.
  unfold Str.code3, Str.continues. cbv zeta.
  match goal with |- (if ?c then _ else _) = _ -> _ => destruct c eqn:H end;
    [|discriminate].
  rewrite !andb_true_iff, !N.leb_le, !N.ltb_lt in H.
  intros [= <-]. unfold Str.chr.
  set (x := (Str.byte a - 224)%N) in *. set (y := (Str.byte b - 128)%N) in *.
  set (z := (Str.byte c - 128)%N) in *.
  assert (Hq : ((x * 4096 + y * 64 + z) / 4096 = x)%N)
    by (symmetry; apply (N.div_unique _ 4096 x (y * 64 + z)); lia).
  assert (Hm : ((x * 4096 + y * 64 + z) / 64 = x * 64 + y)%N)
    by (symmetry; apply (N.div_unique _ 64 (x * 64 + y) z); lia).
  assert (Hy : ((x * 64 + y) mod 64 = y)%N)
    by (symmetry; apply (N.mod_unique _ 64 x y); lia).
  assert (Hz : ((x * 4096 + y * 64 + z) mod 64 = z)%N)
    by (symmetry; apply (N.mod_unique _ 64 (x * 64 + y) z); lia).
  replace (_ <? 128)%N with false by (symmetry; apply N.ltb_ge; lia).
  replace (_ <? 2048)%N with false by (symmetry; apply N.ltb_ge; lia).
  replace (_ <? 65536)%N with true by (symmetry; apply N.ltb_lt; lia).
  rewrite Hq, Hm, Hy, Hz.
  replace (224 + x)%N with (Str.byte a) by lia.
  replace (128 + y)%N with (Str.byte b) by lia.
  replace (128 + z)%N with (Str.byte c) by lia.
  simpl. unfold Str.byte. now rewrite !ascii_N_embedding.
Qed.

Lemma drop_space_spec (s s' : string) :
  Str.drop_space s = Some s' ->
  exists cp, Str.isspace cp = true /\ s = Str.chr cp ++ s'.
Proof.
  destruct s as [|a s1]; simpl; [discriminate|].
  destruct (Str.code1 a) as [cp|] eqn:E1; simpl.
  - destruct (Str.isspace cp) eqn:Hs.
    + intros [= <-]. exists cp. split; [exact Hs|].
      now rewrite (chr_code1 _ _ E1).
    + unfold Str.code1 in E1.
      destruct (Str.byte a <? 128)%N eqn:Hlt; [|discriminate].
      destruct s1 as [|b s2]; [discriminate|].
      unfold Str.code2. apply N.ltb_lt in Hlt.
      replace (194 <=? Str.byte a)%N with false
        by (symmetry; apply N.leb_gt; lia).
      simpl. destruct s2 as [|c s3]; [discriminate|].
      unfold Str.code3. cbv zeta.
      replace (224 <=? Str.byte a)%N with false
        by (symmetry; apply N.leb_gt; lia).
      discriminate.
  - destruct s1 as [|b s2]; [discriminate|].
    destruct (Str.code2 a b) as [cp|] eqn:E2; simpl.
    + destruct (Str.isspace cp) eqn:Hs.
      * intros [= <-]. exists cp. split; [exact Hs|].
        now rewrite (chr_code2 _ _ _ E2).
      * destruct s2 as [|c s3]; [discriminate|].
        destruct (Str.code3 a b c) as [cp'|] eqn:E3; simpl; [|discriminate].
        destruct (Str.isspace cp') eqn:Hs'; [|discriminate].
        intros [= <-]. exists cp'. split; [exact Hs'|].
        now rewrite (chr_code3 _ _ _ _ E3).
    + destruct s2 as [|c s3]; [discriminate|].
      destruct (Str.code3 a b c) as [cp'|] eqn:E3; simpl; [|discriminate].
      destruct (Str.isspace cp') eqn:Hs'; [|discriminate].
      intros [= <-]. exists cp'. split; [exact Hs'|].
      now rewrite (chr_code3 _ _ _ _ E3).
Qed.

Lemma lstrip_eq (s : string) :
  Str.lstrip s
  = match Str.drop_space s with
    | Some s' => Str.lstrip s'
    | None => s
    end.
Proof.
  destruct s as [|a [|b [|c s3]]]; simpl; try reflexivity.
  - now destruct (Str.space (Str.code1 a)).
  - destruct (Str.space (Str.code1 a)); [reflexivity|].
    now destruct (Str.space (Str.code2 a b)).
  - destruct (Str.space (Str.code1 a)); [reflexivity|].
    destruct (Str.space (Str.code2 a b)); [reflexivity|].
    now destruct (Str.space (Str.code3 a b c)).
Qed.

Lemma all_space_eq (s : string) :
  all_space s
  = match s with
    | EmptyString => true
    | String _ _ =>
        match Str.drop_space s with
        | Some s' => all_space s'
        | None => false
        end
    end.
Proof.
  destruct s as [|a [|b [|c s3]]]; simpl; try reflexivity.
  - now destruct (Str.space (Str.code1 a)).
  - destruct (Str.space (Str.code1 a)); [reflexivity|].
    now destruct (Str.space (Str.code2 a b)).
  - destruct (Str.space (Str.code1 a)); [reflexivity|].
    destruct (Str.space (Str.code2 a b)); [reflexivity|].
    now destruct (Str.space (Str.code3 a b c)).
Qed.

Lemma chr_not_empty (cp : N) (rest : string) :
  Str.chr cp ++ rest <> EmptyString.
Proof.
  unfold Str.chr.
  destruct (cp <? 128)%N; [discriminate|].
  destruct (cp <? 2048)%N; [discriminate|].
  destruct (cp <? 65536)%N; discriminate.
Qed.

Lemma drop_space_shorter (s s' : string) :
  Str.drop_space s = Some s' -> (String.length s' < String.length s)%nat.
Proof.
  intros H. destruct (drop_space_spec _ _ H) as (cp & _ & ->).
  rewrite length_append.
  pose proof (chr_not_empty cp EmptyString) as Hne.
  rewrite append_nil_r in Hne.
  destruct (Str.chr cp); [congruence | simpl; lia].
Qed.

(** Induction on a string, one white-space character at a time. *)
Lemma space_ind (P : string -> Prop) :
  (forall s, Str.drop_space s = None -> P s) ->
  (forall cp s, Str.isspace cp = true -> P s -> P (Str.chr cp ++ s)) ->
  forall s, P s.
Proof.
  intros Hnone Hsome s.
  remember (String.length s) as n eqn:Hn. revert s Hn.
  induction n as [n IH] using lt_wf_ind. intros s ->.
  destruct (Str.drop_space s) as [s'|] eqn:E; [|now apply Hnone].
  pose proof (drop_space_shorter _ _ E) as Hlt.
  destruct (drop_space_spec _ _ E) as (cp & Hcp & ->).
  apply Hsome; [exact Hcp|]. now apply (IH _ Hlt).
Qed.

Lemma lstrip_chr (cp : N) (s : string) :
  Str.isspace cp = true -> Str.lstrip (Str.chr cp ++ s) = Str.lstrip s.
Proof. intros H. now rewrite lstrip_eq, (drop_space_chr _ _ H). Qed.

Lemma all_space_chr (cp : N) (s : string) :
  Str.isspace cp = true -> all_space (Str.chr cp ++ s) = all_space s.
Proof.
  intros H. rewrite all_space_eq, (drop_space_chr _ _ H).
  destruct (Str.chr cp ++ s) eqn:E; [|reflexivity].
  now apply chr_not_empty in E.
Qed.

Lemma lstrip_none (s : string) :
  Str.drop_space s = None -> Str.lstrip s = s.
Proof. intros H. now rewrite lstrip_eq, H. Qed.

(** What [lstrip] returns does not start with white space. *)
Lemma lstrip_fixed (s : string) : Str.drop_space (Str.lstrip s) = None.
Proof.
  induction s as [s H | cp s Hcp IH] using space_ind.
  - now rewrite (lstrip_none _ H).
  - now rewrite (lstrip_chr _ _ Hcp).
Qed.

(** [lstrip] removes white space, and nothing else. *)
Lemma lstrip_split (s : string) :
  exists a, s = a ++ Str.lstrip s /\ all_space a = true.
Proof.
  induction s as [s H | cp s Hcp (a & IH & Ha)] using space_ind.
  - exists EmptyString. now rewrite (lstrip_none _ H).
  - exists (Str.chr cp ++ a). rewrite (lstrip_chr _ _ Hcp), append_assoc.
    split; [now rewrite <- IH|]. now rewrite (all_space_chr _ _ Hcp).
Qed.

Lemma lstrip_all_space (s : string) :
  all_space s = true <-> Str.lstrip s = EmptyString.
Proof.
  induction s as [s H | cp s Hcp IH] using space_ind.
  - rewrite (lstrip_none _ H), all_space_eq, H.
    destruct s; [tauto|]. split; discriminate.
  - now rewrite (lstrip_chr _ _ Hcp), (all_space_chr _ _ Hcp).
Qed.

(** [rstrip] cuts the string where what remains is white space only, and
    not before. *)
Lemma rstrip_split (s : string) :
  exists b,
    s = Str.rstrip s ++ b /\ all_space b = true /\
    forall p q,
      Str.rstrip s = p ++ q -> q <> EmptyString ->
      all_space (q ++ b) = false.
Proof.
  induction s as [|c s (b & IH & Hb & Hmin)].
  - exists EmptyString. repeat split. intros [|? ?] q; simpl; [|discriminate].
    intros <- H. congruence.
  - cbn [Str.rstrip].
    destruct (Str.truthy (Str.lstrip (String c s))) eqn:Hs.
    + exists b. split; [simpl; now rewrite <- IH|]. split; [exact Hb|].
      intros [|c' p] q; cbn [append].
      * intros <- _. cbn [append]. rewrite <- IH.
        destruct (all_space (String c s)) eqn:Hall; [|reflexivity].
        apply lstrip_all_space in Hall. now rewrite Hall in Hs.
      * intros [= _ Hq]. exact (Hmin p q Hq).
    + exists (String c s). split; [reflexivity|]. split.
      * apply lstrip_all_space.
        destruct (Str.lstrip (String c s)); [reflexivity | discriminate].
      * intros [|? ?] q; simpl; [|discriminate]. intros <- H. congruence.
Qed.

Lemma strip_trimmed (s : string) : trimmed (Str.strip s).
Proof.
  intros cp rest Hcp. unfold Str.strip.
  destruct (rstrip_split (Str.lstrip s)) as (b & Hsplit & Hb & Hmin).
  split; intros E.
  - rewrite E, append_assoc in Hsplit.
    pose proof (lstrip_fixed s) as Hfix.
    rewrite Hsplit, (drop_space_chr _ _ Hcp) in Hfix. discriminate.
  - specialize (Hmin rest (Str.chr cp) E).
    rewrite (all_space_chr _ _ Hcp), Hb in Hmin.
    assert (Str.chr cp <> EmptyString).
    { generalize (chr_not_empty cp EmptyString). now rewrite append_nil_r. }
    intuition discriminate.
Qed.

(** [strip] removes white space at both ends, and nothing else. *)
Lemma strip_split (s : string) :
  exists a b,
    s = a ++ Str.strip s ++ b /\ all_space a = true /\ all_space b = true.
Proof.
  destruct (lstrip_split s) as (a & Ha & Hspace).
  destruct (rstrip_split (Str.lstrip s)) as (b & Hb & Hspace' & _).
  exists a, b. unfold Str.strip. now rewrite <- Hb.
Qed.

(** ** Rules for [run] *)

Section RunRules.

Context {A B : Type} (d : Prop).

Lemma run_bind (m : Py A) (k : A -> Py B) (self : SitemapValidator)
  (Q : completion B -> SitemapValidator -> list Request -> Prop) :
  run d m self (fun c s1 t1 =>
    match c with
    | Normal a => run d (k a) s1 (fun c2 s2 t2 => Q c2 s2 (t1 ++ t2)%list)
    | Raised e => Q (Raised e) s1 t1
    end) ->
  run d (bind m k) self Q.
Proof.
  unfold run, bind.
  destruct (m self) as [[[[a|e] s1] t1]|]; auto.
  destruct (k a s1) as [[[c2 s2] t2]|]; auto.
Qed.

Lemma run_try (m : Py A) (catches : exn -> bool) (handler : exn -> Py A)
  (self : SitemapValidator)
  (Q : completion A -> SitemapValidator -> list Request -> Prop) :
  run d m self (fun c s1 t1 =>
    match c with
    | Normal a => Q (Normal a) s1 t1
    | Raised e =>
        if catches e
        then run d (handler e) s1 (fun c2 s2 t2 => Q c2 s2 (t1 ++ t2)%list)
        else Q (Raised e) s1 t1
    end) ->
  run d (try_except m catches handler) self Q.
Proof.
  unfold run, try_except.
  destruct (m self) as [[[[a|e] s1] t1]|]; auto.
  destruct (catches e); auto.
  destruct (handler e s1) as [[[c2 s2] t2]|]; auto.
Qed.

Lemma run_mono (m : Py A) (self : SitemapValidator)
  (Q Q' : completion A -> SitemapValidator -> list Request -> Prop) :
  (forall c s t, Q c s t -> Q' c s t) ->
  run d m self Q -> run d m self Q'.
Proof.
  unfold run. intros HQ. destruct (m self) as [[[c s] t]|]; auto.
Qed.

Lemma run_total (m : Py A) (self : SitemapValidator)
  (Q : completion A -> SitemapValidator -> list Request -> Prop) :
  run False m self Q -> run d m self Q.
Proof.
  unfold run. destruct (m self) as [[[c s] t]|]; [auto | contradiction].
Qed.

Lemma run_call_on (obj : SitemapValidator) (m : Py A)
  (self : SitemapValidator)
  (Q : completion A -> SitemapValidator -> list Request -> Prop) :
  run d m obj (fun c _ t => Q c self t) ->
  run d (call_on obj m) self Q.
Proof.
  unfold run, call_on. destruct (m obj) as [[[c s] t]|]; auto.
Qed.

End RunRules.

Lemma run_returns {A : Type} (m : Py A) (self : SitemapValidator)
  (Q : completion A -> SitemapValidator -> list Request -> Prop) :
  run False m self Q <->
  exists c self' sent, m self = Some (c, self', sent) /\ Q c self' sent.
Proof.
  unfold run. split.
  - destruct (m self) as [[[c s] t]|]; [|contradiction].
    intros H. now exists c, s, t.
  - intros (c & s & t & -> & H). exact H.
Qed.

Lemma run_partial {A : Type} (m : Py A) (self : SitemapValidator)
  (Q : completion A -> SitemapValidator -> list Request -> Prop) :
  run True m self Q <->
  forall c self' sent, m self = Some (c, self', sent) -> Q c self' sent.
Proof.
  unfold run. split.
  - destruct (m self) as [[[c s] t]|]; [|discriminate].
    intros H c' s' t' [= <- <- <-]. exact H.
  - intros H. destruct (m self) as [[[c s] t]|]; auto.
Qed.

(** A loop whose body never raises keeps an invariant of the object and of
    the requests sent so far. *)
Lemma run_for_each {A : Type} (d : Prop) (body : A -> Py unit)
  (l : list A) :
  forall (I : SitemapValidator -> list Request -> Prop)
         (self : SitemapValidator),
    I self [] ->
    (forall x s t, In x l -> I s t ->
       run d (body x) s
         (fun c s' t' => c = Normal tt /\ I s' (t ++ t')%list)) ->
    run d (for_each l body) self (fun c s t => c = Normal tt /\ I s t).
Proof.
  induction l as [|x l IH]; intros I self H0 Hstep.
  - simpl. unfold run, ret. auto.
  - simpl. apply run_bind.
    generalize (Hstep x self [] (or_introl eq_refl) H0).
    apply run_mono. intros c s t [-> Hs]. simpl in Hs.
    apply (IH (fun s' t' => I s' (t ++ t')%list)).
    + now rewrite app_nil_r.
    + intros y s' t' Hy Hs'.
      generalize (Hstep y s' (t ++ t')%list (or_intror Hy) Hs').
      apply run_mono. intros c' s'' t'' [-> H]. split; [reflexivity|].
      now rewrite app_assoc.
Qed.

(** A loop keeps an invariant of the object and of the requests sent so
    far, also where its body raises. *)
Lemma run_for_each_inv {A : Type} (d : Prop) (body : A -> Py unit)
  (l : list A) :
  forall (I : SitemapValidator -> list Request -> Prop)
         (self : SitemapValidator),
    I self [] ->
    (forall x s t, In x l -> I s t ->
       run d (body x) s (fun _ s' t' => I s' (t ++ t')%list)) ->
    run d (for_each l body) self (fun _ s t => I s t).
Proof.
  induction l as [|x l IH]; intros I self H0 Hstep.
  - simpl. unfold run, ret. auto.
  - simpl. apply run_bind.
    generalize (Hstep x self [] (or_introl eq_refl) H0).
    apply run_mono. intros [[]|e] s t Hs; simpl in Hs; [|exact Hs].
    apply (IH (fun s' t' => I s' (t ++ t')%list)).
    + now rewrite app_nil_r.
    + intros y s' t' Hy Hs'.
      generalize (Hstep y s' (t ++ t')%list (or_intror Hy) Hs').
      apply run_mono. intros c' s'' t'' H. now rewrite app_assoc.
Qed.

Lemma run_eq {A : Type} (d : Prop) (m : Py A) (self : SitemapValidator)
  (c : completion A) (s : SitemapValidator) (t : list Request)
  (Q : completion A -> SitemapValidator -> list Request -> Prop) :
  m self = Some (c, s, t) -> Q c s t -> run d m self Q.
Proof. unfold run. now intros ->. Qed.

(** One step of a run: the rule for the head of the method body, or the
    evaluation of a primitive. *)
Ltac run_step :=
  lazymatch goal with
  | |- run _ (bind _ _) _ _ => apply run_bind
  | |- run _ (try_except _ _ _) _ _ => apply run_try
  | |- run _ (call_on _ _) _ _ => apply run_call_on
  | |- run _ _ _ _ => eapply run_eq; [reflexivity|]
  end;
  cbv beta iota; cbn [app].

Lemma same_settings_refl (self : SitemapValidator) : same_settings self self.
Proof. repeat split. Qed.

Lemma same_settings_trans (a b c : SitemapValidator) :
  same_settings a b -> same_settings b c -> same_settings a c.
Proof.
  unfold same_settings. intros (?&?&?&?) (?&?&?&?). repeat split; congruence.
Qed.

Lemma sent_by_settings (a b : SitemapValidator) (r : Request) :
  same_settings a b -> sent_by b r -> sent_by a r.
Proof.
  unfold same_settings, sent_by. intros (?&?&?&?) (?&?). split; congruence.
Qed.

(** ** [_check_url] *)

Lemma _check_url_spec (w : World) (u : UrlData) (self : SitemapValidator) :
  run False (_check_url w u) self (check_post w u self).
Proof.
  apply run_returns.
  unfold _check_url, try_except, bind, head, get, get_self, send.
  cbn -[append Str.of_Z forallb existsb].
  destruct (urlparse w (loc u)) as [e|parsed] eqn:Hparse;
    cbn -[append Str.of_Z forallb existsb].
  - destruct e; cbn -[append Str.of_Z]; do 3 eexists;
      (split; [reflexivity|]); close_check.
    all: left; exact Hparse.
  - destruct (forallb Str.truthy [scheme parsed; netloc parsed]);
      cbn -[append Str.of_Z forallb existsb].
    2:{ do 3 eexists; (split; [reflexivity|]); close_check. }
    destruct (requests_head w (loc u) (headers self) (timeout self) true)
      as [e|r] eqn:Hhead; cbn -[append Str.of_Z forallb existsb].
    + destruct e; cbn -[append Str.of_Z]; do 3 eexists;
        (split; [reflexivity|]); close_check.
      all: right; left; exact Hhead.
    + destruct (existsb (Z.eqb (status_code r)) [405; 404; 403]);
        cbn -[append Str.of_Z forallb existsb].
      * destruct (requests_get w (loc u) (headers self) (timeout self))
          as [e|r'] eqn:Hget; cbn -[append Str.of_Z forallb existsb].
        -- destruct e; cbn -[append Str.of_Z]; do 3 eexists;
             (split; [reflexivity|]); close_check.
           all: right; right; exact Hget.
        -- destruct ((200 <=? status_code r') && (status_code r' <? 300));
             cbn -[append Str.of_Z]; do 3 eexists;
             (split; [reflexivity|]); close_check.
      * destruct ((200 <=? status_code r) && (status_code r <? 300));
          cbn -[append Str.of_Z]; do 3 eexists;
          (split; [reflexivity|]); close_check.
Qed.

(** ** [_validate_urls] *)

Lemma _validate_urls_spec (w : World) (urls : list UrlData)
  (self : SitemapValidator) :
  run False (_validate_urls w urls) self (fun c s t =>
    same_settings self s /\ Forall (sent_by self) t /\
    total_urls (results s) = total_urls (results self) /\
    (as_completed w urls = [] -> t = []) /\
    match c with
    | Normal _ => 0 < max_workers self
    | Raised e => max_workers self <= 0 /\ s = self /\ t = []
    end).
Proof.
  unfold _validate_urls. run_step. run_step.
  destruct (max_workers self <=? 0) eqn:Hmw.
  - run_step. apply Z.leb_le in Hmw.
    repeat split; auto.
  - apply Z.leb_gt in Hmw.
    destruct (as_completed w urls) as [|u0 us] eqn:Hpool.
    { run_step. repeat split; auto. }
    eapply run_mono;
      [| apply (run_for_each False _ _ (fun s t =>
           same_settings self s /\ Forall (sent_by self) t /\
           total_urls (results s) = total_urls (results self)))].
    + simpl. intros c s t [-> (Hs & Ht & Htot)].
      repeat split; auto; try apply Hs. discriminate.
    + repeat split. constructor.
    + intros u s t _ (Hs & Ht & Htot). unfold future_result. run_step.
      generalize (_check_url_spec w u s). apply run_mono.
      intros [[]|e] s' t' (Hs' & Ht' & Hc).
      * split; [reflexivity|]. split; [|split].
        -- eapply same_settings_trans; eauto.
        -- apply Forall_app. split; [exact Ht|].
           eapply Forall_impl; [|exact Ht'].
           intros r. now apply sent_by_settings.
        -- destruct Hc as ([|] & _ & Hr); [|destruct Hr as [msg Hr]];
             rewrite Hr; exact Htot.
      * destruct Hc as (_ & -> & _). cbn [any_Exception]. run_step.
        split; [reflexivity|]. rewrite app_nil_r.
        split; [exact Hs|]. split; [|exact Htot].
        apply Forall_app. split; [exact Ht|].
        eapply Forall_impl; [|exact Ht'].
        intros r. now apply sent_by_settings.
Qed.

(** ** Requests *)

Lemma run_get {d : Prop} (w : World) (url : string) (self : SitemapValidator)
  (Q : completion Response -> SitemapValidator -> list Request -> Prop) :
  match requests_get w url (headers self) (timeout self) with
  | inl e => Q (Raised e) self [request_of GET self url]
  | inr r => Q (Normal r) self [request_of GET self url]
  end ->
  run d (get w url) self Q.
Proof.
  intros H. unfold get. do 4 run_step.
  destruct (requests_get w url (headers self) (timeout self));
    run_step; exact H.
Qed.

(** ** [_parse_sitemap] *)

Lemma _parse_sitemap_malformed (w : World) (rec : Py Results)
  (body : string) (self : SitemapValidator) (e : exn) :
  ET_fromstring w body = inl e ->
  _parse_sitemap w rec body self = Some (Raised e, self, []).
Proof.
  intros H. unfold _parse_sitemap, bind. now rewrite H.
Qed.

Lemma _parse_sitemap_urlset (w : World) (rec : Py Results)
  (body : string) (self : SitemapValidator) (root : ET.Element) :
  ET_fromstring w body = inr root ->
  ET.findall_descendants "sitemap" root = [] ->
  _parse_sitemap w rec body self
  = Some (Normal (fold_left (add_url) (ET.findall_descendants "url" root) []),
          self, []).
Proof.
  intros H Hs. unfold _parse_sitemap, bind. rewrite H. cbn [call ret].
  now rewrite Hs.
Qed.

Lemma find_hd_filter {A : Type} (p : A -> bool) (l : list A) :
  find p l = hd_error (filter p l).
Proof.
  induction l as [|x l IH]; simpl; [reflexivity|].
  now destruct (p x).
Qed.

Lemma add_url_length (urls : list UrlData) (url : ET.Element) :
  List.length (add_url urls url)
  = (List.length urls + if has_location url then 1 else 0)%nat.
Proof.
  unfold add_url, has_location.
  destruct (ET.find_child "loc" url) as [loc_tag|]; [|lia].
  destruct (ET.has_text loc_tag); [|lia].
  rewrite length_app. reflexivity.
Qed.

Lemma fold_add_url_length (url_tags : list ET.Element) :
  forall urls,
    List.length (fold_left add_url url_tags urls)
    = (List.length urls + List.length (filter has_location url_tags))%nat.
Proof.
  induction url_tags as [|url tags IH]; intros urls; simpl; [lia|].
  rewrite IH, add_url_length. destruct (has_location url); simpl; lia.
Qed.

(** Where no [<url>] has two [<loc>] children, the [<url>] elements with a
    location are as many as the [<loc>] elements with a text. *)
Lemma locations_are_loc_elements (url_tags : list ET.Element) :
  Forall (fun url =>
    (List.length (filter (ET.is_tag (ET.sm "loc")) (ET.children url)) <= 1)%nat)
    url_tags ->
  List.length (filter has_location url_tags)
  = List.length
      (filter ET.has_text
         (flat_map (fun url =>
            filter (ET.is_tag (ET.sm "loc")) (ET.children url)) url_tags)).
Proof.
  induction 1 as [|url tags Hurl _ IH]; simpl; [reflexivity|].
  rewrite filter_app, length_app, <- IH.
  unfold has_location, ET.find_child. rewrite find_hd_filter.
  destruct (filter (ET.is_tag (ET.sm "loc")) (ET.children url))
    as [|l [|l' ls]]; simpl in *; [reflexivity| |lia].
  now destruct (ET.has_text l).
Qed.

(** ** One call of [validate] *)

Lemma with_errors_nil (self : SitemapValidator) : with_errors self [] = self.
Proof.
  destruct self as [u t m h [v i n e] p]. unfold with_errors, with_results.
  simpl. now rewrite app_nil_r.
Qed.

Lemma run_validate_call (d : Prop) (w : World) (rec : Py Results)
  (self : SitemapValidator)
  (Q : completion Results -> SitemapValidator -> list Request -> Prop) :
  match requests_get w (sitemap_url self) (headers self) (timeout self) with
  | inl e => Q (Normal (results (failed e self))) (failed e self)
               [fetch_of self]
  | inr response =>
      if status_code response =? 200 then
        run d (_parse_sitemap w rec (content response))
          (with_errors self (content_type_warning response))
          (fun c s1 t1 =>
             match c with
             | Raised e =>
                 Q (Normal (results (failed e s1))) (failed e s1)
                   (fetch_of self :: t1)
             | Normal urls =>
                 run d (_validate_urls w urls)
                   (with_total s1 (Z.of_nat (List.length urls)))
                   (fun c2 s2 t2 =>
                      match c2 with
                      | Normal _ =>
                          Q (Normal (results s2)) s2
                            (fetch_of self :: t1 ++ t2)
                      | Raised e =>
                          Q (Normal (results (failed e s2))) (failed e s2)
                            (fetch_of self :: t1 ++ t2)
                      end)
             end)
      else
        let s := with_errors self
                   ["Failed to fetch sitemap (HTTP "
                    ++ Str.of_Z (status_code response) ++ ")"] in
        Q (Normal (results s)) s [fetch_of self]
  end ->
  run d (validate_call w rec) self Q.
Proof.
  intros H. unfold validate_call. run_step.
  unfold validate_try. do 3 run_step. apply run_get.
  fold (fetch_of self).
  destruct (requests_get w (sitemap_url self) (headers self) (timeout self))
    as [e|response].
  - cbn [any_Exception]. do 3 run_step. exact H.
  - cbv beta iota. destruct (status_code response =? 200); cbn [negb].
    + run_step.
      assert (Hwarn : forall Q',
                 Q' (Normal tt)
                   (with_errors self (content_type_warning response)) [] ->
                 run d
                   (if negb (Str.contains "xml"
                         (Str.lower (headers_get "Content-Type" EmptyString
                                       (resp_headers response))))
                    then append_error
                           ("Sitemap is not XML (Content-Type: "
                            ++ headers_get "Content-Type" EmptyString
                                 (resp_headers response) ++ ")")
                    else ret tt) self Q').
      { intros Q'. unfold content_type_warning.
        destruct (Str.contains "xml"
                    (Str.lower (headers_get "Content-Type" EmptyString
                                  (resp_headers response)))); cbn [negb].
        - rewrite with_errors_nil. intros HQ. now run_step.
        - intros HQ. now run_step. }
      apply Hwarn. run_step.
      revert H. apply run_mono. intros [urls|e] s1 t1 H.
      * do 3 run_step.
        revert H. apply run_mono. intros [[]|e] s2 t2 H.
        -- run_step. rewrite app_nil_r. exact H.
        -- cbn [any_Exception]. do 3 run_step. rewrite !app_nil_r. exact H.
      * cbn [any_Exception]. do 3 run_step. rewrite app_nil_r. exact H.
    + do 3 run_step. exact H.
Qed.

Lemma run_exact {A : Type} (m : Py A) (self : SitemapValidator)
  (c : completion A) (s : SitemapValidator) (t : list Request) :
  run False m self (fun c' s' t' => c' = c /\ s' = s /\ t' = t) ->
  m self = Some (c, s, t).
Proof.
  rewrite run_returns. now intros (c' & s' & t' & -> & -> & -> & ->).
Qed.

(** ** The loop over the children of an index *)

Lemma run_visit_sitemap (d : Prop) (rec : Py Results)
  (sitemap : ET.Element) (self : SitemapValidator)
  (Q : completion unit -> SitemapValidator -> list Request -> Prop) :
  match child_loc sitemap with
  | [] => Q (Normal tt) self []
  | l :: _ =>
      run d rec (child_validator self l) (fun c _ t =>
        match c with
        | Normal r =>
            Q (Normal tt) (with_results self (merge (results self) r)) t
        | Raised e => Q (Raised e) self t
        end)
  end ->
  run d (visit_sitemap rec sitemap) self Q.
Proof.
  unfold visit_sitemap, child_loc.
  destruct (ET.find_child "loc" sitemap) as [loc_tag|].
  - destruct (ET.has_text loc_tag).
    + intros H. do 4 run_step. fold (child_validator self (ET.text_of loc_tag)).
      revert H. apply run_mono. intros [r|e] _ t H.
      * run_step. rewrite app_nil_r. exact H.
      * exact H.
    + intros H. now run_step.
  - intros H. now run_step.
Qed.

(** What [_parse_sitemap] keeps, whatever the recursive calls do, as long as
    those raise nothing and send only requests that satisfy [P]. *)
Lemma _parse_sitemap_spec (d : Prop) (w : World) (rec : Py Results)
  (body : string) (self : SitemapValidator) (P : Request -> Prop) :
  (forall root l,
      ET_fromstring w body = inr root -> In l (child_locs root) ->
      run d rec (child_validator self l) (fun c _ t =>
        (exists r, c = Normal r) /\ Forall P t)) ->
  run d (_parse_sitemap w rec body) self (fun c s t =>
    same_settings self s /\ Forall P t /\
    match c with
    | Normal urls =>
        exists root, ET_fromstring w body = inr root /\
          match ET.findall_descendants "sitemap" root with
          | [] => s = self /\ t = [] /\
                  urls = fold_left add_url
                           (ET.findall_descendants "url" root) []
          | _ :: _ => urls = []
          end
    | Raised e => ET_fromstring w body = inl e /\ s = self /\ t = []
    end).
Proof.
  intros Hrec. unfold _parse_sitemap. run_step.
  destruct (ET_fromstring w body) as [e|root] eqn:Hparse.
  { run_step. repeat split; auto using same_settings_refl. }
  run_step.
  specialize (Hrec root). unfold child_locs in Hrec.
  destruct (ET.findall_descendants "sitemap" root) as [|tag tags] eqn:Htags.
  { run_step. split; [apply same_settings_refl|]. split; [constructor|].
    exists root. rewrite Htags. auto. }
  run_step.
  eapply run_mono;
    [| apply (run_for_each d _ _ (fun s t =>
         same_settings self s /\ Forall P t))].
  - cbv beta. intros c s t [-> [Hs Ht]]. run_step. rewrite app_nil_r.
    split; [exact Hs|]. split; [exact Ht|]. exists root.
    rewrite Htags. auto.
  - auto using same_settings_refl.
  - intros x s t Hx [Hs Ht]. apply run_visit_sitemap.
    destruct (child_loc x) as [|l ls] eqn:Hl.
    + cbv beta. rewrite app_nil_r. auto.
    + assert (Hin : In l (flat_map child_loc (tag :: tags))).
      { apply in_flat_map. exists x. split; [exact Hx|].
        rewrite Hl. now left. }
      replace (child_validator s l) with (child_validator self l)
        by (unfold child_validator; destruct Hs as (_ & -> & -> & _);
            reflexivity).
      generalize (Hrec l eq_refl Hin). apply run_mono.
      intros c _ t' [[r ->] Ht']. split; [reflexivity|].
      split; [exact Hs|]. apply Forall_app. auto.
Qed.

(** ** What every call of [validate] does *)

Lemma validate_call_spec (d : Prop) (w : World) (rec : Py Results)
  (self : SitemapValidator) (P : Request -> Prop) :
  (forall l,
      In l (children_at w (sitemap_url self) (headers self) (timeout self)) ->
      run d rec (child_validator self l) (fun c _ t =>
        (exists r, c = Normal r) /\ Forall P t)) ->
  run d (validate_call w rec) self (fun c s t =>
    c = Normal (results s) /\ same_settings self s /\
    exists rest, t = fetch_of self :: rest /\
      match document_of w self with
      | Some root =>
          match ET.findall_descendants "sitemap" root with
          | [] => Forall (sent_by self) rest
          | _ :: _ =>
              exists t1 t2, rest = (t1 ++ t2)%list /\ Forall P t1 /\
                Forall (sent_by self) t2 /\
                (as_completed w [] = [] -> t2 = [])
          end
      | None => rest = []
      end).
Proof.
  intros Hrec. apply run_validate_call.
  unfold children_at, document_of, document_at in *.
  destruct (requests_get w (sitemap_url self) (headers self) (timeout self))
    as [e|response].
  { repeat split. now exists []. }
  destruct (status_code response =? 200).
  2:{ cbv zeta. repeat split. now exists []. }
  set (self1 := with_errors self (content_type_warning response)).
  assert (Hset : same_settings self self1) by repeat split.
  generalize (_parse_sitemap_spec d w rec (content response) self1 P).
  destruct (ET_fromstring w (content response)) as [e|root].
  - intros H. eapply run_mono; [|apply H; discriminate].
    intros [urls|e'] s1 t1 (Hs1 & Ht1 & Hc); cbv beta iota.
    + destruct Hc as (root & [=] & _).
    + destruct Hc as (_ & -> & ->). repeat split. now exists [].
  - intros H. eapply run_mono; [|apply H].
    2:{ intros root' l [= <-] Hin. apply (Hrec l Hin). }
    clear H. intros [urls|e'] s1 t1 (Hs1 & Ht1 & Hc); cbv beta iota.
    2:{ destruct Hc as ([=] & _). }
    destruct Hc as (root' & [= <-] & Hc).
    set (s1' := with_total s1 (Z.of_nat (List.length urls))).
    assert (Hs1' : same_settings self s1').
    { apply (same_settings_trans _ self1); [exact Hset|]. exact Hs1. }
    destruct (ET.findall_descendants "sitemap" root) as [|tag tags].
    + destruct Hc as (-> & -> & ->).
      apply run_total. generalize (_validate_urls_spec w
        (fold_left add_url (ET.findall_descendants "url" root) []) s1').
      apply run_mono. intros c2 s2 t2 (Hs2 & Ht2 & _ & _ & _).
      assert (Hself2 : same_settings self s2)
        by (apply (same_settings_trans _ s1'); assumption).
      assert (Forall (sent_by self) t2).
      { eapply Forall_impl; [|exact Ht2]. intros r.
        now apply sent_by_settings. }
      destruct c2; (split; [reflexivity|]); (split; [exact Hself2|]);
        now exists t2.
    + subst urls. apply run_total.
      generalize (_validate_urls_spec w [] s1'). apply run_mono.
      intros c2 s2 t2 (Hs2 & Ht2 & _ & Hnil & _).
      assert (Hself2 : same_settings self s2)
        by (apply (same_settings_trans _ s1'); assumption).
      assert (Forall (sent_by self) t2).
      { eapply Forall_impl; [|exact Ht2]. intros r.
        now apply sent_by_settings. }
      destruct c2; (split; [reflexivity|]); (split; [exact Hself2|]);
        exists (t1 ++ t2)%list; (split; [reflexivity|]);
        exists t1, t2; auto.
Qed.

(** The same where the recursive calls may raise: the loop over the
    children then ends with the exception. *)
Lemma _parse_sitemap_sends (d : Prop) (w : World) (rec : Py Results)
  (body : string) (self : SitemapValidator) (P : Request -> Prop) :
  (forall root l,
      ET_fromstring w body = inr root -> In l (child_locs root) ->
      run d rec (child_validator self l) (fun _ _ t => Forall P t)) ->
  run d (_parse_sitemap w rec body) self (fun c s t =>
    same_settings self s /\ Forall P t /\
    match ET_fromstring w body with
    | inl _ => t = [] /\ exists e, c = Raised e
    | inr root =>
        match ET.findall_descendants "sitemap" root with
        | [] => t = []
        | _ :: _ =>
            match c with
            | Normal urls => urls = []
            | Raised _ => True
            end
        end
    end).
Proof.
  intros Hrec. unfold _parse_sitemap. run_step.
  destruct (ET_fromstring w body) as [e|root] eqn:Hparse.
  { run_step. repeat split; eauto using same_settings_refl. }
  run_step.
  specialize (Hrec root). unfold child_locs in Hrec.
  destruct (ET.findall_descendants "sitemap" root) as [|tag tags] eqn:Htags.
  { run_step. repeat split; auto using same_settings_refl. }
  run_step.
  eapply run_mono;
    [| apply (run_for_each_inv d _ _ (fun s t =>
         same_settings self s /\ Forall P t))].
  - cbv beta. intros [[]|e] s t [Hs Ht].
    + run_step. rewrite app_nil_r. auto.
    + auto.
  - auto using same_settings_refl.
  - intros x s t Hx [Hs Ht]. apply run_visit_sitemap.
    destruct (child_loc x) as [|l ls] eqn:Hl.
    + rewrite app_nil_r. auto.
    + assert (Hin : In l (flat_map child_loc (tag :: tags))).
      { apply in_flat_map. exists x. split; [exact Hx|].
        rewrite Hl. now left. }
      replace (child_validator s l) with (child_validator self l)
        by (unfold child_validator; destruct Hs as (_ & -> & -> & _);
            reflexivity).
      generalize (Hrec l eq_refl Hin). apply run_mono.
      intros [r|e] _ t' Ht'; (split; [|apply Forall_app; auto]).
      * destruct Hs as (?&?&?&?). repeat split; assumption.
      * exact Hs.
Qed.

(** What every call of [validate] does, whatever the recursive calls do. *)
Lemma validate_call_sends (d : Prop) (w : World) (rec : Py Results)
  (self : SitemapValidator) (P : Request -> Prop) :
  (forall l,
      In l (children_at w (sitemap_url self) (headers self) (timeout self)) ->
      run d rec (child_validator self l) (fun _ _ t => Forall P t)) ->
  run d (validate_call w rec) self (fun c s t =>
    c = Normal (results s) /\ same_settings self s /\
    exists rest, t = fetch_of self :: rest /\
      match document_of w self with
      | Some root =>
          match ET.findall_descendants "sitemap" root with
          | [] => Forall (sent_by self) rest
          | _ :: _ =>
              exists t1 t2, rest = (t1 ++ t2)%list /\ Forall P t1 /\
                Forall (sent_by self) t2 /\
                (as_completed w [] = [] -> t2 = [])
          end
      | None => rest = []
      end).
Proof.
  intros Hrec. apply run_validate_call.
  unfold children_at, document_of, document_at in *.
  destruct (requests_get w (sitemap_url self) (headers self) (timeout self))
    as [e|response].
  { repeat split. now exists []. }
  destruct (status_code response =? 200).
  2:{ cbv zeta. repeat split. now exists []. }
  set (self1 := with_errors self (content_type_warning response)).
  assert (Hset : same_settings self self1) by repeat split.
  generalize (_parse_sitemap_sends d w rec (content response) self1 P).
  destruct (ET_fromstring w (content response)) as [e|root].
  - intros H. eapply run_mono; [|apply H; discriminate].
    intros c s1 t1 (Hs1 & _ & -> & e' & ->).
    assert (Hself1 : same_settings self s1)
      by (apply (same_settings_trans _ self1); assumption).
    split; [reflexivity|]. split; [|now exists []].
    destruct Hself1 as (?&?&?&?). repeat split; assumption.
  - intros H. eapply run_mono; [|apply H].
    2:{ intros root' l [= <-] Hin. apply (Hrec l Hin). }
    clear H. intros c s1 t1 (Hs1 & Ht1 & Hc).
    assert (Hself1 : same_settings self s1)
      by (apply (same_settings_trans _ self1); assumption).
    destruct c as [urls|e'].
    + set (s1' := with_total s1 (Z.of_nat (List.length urls))).
      assert (Hs1' : same_settings self s1').
      { destruct Hself1 as (?&?&?&?). repeat split; assumption. }
      apply run_total.
      generalize (_validate_urls_spec w urls s1'). apply run_mono.
      intros c2 s2 t2 (Hs2 & Ht2 & _ & Hnil & _).
      assert (Hself2 : same_settings self s2)
        by (apply (same_settings_trans _ s1'); assumption).
      assert (Hmine : Forall (sent_by self) t2).
      { eapply Forall_impl; [|exact Ht2]. intros r.
        now apply sent_by_settings. }
      assert (Hfailed : forall e, same_settings self (failed e s2)).
      { intros e. destruct Hself2 as (?&?&?&?). repeat split; assumption. }
      destruct (ET.findall_descendants "sitemap" root) as [|tag tags].
      * subst t1.
        destruct c2; (split; [reflexivity|]); (split; [auto|]);
          now exists t2.
      * subst urls.
        destruct c2; (split; [reflexivity|]); (split; [auto|]);
          exists (t1 ++ t2)%list; (split; [reflexivity|]);
          exists t1, t2; auto.
    + split; [reflexivity|]. split.
      { destruct Hself1 as (?&?&?&?). repeat split; assumption. }
      exists t1. split; [reflexivity|].
      destruct (ET.findall_descendants "sitemap" root) as [|tag tags].
      * subst t1. constructor.
      * exists t1, []. rewrite app_nil_r. repeat split; auto.
Qed.

(** ** Leaf URLs *)

(** C5.  An entry whose location parses without a scheme or without a host
    is counted invalid, with the error "Invalid URL structure: <url>", and
    no request is sent for it. *)
Theorem structural_rejection (w : World) (u : UrlData)
  (self : SitemapValidator) (parsed : ParseResult) :
  urlparse w (loc u) = inr parsed ->
  scheme parsed = EmptyString \/ netloc parsed = EmptyString ->
  exists self',
    _check_url w u self = Some (Normal tt, self', []) /\
    same_settings self self' /\
    results self'
    = count_invalid ("Invalid URL structure: " ++ loc u) (results self) /\
    _all_processed_urls self'
    = (_all_processed_urls self ++ [mkUrlResult u false])%list.
Proof.
  intros Hparse Hempty.
  assert (Hall : forallb Str.truthy [scheme parsed; netloc parsed] = false).
  { destruct Hempty as [-> | ->]; simpl; [reflexivity|].
    now rewrite andb_false_r. }
  unfold _check_url, try_except, bind. rewrite Hparse.
  cbn -[append forallb]. rewrite Hall. cbn -[append].
  eexists. split; [reflexivity|]. repeat split.
Qed.

Lemma truthy_nonempty (s : string) : s <> EmptyString -> Str.truthy s = true.
Proof. destruct s; [congruence | reflexivity]. Qed.

(** C4.  When HEAD answers 403, 404 or 405 the check sends a GET and
    classifies the URL by the status of the GET alone: valid exactly when it
    lies in [200,300), otherwise invalid with "URL returned HTTP <status>:
    <url>". *)
Theorem head_falls_back_to_get (w : World) (u : UrlData)
  (self : SitemapValidator) (parsed : ParseResult)
  (head_response get_response : Response) :
  urlparse w (loc u) = inr parsed ->
  scheme parsed <> EmptyString -> netloc parsed <> EmptyString ->
  requests_head w (loc u) (headers self) (timeout self) true
  = inr head_response ->
  In (status_code head_response) [403; 404; 405] ->
  requests_get w (loc u) (headers self) (timeout self) = inr get_response ->
  let status := status_code get_response in
  let ok := (200 <=? status) && (status <? 300) in
  (ok = true <-> 200 <= status < 300) /\
  exists self',
    _check_url w u self
    = Some (Normal tt, self',
            [request_of HEAD self (loc u); request_of GET self (loc u)]) /\
    _all_processed_urls self'
    = (_all_processed_urls self ++ [mkUrlResult u ok])%list /\
    results self'
    = if ok then count_valid (results self)
      else count_invalid
             ("URL returned HTTP " ++ Str.of_Z status ++ ": " ++ loc u)
             (results self).
Proof.
  intros Hparse Hscheme Hnetloc Hhead Hin Hget status ok. split.
  { unfold ok. rewrite andb_true_iff, Z.leb_le, Z.ltb_lt. tauto. }
  assert (Hall : forallb Str.truthy [scheme parsed; netloc parsed] = true).
  { simpl. now rewrite !truthy_nonempty. }
  assert (Hfall : existsb (Z.eqb (status_code head_response)) [405; 404; 403]
                  = true).
  { simpl in Hin. destruct Hin as [<- | [<- | [<- | []]]]; reflexivity. }
  unfold _check_url, try_except, bind, head, get, get_self, send.
  rewrite Hparse. cbn -[append forallb existsb Str.of_Z].
  rewrite Hall. cbn -[append forallb existsb Str.of_Z].
  rewrite Hhead. cbn -[append forallb existsb Str.of_Z].
  rewrite Hfall. cbn -[append forallb existsb Str.of_Z].
  rewrite Hget. cbn -[append forallb existsb Str.of_Z].
  fold status. fold ok.
  destruct ok; cbn -[append Str.of_Z]; eexists; repeat split.
Qed.

Lemma run_future_result (w : World) (u : UrlData) (self : SitemapValidator) :
  run False (future_result w u) self (fun c s t =>
    c = Normal tt /\
    match _check_url w u self with
    | Some (Normal _, s', t') => s = s' /\ t = t'
    | Some (Raised e, _, t') =>
        s = with_errors self ["Error during URL validation: " ++ str_exn e] /\
        t = t'
    | None => False
    end).
Proof.
  unfold future_result. run_step.
  generalize (_check_url_spec w u self). unfold run at 1 2.
  destruct (_check_url w u self) as [[[[[]|e] s] t]|]; [| |contradiction].
  - auto.
  - intros (_ & _ & _ & -> & _). cbn [any_Exception]. run_step.
    now rewrite app_nil_r.
Qed.

(** C6, as the code has it.  A check always completes.  A structural error,
    a status outside [200,300) and a [RequestException] (time-out, connection
    or TLS error) make it complete normally with the entry recorded as not
    valid, [invalid_urls] one higher and one error string more, which for a
    [RequestException] is "Failed to connect to <url>: <cause>".  The check
    raises only what [urlparse] or the HTTP client raised that is not a
    [RequestException]; it has then changed nothing, and the pool driver
    records "Error during URL validation: <cause>" and goes on, so that
    [_validate_urls] with at least one worker completes normally. *)
Theorem check_url_outcomes (w : World) (u : UrlData)
  (self : SitemapValidator) :
  (exists c self' sent,
      _check_url w u self = Some (c, self', sent) /\
      match c with
      | Normal _ =>
          exists v : bool,
            _all_processed_urls self'
            = (_all_processed_urls self ++ [mkUrlResult u v])%list /\
            if v then results self' = count_valid (results self)
            else exists msg, results self' = count_invalid msg (results self)
      | Raised e =>
          is_RequestException e = false /\ self' = self /\
          raised_by_world w self (loc u) e /\
          exists sent',
            future_result w u self
            = Some (Normal tt,
                    with_errors self
                      ["Error during URL validation: " ++ str_exn e],
                    sent')
      end) /\
  (forall parsed cause,
      urlparse w (loc u) = inr parsed ->
      scheme parsed <> EmptyString -> netloc parsed <> EmptyString ->
      requests_head w (loc u) (headers self) (timeout self) true
      = inl (RequestException cause) ->
      exists self',
        _check_url w u self
        = Some (Normal tt, self', [request_of HEAD self (loc u)]) /\
        _all_processed_urls self'
        = (_all_processed_urls self ++ [mkUrlResult u false])%list /\
        results self'
        = count_invalid ("Failed to connect to " ++ loc u ++ ": " ++ cause)
            (results self)) /\
  (forall parsed head_response cause,
      urlparse w (loc u) = inr parsed ->
      scheme parsed <> EmptyString -> netloc parsed <> EmptyString ->
      requests_head w (loc u) (headers self) (timeout self) true
      = inr head_response ->
      In (status_code head_response) [403; 404; 405] ->
      requests_get w (loc u) (headers self) (timeout self)
      = inl (RequestException cause) ->
      exists self',
        _check_url w u self
        = Some (Normal tt, self',
                [request_of HEAD self (loc u); request_of GET self (loc u)]) /\
        _all_processed_urls self'
        = (_all_processed_urls self ++ [mkUrlResult u false])%list /\
        results self'
        = count_invalid ("Failed to connect to " ++ loc u ++ ": " ++ cause)
            (results self)) /\
  (forall urls,
      0 < max_workers self ->
      exists self' sent,
        _validate_urls w urls self = Some (Normal tt, self', sent)).
Proof.
  split; [|split; [|split]].
  - generalize (_check_url_spec w u self) (run_future_result w u self).
    rewrite !run_returns.
    intros (c & s & t & E & _ & _ & Hc) (c' & s' & t' & E' & -> & H).
    exists c, s, t. split; [exact E|]. rewrite E in H.
    destruct c as [[]|e]; [exact Hc|].
    destruct Hc as (He & -> & Hw). destruct H as [-> ->].
    repeat split; auto. now exists t.
  - intros parsed cause Hparse Hscheme Hnetloc Hhead.
    assert (Hall : forallb Str.truthy [scheme parsed; netloc parsed] = true).
    { simpl. now rewrite !truthy_nonempty. }
    unfold _check_url, try_except, bind, head, get_self, send.
    rewrite Hparse. cbn -[append forallb existsb Str.of_Z].
    rewrite Hall. cbn -[append forallb existsb Str.of_Z].
    rewrite Hhead. cbn -[append].
    eexists. repeat split.
  - intros parsed head_response cause Hparse Hscheme Hnetloc Hhead Hin Hget.
    assert (Hall : forallb Str.truthy [scheme parsed; netloc parsed] = true).
    { simpl. now rewrite !truthy_nonempty. }
    assert (Hfall : existsb (Z.eqb (status_code head_response))
                      [405; 404; 403] = true).
    { simpl in Hin. destruct Hin as [<- | [<- | [<- | []]]]; reflexivity. }
    unfold _check_url, try_except, bind, head, get, get_self, send.
    rewrite Hparse. cbn -[append forallb existsb Str.of_Z].
    rewrite Hall. cbn -[append forallb existsb Str.of_Z].
    rewrite Hhead. cbn -[append forallb existsb Str.of_Z].
    rewrite Hfall. cbn -[append forallb existsb Str.of_Z].
    rewrite Hget. cbn -[append].
    eexists. repeat split.
  - intros urls Hmw.
    generalize (_validate_urls_spec w urls self). rewrite run_returns.
    intros (c & s & t & E & _ & _ & _ & _ & Hc).
    destruct c as [[]|e]; [now exists s, t | lia].
Qed.

(** ** Reports of [validate] *)

Lemma validate_S (w : World) (fuel : nat) :
  validate w (S fuel) = validate_call w (validate w fuel).
Proof. reflexivity. Qed.

(** C3.  For a urlset, [total_urls] is the number of [<url>] elements
    whose [<loc>] has a text that is not empty; where no [<url>] has two
    [<loc>] children, as the format requires, this is the number of
    [<url><loc>] elements with a text that is not empty. *)
Theorem total_urls_counts_locations (w : World) (fuel : nat)
  (self : SitemapValidator) (response : Response) (root : ET.Element) :
  requests_get w (sitemap_url self) (headers self) (timeout self)
  = inr response ->
  status_code response = 200 ->
  ET_fromstring w (content response) = inr root ->
  ET.findall_descendants "sitemap" root = [] ->
  exists r self' sent,
    validate w (S fuel) self = Some (Normal r, self', sent) /\
    total_urls r
    = Z.of_nat
        (List.length
           (filter has_location (ET.findall_descendants "url" root))) /\
    (one_loc_per_url root ->
     total_urls r
     = Z.of_nat (List.length (filter ET.has_text (loc_elements root)))).
Proof.
  intros Hget Hstatus Hparse Hsitemaps.
  set (n := List.length
              (filter has_location (ET.findall_descendants "url" root))).
  cut (run False (validate w (S fuel)) self (fun c s t =>
         exists r, c = Normal r /\ total_urls r = Z.of_nat n)).
  { rewrite run_returns. intros (c & s & t & E & r & -> & H).
    exists r, s, t. split; [exact E|]. split; [exact H|].
    intros Hone. rewrite H. unfold n, loc_elements.
    now rewrite (locations_are_loc_elements _ Hone). }
  pose proof (fold_add_url_length (ET.findall_descendants "url" root) [])
    as Hlen.
  simpl in Hlen. fold n in Hlen.
  rewrite validate_S. apply run_validate_call.
  rewrite Hget, Hstatus. cbn [Z.eqb Pos.eqb].
  eapply run_eq;
    [exact (_parse_sitemap_urlset _ _ _ _ root Hparse Hsitemaps)|].
  cbv beta iota. rewrite Hlen.
  generalize (_validate_urls_spec w
    (fold_left add_url (ET.findall_descendants "url" root) [])
    (with_total (with_errors self (content_type_warning response))
       (Z.of_nat n))).
  apply run_mono. intros c s t (_ & _ & Htot & _).
  destruct c as [[]|e]; eexists; (split; [reflexivity|]); exact Htot.
Qed.

(** C7, as the code has it.  When the sitemap is fetched with status 200
    and its body is not well-formed XML, [validate] returns a report whose
    counters are zero and whose errors are the content-type warning, if the
    content type does not mention xml, followed by "Validation failed:
    <parse error>"; so there is one error string exactly when the content type
    mentions xml. *)
Theorem malformed_xml_report (w : World) (fuel : nat) (url : string)
  (t mw : Z) (ua : string) (response : Response) (e : exn) :
  requests_get w url [("User-Agent", ua)] t = inr response ->
  status_code response = 200 ->
  ET_fromstring w (content response) = inl e ->
  let self := __init__ url t mw ua in
  let r := {| valid_urls := 0; invalid_urls := 0; total_urls := 0;
              errors := content_type_warning response
                        ++ ["Validation failed: " ++ str_exn e] |} in
  validate w (S fuel) self
  = Some (Normal r, with_results self r, [fetch_of self]).
Proof.
  intros Hget Hstatus Hparse self r.
  apply run_exact. rewrite validate_S. apply run_validate_call.
  cbn [sitemap_url headers timeout self __init__].
  rewrite Hget, Hstatus. cbn [Z.eqb Pos.eqb].
  eapply run_eq; [exact (_parse_sitemap_malformed _ _ _ _ e Hparse)|].
  cbv beta iota.
  repeat split.
Qed.

Lemma validate_unfold (w : World) (fuel : nat) :
  validate w fuel
  = validate_call w match fuel with
                    | O => raise RecursionError
                    | S fuel' => validate w fuel'
                    end.
Proof. now destruct fuel. Qed.

(** A call of [validate] returns whatever the nested calls do, as long as
    they complete. *)
Lemma validate_call_returns (w : World) (rec : Py Results)
  (self : SitemapValidator) :
  (forall obj, rec obj <> None) ->
  run False (validate_call w rec) self (fun c s _ => c = Normal (results s)).
Proof.
  intros Hrec.
  eapply run_mono;
    [|apply (validate_call_sends False w rec self (fun _ => True))].
  - now intros c s t (-> & _).
  - intros l _. unfold run. specialize (Hrec (child_validator self l)).
    destruct (rec (child_validator self l)) as [[[c s] t]|]; [|congruence].
    apply Forall_forall. auto.
Qed.

Lemma validate_total (w : World) (fuel : nat) :
  forall self,
    run False (validate w fuel) self (fun c s _ => c = Normal (results s)).
Proof.
  induction fuel as [|fuel IH]; intros self; rewrite validate_unfold;
    apply validate_call_returns; intros obj; [discriminate|].
  generalize (IH obj). unfold run.
  destruct (validate w fuel obj); [discriminate | contradiction].
Qed.

Lemma validate_returns (w : World) (rank : string -> nat) :
  ranked w rank ->
  forall fuel self,
    (rank (sitemap_url self) < fuel)%nat ->
    run False (validate w fuel) self (fun c s _ => c = Normal (results s)).
Proof. intros _ fuel self _. apply validate_total. Qed.

(** C8.  [validate] always returns its report and never raises.  This holds
    of every web, also of one in which an index lists itself: the nesting
    ends with a [RecursionError], which the innermost call that meets it
    records as "Validation failed: ...".  More generally, one call returns
    whatever the nested calls do, be it that they raise.  A fetch that
    answers another status than 200 gives a report with "Failed to fetch
    sitemap (HTTP <status>)" alone; a fetch that raises gives a report with
    "Validation failed: <cause>" alone; in both the counters are zero and
    nothing else was requested. *)
Theorem validate_always_returns (w : World) :
  (forall fuel self,
      exists self' sent,
        validate w fuel self = Some (Normal (results self'), self', sent)) /\
  (forall rec self,
      (forall obj, rec obj <> None) ->
      exists self' sent,
        validate_call w rec self
        = Some (Normal (results self'), self', sent)) /\
  (forall fuel url t mw ua response,
      requests_get w url [("User-Agent", ua)] t = inr response ->
      status_code response <> 200 ->
      let self := __init__ url t mw ua in
      let r := {| valid_urls := 0; invalid_urls := 0; total_urls := 0;
                  errors := ["Failed to fetch sitemap (HTTP "
                             ++ Str.of_Z (status_code response) ++ ")"] |} in
      validate w fuel self
      = Some (Normal r, with_results self r, [fetch_of self])) /\
  (forall fuel url t mw ua e,
      requests_get w url [("User-Agent", ua)] t = inl e ->
      let self := __init__ url t mw ua in
      let r := {| valid_urls := 0; invalid_urls := 0; total_urls := 0;
                  errors := ["Validation failed: " ++ str_exn e] |} in
      validate w fuel self
      = Some (Normal r, with_results self r, [fetch_of self])).
Proof.
  repeat split.
  - intros fuel self. generalize (validate_total w fuel self).
    rewrite run_returns. intros (c & s & t & E & ->). now exists s, t.
  - intros rec self Hrec. generalize (validate_call_returns w rec self Hrec).
    rewrite run_returns. intros (c & s & t & E & ->). now exists s, t.
  - intros fuel url t mw ua response Hget Hstatus self r.
    apply run_exact. rewrite validate_unfold. apply run_validate_call.
    cbn [sitemap_url headers timeout self __init__].
    rewrite Hget. apply Z.eqb_neq in Hstatus. rewrite Hstatus.
    repeat split.
  - intros fuel url t mw ua e Hget self r.
    apply run_exact. rewrite validate_unfold. apply run_validate_call.
    cbn [sitemap_url headers timeout self __init__].
    rewrite Hget. repeat split.
Qed.

(** ** The user agent of the requests *)

Lemma default_headers_below (w : World) (fuel : nat) :
  forall self,
    headers self = default_headers ->
    run False (validate w fuel) self (fun c s t =>
      c = Normal (results s) /\
      exists below,
        t = fetch_of self :: below /\
        Forall (fun r => req_headers r = default_headers) below).
Proof.
  induction fuel as [|fuel IH]; intros self Hself; rewrite validate_unfold;
    (eapply run_mono;
     [|apply (validate_call_sends False w _ self
                (fun r => req_headers r = default_headers))]).
  1,3: intros c s t (-> & _ & rest & -> & Hrest);
    (split; [reflexivity|]); exists rest; (split; [reflexivity|]);
    assert (Hmine : forall l, Forall (sent_by self) l ->
              Forall (fun r => req_headers r = default_headers) l)
      by (intros l; apply Forall_impl; intros r [-> _]; exact Hself);
    (destruct (document_of w self) as [root|]; [|subst; constructor]);
    (destruct (ET.findall_descendants "sitemap" root); [auto|]);
    destruct Hrest as (t1 & t2 & -> & H1 & H2 & _);
    apply Forall_app; auto.
  - intros l _. unfold run, raise. constructor.
  - intros l _. generalize (IH (child_validator self l) eq_refl).
    apply run_mono. intros c s t (_ & below & -> & H).
    constructor; [reflexivity | exact H].
Qed.

(** ** Indexes *)

Lemma with_results_same (self : SitemapValidator) :
  with_results self (results self) = self.
Proof. now destruct self. Qed.

Lemma merged_nil (r : Results) : merged r [] = r.
Proof.
  destruct r as [v i n e]. unfold merged. simpl.
  rewrite !Z.add_0_r, app_nil_r. reflexivity.
Qed.

Lemma merged_cons (r0 r : Results) (rs : list Results) :
  merged (merge r0 r) rs = merged r0 (r :: rs).
Proof.
  unfold merged, merge. simpl. rewrite !Z.add_assoc, app_assoc.
  reflexivity.
Qed.

Lemma child_runs_settings (w : World) (fuel : nat)
  (self self' : SitemapValidator) (locs : list string) :
  same_settings self self' ->
  child_runs w fuel self' locs = child_runs w fuel self locs.
Proof.
  intros (_ & Ht & Hm & _). induction locs as [|l locs IH]; simpl;
    [reflexivity|].
  unfold child_validator. rewrite Ht, Hm, IH. reflexivity.
Qed.

Lemma child_loc_cases (sitemap : ET.Element) :
  child_loc sitemap = [] \/ exists l, child_loc sitemap = [l].
Proof.
  unfold child_loc. destruct (ET.find_child "loc" sitemap) as [loc_tag|];
    [destruct (ET.has_text loc_tag)|]; eauto.
Qed.

Lemma visit_sitemap_skip (rec : Py Results) (sitemap : ET.Element)
  (self : SitemapValidator) :
  child_loc sitemap = [] ->
  visit_sitemap rec sitemap self = Some (Normal tt, self, []).
Proof.
  unfold child_loc, visit_sitemap.
  destruct (ET.find_child "loc" sitemap) as [loc_tag|];
    [destruct (ET.has_text loc_tag)|]; [discriminate| |]; reflexivity.
Qed.

Lemma visit_sitemap_child (rec : Py Results) (sitemap : ET.Element)
  (self : SitemapValidator) (l : string) (r : Results)
  (child' : SitemapValidator) (sent : list Request) :
  child_loc sitemap = [l] ->
  rec (child_validator self l) = Some (Normal r, child', sent) ->
  visit_sitemap rec sitemap self
  = Some (Normal tt, with_results self (merge (results self) r), sent).
Proof.
  intros Hl Hrec. apply run_exact. apply run_visit_sitemap. rewrite Hl.
  unfold run. rewrite Hrec. auto.
Qed.

Lemma bind_normal {A B : Type} (m : Py A) (k : A -> Py B)
  (self s1 : SitemapValidator) (a : A) (t1 : list Request) :
  m self = Some (Normal a, s1, t1) ->
  bind m k self
  = match k a s1 with
    | Some (c, s2, t2) => Some (c, s2, (t1 ++ t2)%list)
    | None => None
    end.
Proof. intros H. unfold bind. now rewrite H. Qed.

(** The loop over the [<sitemap>] elements merges the reports of the
    children in document order. *)
Lemma for_each_children (w : World) (fuel : nat) (tags : list ET.Element) :
  forall self outs,
    child_runs w fuel self (flat_map child_loc tags) = Some outs ->
    for_each tags (visit_sitemap (validate w fuel)) self
    = Some (Normal tt,
            with_results self (merged (results self) (map fst outs)),
            List.concat (map snd outs)).
Proof.
  induction tags as [|tag tags IH]; intros self outs; simpl.
  - intros [= <-]. simpl. now rewrite merged_nil, with_results_same.
  - destruct (child_loc_cases tag) as [Hl | [l Hl]]; rewrite Hl; simpl.
    + intros Hruns.
      rewrite (bind_normal _ _ _ _ _ _ (visit_sitemap_skip _ _ _ Hl)).
      now rewrite (IH _ _ Hruns).
    + destruct (validate w fuel (child_validator self l))
        as [[[[r|e] child'] sent]|] eqn:Hchild; try discriminate.
      destruct (child_runs w fuel self (flat_map child_loc tags))
        as [outs'|] eqn:Hruns; [|discriminate].
      intros [= <-].
      rewrite (bind_normal _ _ _ _ _ _
                 (visit_sitemap_child _ _ _ _ _ _ _ Hl Hchild)).
      set (self1 := with_results self (merge (results self) r)).
      assert (Hruns1 : child_runs w fuel self1 (flat_map child_loc tags)
                       = Some outs').
      { rewrite <- Hruns. apply child_runs_settings. repeat split. }
      rewrite (IH _ _ Hruns1). simpl.
      unfold self1. cbn [results with_results]. now rewrite merged_cons.
Qed.

Lemma validate_urlset_returns (w : World) (fuel : nat)
  (self : SitemapValidator) :
  is_urlset w self ->
  exists r self' sent, validate w (S fuel) self = Some (Normal r, self', sent).
Proof.
  intros (root & Hdoc & Hurlset).
  generalize (validate_call_spec False w (validate w fuel) self
                (fun _ => True)).
  rewrite run_returns. unfold children_at. fold (document_of w self).
  rewrite Hdoc. unfold child_locs. rewrite Hurlset. simpl.
  intros H. destruct H as (c & s & t & E & -> & _); [intros l []|].
  now exists (results s), s, t.
Qed.

Lemma child_runs_urlsets (w : World) (fuel : nat) (self : SitemapValidator)
  (locs : list string) :
  Forall (fun l => is_urlset w (child_validator self l)) locs ->
  exists outs, child_runs w (S fuel) self locs = Some outs.
Proof.
  induction 1 as [|l locs Hl _ [outs IH]].
  - now exists [].
  - destruct (validate_urlset_returns w fuel _ Hl) as (r & s & t & E).
    cbn [child_runs]. rewrite E, IH. eauto.
Qed.

Lemma _validate_urls_nil (w : World) (self : SitemapValidator) :
  as_completed w [] = [] ->
  0 < max_workers self ->
  _validate_urls w [] self = Some (Normal tt, self, []).
Proof.
  intros Hnil Hmw. unfold _validate_urls, bind, get_self.
  apply Z.leb_gt in Hmw. rewrite Hmw, Hnil. reflexivity.
Qed.

(** The report of an index whose children return. *)
Lemma validate_index (w : World) (fuel : nat) (self : SitemapValidator)
  (response : Response) (root : ET.Element)
  (outs : list (Results * list Request)) :
  completes_all w ->
  0 < max_workers self ->
  requests_get w (sitemap_url self) (headers self) (timeout self)
  = inr response ->
  status_code response = 200 ->
  ET_fromstring w (content response) = inr root ->
  ET.findall_descendants "sitemap" root <> [] ->
  child_runs w fuel self (child_locs root) = Some outs ->
  let self1 := with_errors self (content_type_warning response) in
  let self2 :=
    with_results self1 (merged (results self1) (map fst outs)) in
  _parse_sitemap w (validate w fuel) (content response) self1
  = Some (Normal [], self2, List.concat (map snd outs)) /\
  validate w (S fuel) self
  = Some (Normal (results (with_total self2 0)), with_total self2 0,
          fetch_of self :: List.concat (map snd outs)).
Proof.
  intros Hpool Hmw Hget Hstatus Hparse Hindex Hruns self1 self2.
  assert (Hp : _parse_sitemap w (validate w fuel) (content response) self1
               = Some (Normal [], self2, List.concat (map snd outs))).
  { unfold _parse_sitemap. unfold bind at 1. rewrite Hparse. cbn [call ret].
    destruct (ET.findall_descendants "sitemap" root) as [|tag tags] eqn:Htags;
      [congruence|].
    assert (Hruns1 : child_runs w fuel self1 (flat_map child_loc (tag :: tags))
                     = Some outs).
    { rewrite <- Hruns. unfold child_locs. rewrite Htags.
      apply child_runs_settings. repeat split. }
    rewrite (bind_normal _ _ _ _ _ _ (for_each_children _ _ _ _ _ Hruns1)).
    cbn [ret app]. now rewrite app_nil_r. }
  split; [exact Hp|].
  apply run_exact. rewrite validate_S. apply run_validate_call.
  rewrite Hget, Hstatus. cbn [Z.eqb Pos.eqb].
  eapply run_eq; [exact Hp|]. cbv beta iota. cbn [List.length Z.of_nat].
  eapply run_eq.
  { apply _validate_urls_nil; [|exact Hmw].
    apply Permutation_nil, Permutation_sym, Hpool. }
  cbv beta iota. now rewrite app_nil_r.
Qed.

(** ** The user agent below the top level *)

(** The children of an index all run, each from its fetch on with the
    default headers. *)
Lemma child_runs_total (w : World) (fuel : nat) (self : SitemapValidator)
  (locs : list string) :
  exists outs,
    child_runs w fuel self locs = Some outs /\
    Forall2 (fun l out =>
               exists child' below,
                 validate w fuel (child_validator self l)
                 = Some (Normal (fst out), child', snd out) /\
                 snd out = fetch_of (child_validator self l) :: below /\
                 Forall (fun q => req_headers q = default_headers) below)
      locs outs.
Proof.
  induction locs as [|l locs (outs & IH & Hall)].
  - exists []. split; [reflexivity | constructor].
  - generalize (default_headers_below w fuel (child_validator self l) eq_refl).
    rewrite run_returns. intros (c & s & t & E & -> & below & -> & Hbelow).
    exists ((results s, fetch_of (child_validator self l) :: below) :: outs).
    cbn [child_runs]. rewrite E, IH. split; [reflexivity|].
    constructor; [|exact Hall]. exists s, below. auto.
Qed.

Lemma _parse_sitemap_index (w : World) (fuel : nat) (self : SitemapValidator)
  (body : string) (root : ET.Element)
  (outs : list (Results * list Request)) :
  ET_fromstring w body = inr root ->
  ET.findall_descendants "sitemap" root <> [] ->
  child_runs w fuel self (child_locs root) = Some outs ->
  _parse_sitemap w (validate w fuel) body self
  = Some (Normal [],
          with_results self (merged (results self) (map fst outs)),
          List.concat (map snd outs)).
Proof.
  intros Hparse Hindex Hruns.
  unfold _parse_sitemap. unfold bind at 1. rewrite Hparse. cbn [call ret].
  unfold child_locs in Hruns.
  destruct (ET.findall_descendants "sitemap" root) as [|tag tags];
    [congruence|].
  rewrite (bind_normal _ _ _ _ _ _ (for_each_children _ _ _ _ _ Hruns)).
  cbn [ret app]. now rewrite app_nil_r.
Qed.

(** The requests of an index are its fetch and those of its children. *)
Lemma validate_index_sent (w : World) (fuel : nat) (self : SitemapValidator)
  (response : Response) (root : ET.Element)
  (outs : list (Results * list Request)) :
  completes_all w ->
  requests_get w (sitemap_url self) (headers self) (timeout self)
  = inr response ->
  status_code response = 200 ->
  ET_fromstring w (content response) = inr root ->
  ET.findall_descendants "sitemap" root <> [] ->
  child_runs w fuel self (child_locs root) = Some outs ->
  exists r self',
    validate w (S fuel) self
    = Some (Normal r, self', fetch_of self :: List.concat (map snd outs)).
Proof.
  intros Hpool Hget Hstatus Hparse Hindex Hruns.
  set (self1 := with_errors self (content_type_warning response)).
  assert (Hruns1 : child_runs w fuel self1 (child_locs root) = Some outs).
  { rewrite <- Hruns. apply child_runs_settings. repeat split. }
  pose proof (_parse_sitemap_index w fuel self1 _ root outs
                Hparse Hindex Hruns1) as Hp.
  cut (run False (validate w (S fuel)) self (fun c s t =>
         t = fetch_of self :: List.concat (map snd outs) /\
         exists r, c = Normal r)).
  { rewrite run_returns. intros (c & s & t & E & -> & r & ->).
    now exists r, s. }
  rewrite validate_S. apply run_validate_call.
  rewrite Hget, Hstatus. cbn [Z.eqb Pos.eqb].
  eapply run_eq; [exact Hp|]. cbv beta iota.
  match goal with
  | |- run False (_validate_urls w []) ?s0 _ =>
      generalize (_validate_urls_spec w [] s0)
  end.
  apply run_mono. intros c2 s2 t2 (_ & _ & _ & Hnil & _).
  rewrite Hnil, app_nil_r
    by (apply Permutation_nil, Permutation_sym, Hpool).
  destruct c2; eauto.
Qed.

(** C10.  For a validator configured with the user agent [ua]: the fetch of
    its sitemap carries [ua], and so do the checks of its URLs when the
    sitemap is a urlset; when it is an index, every other request of the run
    carries "SitemapValidator/1.0".  For an index with room for its
    children, each child location, in document order, gets the run of a
    validator built from that location, the timeout and the number of
    workers alone; that run starts with the fetch of the location under
    "SitemapValidator/1.0" and goes on under it, and the requests of the
    index are its fetch followed by these runs. *)
Theorem children_send_default_user_agent (w : World) (url : string)
  (t mw : Z) (ua : string) :
  completes_all w ->
  let self := __init__ url t mw ua in
  let top := mkRequest GET url [("User-Agent", ua)] t in
  let default := [("User-Agent", "SitemapValidator/1.0")] in
  (forall fuel,
      exists r self' rest,
        validate w fuel self = Some (Normal r, self', top :: rest) /\
        match document_at w url [("User-Agent", ua)] t with
        | Some root =>
            match ET.findall_descendants "sitemap" root with
            | [] =>
                Forall (fun q => req_headers q = [("User-Agent", ua)]) rest
            | _ :: _ => Forall (fun q => req_headers q = default) rest
            end
        | None => rest = []
        end) /\
  (forall fuel root,
      document_at w url [("User-Agent", ua)] t = Some root ->
      ET.findall_descendants "sitemap" root <> [] ->
      exists outs r self',
        Forall2 (fun l out =>
                   exists child' below,
                     validate w fuel (__init__ l t mw "SitemapValidator/1.0")
                     = Some (Normal (fst out), child', snd out) /\
                     snd out = mkRequest GET l default t :: below /\
                     Forall (fun q => req_headers q = default) below)
          (child_locs root) outs /\
        validate w (S fuel) self
        = Some (Normal r, self', top :: List.concat (map snd outs))).
Proof.
  intros Hpool self top default. split.
  - intros fuel.
    cut (run False (validate w fuel) self (fun c s sent =>
           c = Normal (results s) /\
           exists rest, sent = top :: rest /\
             match document_of w self with
             | Some root =>
                 match ET.findall_descendants "sitemap" root with
                 | [] => Forall (sent_by self) rest
                 | _ :: _ =>
                     Forall (fun q => req_headers q = default) rest
                 end
             | None => rest = []
             end)).
    { rewrite run_returns.
      intros (c & s & sent & E & -> & rest & -> & Hrest).
      exists (results s), s, rest. split; [exact E|].
      change (document_at w url [("User-Agent", ua)] t)
        with (document_of w self).
      destruct (document_of w self) as [root|]; [|exact Hrest].
      destruct (ET.findall_descendants "sitemap" root); [|exact Hrest].
      revert Hrest. apply Forall_impl. now intros q [-> _]. }
    rewrite validate_unfold.
    eapply run_mono;
      [|apply (validate_call_sends False w _ self
                 (fun q => req_headers q = default))].
    + intros c s sent (-> & _ & rest & -> & Hrest).
      split; [reflexivity|]. exists rest. split; [reflexivity|].
      destruct (document_of w self) as [root|]; [|exact Hrest].
      destruct (ET.findall_descendants "sitemap" root); [exact Hrest|].
      destruct Hrest as (t1 & t2 & -> & H1 & _ & H2).
      rewrite H2, app_nil_r; [exact H1|].
      apply Permutation_nil, Permutation_sym, Hpool.
    + intros l _. destruct fuel as [|fuel].
      * unfold run, raise. constructor.
      * generalize (default_headers_below w fuel (child_validator self l)
                      eq_refl).
        apply run_mono. intros c s sent (_ & below & -> & H).
        constructor; [reflexivity | exact H].
  - intros fuel root Hdoc Hindex.
    unfold document_at in Hdoc.
    destruct (requests_get w url [("User-Agent", ua)] t)
      as [e|response] eqn:Hget; [discriminate|].
    destruct (status_code response =? 200) eqn:Hstatus; [|discriminate].
    apply Z.eqb_eq in Hstatus.
    destruct (ET_fromstring w (content response)) as [e|root'] eqn:Hparse;
      [discriminate|].
    injection Hdoc as ->.
    destruct (child_runs_total w fuel self (child_locs root))
      as (outs & Hruns & Hall).
    destruct (validate_index_sent w fuel self response root outs
                Hpool Hget Hstatus Hparse Hindex Hruns) as (r & self' & E).
    exists outs, r, self'. split; [exact Hall | exact E].
Qed.

Lemma sum_of_add (f g : Results -> Z) (rs : list Results) :
  sum_of (fun r => f r + g r) rs = sum_of f rs + sum_of g rs.
Proof.
  induction rs as [|r rs IH]; simpl; [reflexivity|]. rewrite IH. lia.
Qed.

(** C2.  An index whose children are urlsets: the children are validated
    one after the other in document order, [_parse_sitemap] adds the three
    counters of each child to those of the index and appends its errors, in
    that order, and the report of the index has the sums of [valid_urls] and
    of [invalid_urls] and no error string besides those of the children and
    the content-type warning. *)
Theorem index_of_urlsets_merges_children (w : World) (fuel : nat)
  (url : string) (t mw : Z) (ua : string) (response : Response)
  (root : ET.Element) :
  let self := __init__ url t mw ua in
  completes_all w ->
  0 < mw ->
  requests_get w url [("User-Agent", ua)] t = inr response ->
  status_code response = 200 ->
  ET_fromstring w (content response) = inr root ->
  ET.findall_descendants "sitemap" root <> [] ->
  Forall (fun l => is_urlset w (child_validator self l)) (child_locs root) ->
  exists outs merged_self r self',
    let children := map fst outs in
    child_runs w (S fuel) self (child_locs root) = Some outs /\
    _parse_sitemap w (validate w (S fuel)) (content response)
      (with_errors self (content_type_warning response))
    = Some (Normal [], merged_self, List.concat (map snd outs)) /\
    results merged_self
    = {| valid_urls := sum_of valid_urls children;
         invalid_urls := sum_of invalid_urls children;
         total_urls := sum_of total_urls children;
         errors := content_type_warning response
                   ++ List.concat (map errors children) |} /\
    validate w (S (S fuel)) self
    = Some (Normal r, self', fetch_of self :: List.concat (map snd outs)) /\
    valid_urls r = sum_of valid_urls children /\
    invalid_urls r = sum_of invalid_urls children /\
    valid_urls r + invalid_urls r
    = sum_of (fun c => valid_urls c + invalid_urls c) children /\
    errors r
    = (content_type_warning response ++ List.concat (map errors children))%list.
Proof.
  intros self Hpool Hmw Hget Hstatus Hparse Hindex Hchildren.
  destruct (child_runs_urlsets w fuel self _ Hchildren) as [outs Hruns].
  destruct (validate_index w (S fuel) self response root outs
              Hpool Hmw Hget Hstatus Hparse Hindex Hruns) as [Hp Hv].
  eexists outs, _, _, _. cbv zeta.
  split; [exact Hruns|]. split; [exact Hp|]. split; [reflexivity|].
  split; [exact Hv|]. rewrite sum_of_add. repeat split.
Qed.

(** For every index whose children return, the report of the index has
    [total_urls = 0]: the assignment in [validate] overwrites the sum that
    [_parse_sitemap] has built. *)
Lemma index_total_is_overwritten (w : World) (fuel : nat)
  (self : SitemapValidator) (response : Response) (root : ET.Element)
  (outs : list (Results * list Request)) :
  completes_all w ->
  0 < max_workers self ->
  requests_get w (sitemap_url self) (headers self) (timeout self)
  = inr response ->
  status_code response = 200 ->
  ET_fromstring w (content response) = inr root ->
  ET.findall_descendants "sitemap" root <> [] ->
  child_runs w fuel self (child_locs root) = Some outs ->
  exists r self' sent,
    validate w (S fuel) self = Some (Normal r, self', sent) /\
    total_urls r = 0 /\
    valid_urls r + invalid_urls r
    = valid_urls (results self) + invalid_urls (results self)
      + sum_of (fun c => valid_urls c + invalid_urls c) (map fst outs).
Proof.
  intros Hpool Hmw Hget Hstatus Hparse Hindex Hruns.
  destruct (validate_index w fuel self response root outs
              Hpool Hmw Hget Hstatus Hparse Hindex Hruns) as [_ Hv].
  eexists _, _, _. split; [exact Hv|]. split; [reflexivity|].
  rewrite sum_of_add. simpl. lia.
Qed.

(** C1, evaluated.  An index with one child urlset that lists one reachable
    URL: the child reports one URL in total, the index reports one valid URL
    and a total of zero. *)
Theorem index_report_loses_total :
  Demo.report 1 "https://example.com/c.xml"
  = Some {| valid_urls := 1; invalid_urls := 0; total_urls := 1;
            errors := [] |} /\
  Demo.report 2 "https://example.com/small.xml"
  = Some {| valid_urls := 1; invalid_urls := 0; total_urls := 0;
            errors := [] |}.
Proof. split; vm_compute; reflexivity. Qed.

(** ** Urlsets *)

Lemma check_loop_counts (w : World) (urls : list UrlData) :
  only_request_errors w ->
  forall self,
    run False (for_each urls (future_result w)) self (fun c s _ =>
      c = Normal tt /\
      total_urls (results s) = total_urls (results self) /\
      valid_urls (results s) + invalid_urls (results s)
      = valid_urls (results self) + invalid_urls (results self)
        + Z.of_nat (List.length urls)).
Proof.
  intros (Hparse & Hget & Hhead).
  induction urls as [|u urls IH]; intros self.
  - simpl. run_step. repeat split. lia.
  - cbn [for_each]. run_step.
    generalize (run_future_result w u self) (_check_url_spec w u self).
    unfold run at 2 3. unfold run at 1.
    destruct (future_result w u self) as [[[c s] t]|]; [|contradiction].
    destruct (_check_url w u self) as [[[[[]|e] s'] t']|];
      [| |contradiction].
    + intros (-> & <- & <-) (Hs & _ & v & _ & Hv).
      generalize (IH s). apply run_mono.
      intros c1 s1 t1 (-> & Htot & Hsum). split; [reflexivity|].
      rewrite Htot, Hsum.
      destruct v; [|destruct Hv as [msg Hv]]; rewrite Hv; simpl; split; lia.
    + intros _ (_ & _ & He & _ & [Hw | [Hw | Hw]]).
      * now apply Hparse in Hw.
      * apply Hhead in Hw. congruence.
      * apply Hget in Hw. congruence.
Qed.

(** The counters of a urlset reconcile when the pool has a worker and
    completes every check, and no check raises. *)
Lemma urlset_counts_reconcile (w : World) (fuel : nat) (url : string)
  (t mw : Z) (ua : string) :
  only_request_errors w ->
  completes_all w ->
  0 < mw ->
  is_urlset w (__init__ url t mw ua) ->
  exists r self' sent,
    validate w (S fuel) (__init__ url t mw ua) = Some (Normal r, self', sent) /\
    valid_urls r + invalid_urls r = total_urls r.
Proof.
  intros Hworld Hpool Hmw (root & Hdoc & Hurlset).
  set (self := __init__ url t mw ua) in *.
  cut (run False (validate w (S fuel)) self (fun c s _ =>
         exists r,
           c = Normal r /\ valid_urls r + invalid_urls r = total_urls r)).
  { rewrite run_returns. intros (c & s & sent & E & r & -> & H).
    now exists r, s, sent. }
  rewrite validate_S. apply run_validate_call.
  unfold document_of, document_at in Hdoc.
  destruct (requests_get w (sitemap_url self) (headers self) (timeout self))
    as [e|response]; [discriminate|].
  destruct (status_code response =? 200); [|discriminate].
  destruct (ET_fromstring w (content response)) as [e|root'] eqn:Hparse;
    [discriminate|].
  injection Hdoc as ->.
  eapply run_eq;
    [exact (_parse_sitemap_urlset _ _ _ _ root Hparse Hurlset)|].
  cbv beta iota.
  set (urls := fold_left add_url (ET.findall_descendants "url" root) []).
  unfold _validate_urls. do 2 run_step.
  replace (max_workers _ <=? 0) with false
    by (symmetry; apply Z.leb_gt; exact Hmw).
  generalize (check_loop_counts w (as_completed w urls) Hworld
    (with_total (with_errors self (content_type_warning response))
       (Z.of_nat (List.length urls)))).
  apply run_mono. intros c s sent (-> & Htot & Hsum).
  exists (results s). split; [reflexivity|].
  rewrite Htot, Hsum, (Permutation_length (Hpool urls)). simpl. lia.
Qed.

(** ** Entries *)

Lemma no_location_child_loc (e : ET.Element) :
  no_location e -> child_loc e = [].
Proof.
  unfold no_location, no_text_at, child_loc, ET.has_text.
  destruct (ET.find_child "loc" e) as [loc_tag|]; [|reflexivity].
  now intros [-> | ->].
Qed.

Lemma add_url_skip (urls : list UrlData) (url : ET.Element) :
  no_location url -> add_url urls url = urls.
Proof.
  unfold no_location, no_text_at, add_url, ET.has_text.
  destruct (ET.find_child "loc" url) as [loc_tag|]; [|reflexivity].
  now intros [-> | ->].
Qed.

Lemma _get_tag_text_trimmed (element : ET.Element) (tag_path : string) :
  trimmed_field (_get_tag_text element tag_path).
Proof.
  unfold _get_tag_text.
  destruct (ET.find_child tag_path element) as [tag|]; [|exact I].
  destruct (ET.has_text tag); [apply strip_trimmed | exact I].
Qed.

Lemma add_url_trimmed (urls : list UrlData) (url : ET.Element) :
  Forall trimmed_entry urls -> Forall trimmed_entry (add_url urls url).
Proof.
  intros H. unfold add_url.
  destruct (ET.find_child "loc" url) as [loc_tag|]; [|exact H].
  destruct (ET.has_text loc_tag); [|exact H].
  apply Forall_app. split; [exact H|]. constructor; [|constructor].
  unfold trimmed_entry. simpl. split; [apply strip_trimmed|].
  split; [|split]; apply _get_tag_text_trimmed.
Qed.

Lemma fold_add_url_trimmed (url_tags : list ET.Element) :
  forall urls,
    Forall trimmed_entry urls ->
    Forall trimmed_entry (fold_left add_url url_tags urls).
Proof.
  induction url_tags as [|url tags IH]; intros urls H; simpl; [exact H|].
  apply IH, add_url_trimmed, H.
Qed.

Lemma fold_add_url_skip_all (url_tags : list ET.Element) :
  Forall no_location url_tags ->
  forall urls, fold_left add_url url_tags urls = urls.
Proof.
  induction 1 as [|url tags Hurl _ IH]; intros urls; simpl; [reflexivity|].
  now rewrite add_url_skip, IH.
Qed.

Lemma for_each_skip (rec : Py Results) (before : list ET.Element)
  (sitemap : ET.Element) (after : list ET.Element) :
  no_location sitemap ->
  forall self,
    for_each (before ++ sitemap :: after) (visit_sitemap rec) self
    = for_each (before ++ after) (visit_sitemap rec) self.
Proof.
  intros Hskip. apply no_location_child_loc in Hskip.
  induction before as [|x before IH]; intros self; simpl.
  - rewrite (bind_normal _ _ _ _ _ _ (visit_sitemap_skip rec _ self Hskip)).
    now destruct (for_each after (visit_sitemap rec) self) as [[[c s] t]|].
  - unfold bind.
    destruct (visit_sitemap rec x self) as [[[[[]|e] s] t]|];
      [|reflexivity|reflexivity].
    now rewrite IH.
Qed.

Lemma for_each_skip_all (rec : Py Results) (tags : list ET.Element) :
  Forall no_location tags ->
  forall self,
    for_each tags (visit_sitemap rec) self = Some (Normal tt, self, []).
Proof.
  induction 1 as [|tag tags Htag _ IH]; intros self; simpl; [reflexivity|].
  apply no_location_child_loc in Htag.
  rewrite (bind_normal _ _ _ _ _ _ (visit_sitemap_skip rec _ self Htag)).
  now rewrite IH.
Qed.

Lemma has_location_false (e : ET.Element) :
  has_location e = false <-> no_location e.
Proof.
  unfold has_location, no_location, no_text_at, ET.has_text.
  destruct (ET.find_child "loc" e) as [loc_tag|]; [|tauto].
  destruct (ET.text loc_tag) as [[|c s]|]; simpl; split; auto;
    [discriminate | intros [H | H]; discriminate H].
Qed.

Lemma _get_tag_text_field (element : ET.Element) (tag_path : string) :
  field_of element tag_path (_get_tag_text element tag_path).
Proof.
  unfold _get_tag_text, ET.has_text, ET.text_of.
  destruct (ET.find_child tag_path element) as [tag|] eqn:Hfind.
  - destruct (ET.text tag) as [[|c s]|] eqn:Htext; simpl.
    + unfold no_text_at. rewrite Hfind. now right.
    + exists (String c s). split; [|reflexivity].
      exists tag. split; [exact Hfind|]. split; [exact Htext | discriminate].
    + unfold no_text_at. rewrite Hfind. now left.
  - simpl. unfold no_text_at. now rewrite Hfind.
Qed.

(** A [<url>] with a location gives one entry, read from it. *)
Lemma add_url_entry (urls : list UrlData) (url : ET.Element) :
  has_location url = true ->
  exists u, add_url urls url = (urls ++ [u])%list /\ entry_of url u.
Proof.
  unfold has_location, add_url.
  destruct (ET.find_child "loc" url) as [loc_tag|] eqn:Hfind; [|discriminate].
  intros Htext. rewrite Htext. eexists. split; [reflexivity|].
  split; [|repeat split; apply _get_tag_text_field].
  cbn [loc field_of]. unfold ET.has_text, ET.text_of in *.
  destruct (ET.text loc_tag) as [[|c s]|] eqn:Ht; try discriminate.
  exists (String c s). split; [|reflexivity].
  exists loc_tag. split; [exact Hfind|]. split; [exact Ht | discriminate].
Qed.

Lemma add_url_none (urls : list UrlData) (url : ET.Element) :
  has_location url = false -> add_url urls url = urls.
Proof. intros H. now apply add_url_skip, has_location_false. Qed.

(** The entries of a urlset are those of its [<url>] elements that have a
    location, in document order. *)
Lemma fold_add_url_entries (url_tags : list ET.Element) :
  forall urls,
    exists more,
      fold_left add_url url_tags urls = (urls ++ more)%list /\
      Forall2 entry_of (filter has_location url_tags) more.
Proof.
  induction url_tags as [|url tags IH]; intros urls; simpl.
  - exists []. now rewrite app_nil_r.
  - destruct (has_location url) eqn:Hloc.
    + destruct (add_url_entry urls url Hloc) as (u & -> & Hu).
      destruct (IH (urls ++ [u])%list) as (more & -> & Hmore).
      exists (u :: more). rewrite <- app_assoc. split; [reflexivity|].
      now constructor.
    + rewrite (add_url_none urls url Hloc). apply IH.
Qed.

(** C9.  The entries that [_parse_sitemap] produces for a urlset are, in
    document order, those of the [<url>] elements whose first [<loc>] has a
    text that is not empty, one for each.  Each field of an entry is the
    stripped text of the first child of that name, and is absent where that
    child is missing or has no text or an empty one.  Stripping takes white
    space off the two ends and nothing else: what is left neither starts
    nor ends with a white-space character.  A [<url>] whose [<loc>] has no
    text or an empty text adds no entry: the list of entries is the one of
    the document without that element.  A [<sitemap>] whose [<loc>] has no
    text or an empty text is passed over in the same way, without a call of
    [validate] and without a request. *)
Theorem empty_loc_skipped_fields_trimmed :
  (forall w rec body self root,
      ET_fromstring w body = inr root ->
      ET.findall_descendants "sitemap" root = [] ->
      exists urls,
        _parse_sitemap w rec body self = Some (Normal urls, self, []) /\
        Forall2 entry_of
          (filter has_location (ET.findall_descendants "url" root)) urls /\
        Forall trimmed_entry urls /\
        (Forall no_location (ET.findall_descendants "url" root) ->
         urls = [])) /\
  (forall s, trim_of s (Str.strip s)) /\
  (forall e, has_location e = false <-> no_location e) /\
  (forall before url after urls,
      no_location url ->
      fold_left add_url (before ++ url :: after) urls
      = fold_left add_url (before ++ after) urls) /\
  (forall rec before sitemap after self,
      no_location sitemap ->
      for_each (before ++ sitemap :: after) (visit_sitemap rec) self
      = for_each (before ++ after) (visit_sitemap rec) self) /\
  (forall w rec body self root,
      ET_fromstring w body = inr root ->
      ET.findall_descendants "sitemap" root <> [] ->
      Forall no_location (ET.findall_descendants "sitemap" root) ->
      _parse_sitemap w rec body self = Some (Normal [], self, [])).
Proof.
  split; [|split; [|split; [|split; [|split]]]].
  - intros w rec body self root Hparse Hurlset.
    eexists. split; [exact (_parse_sitemap_urlset _ _ _ _ _ Hparse Hurlset)|].
    split; [|split].
    + destruct (fold_add_url_entries (ET.findall_descendants "url" root) [])
        as (more & -> & Hmore). exact Hmore.
    + apply fold_add_url_trimmed. constructor.
    + intros Hall. now apply fold_add_url_skip_all.
  - intros s. split; [apply strip_trimmed | apply strip_split].
  - apply has_location_false.
  - intros before url after urls Hskip.
    rewrite !fold_left_app. simpl. now rewrite add_url_skip.
  - intros rec before sitemap after self Hskip. now apply for_each_skip.
  - intros w rec body self root Hparse Hindex Hall.
    unfold _parse_sitemap. unfold bind at 1. rewrite Hparse. cbn [call ret].
    destruct (ET.findall_descendants "sitemap" root) as [|tag tags];
      [congruence|].
    now rewrite (bind_normal _ _ _ _ _ _ (for_each_skip_all rec _ Hall self)).
Qed.

(** ** The small web *)

Lemma demo_completes_all : completes_all Demo.world.
Proof. intros urls. apply Permutation_refl. Defined.

Lemma demo_ranked : ranked Demo.world Demo.rank.
Proof.
  intros url h t child. unfold children_at, document_at.
  cbn [requests_get ET_fromstring Demo.world]. unfold Demo.get.
  repeat
    match goal with
    | |- context [String.eqb url ?s] =>
        destruct (String.eqb_spec url s) as [-> | _]
    end;
    intros Hin; vm_compute in Hin; try contradiction.
  - destruct Hin as [<- | [<- | []]]; vm_compute; repeat constructor.
  - destruct Hin as [<- | []]; vm_compute; repeat constructor.
Qed.

(** The index of the small web: two urlsets of two URLs each. *)
Lemma index_of_urlsets_merges_children_witness :
  exists r self' sent,
    validate Demo.world 2 (Demo.validator "https://example.com/sitemap.xml")
    = Some (Normal r, self', sent) /\
    valid_urls r + invalid_urls r = 4 /\
    errors r = ["Failed to connect to https://example.com/2: timed out";
                "Invalid URL structure: not-a-url"].
Proof.
  destruct (index_of_urlsets_merges_children Demo.world 0
              "https://example.com/sitemap.xml" 10 5 "MyBot/2.0"
              (mkResponse 200 Demo.xml_headers "index") Demo.index_doc)
    as (outs & ms & r & s & Hruns & _ & _ & Hv & _ & _ & Hsum & Herr).
  - exact demo_completes_all.
  - lia.
  - reflexivity.
  - reflexivity.
  - reflexivity.
  - vm_compute. discriminate.
  - vm_compute child_locs.
    repeat constructor; eexists; split; vm_compute; reflexivity.
  - vm_compute in Hruns. injection Hruns as <-.
    exists r, s. eexists. split; [exact Hv|].
    split; [rewrite Hsum | rewrite Herr]; reflexivity.
Defined.

(** The urlset a.xml of the small web lists two locations. *)
Lemma total_urls_counts_locations_witness :
  exists r self' sent,
    validate Demo.world 1 (Demo.validator "https://example.com/a.xml")
    = Some (Normal r, self', sent) /\
    total_urls r = 2.
Proof.
  destruct (total_urls_counts_locations Demo.world 0
              (Demo.validator "https://example.com/a.xml")
              (mkResponse 200 Demo.xml_headers "a") Demo.a_doc)
    as (r & s & t & E & H & _).
  - reflexivity.
  - reflexivity.
  - reflexivity.
  - reflexivity.
  - exists r, s, t. split; [exact E|]. rewrite H. reflexivity.
Defined.

(** A URL that answers HEAD with 404 and GET with 200 is valid. *)
Lemma head_falls_back_to_get_witness :
  exists self',
    _check_url Demo.world (Demo.entry "https://example.com/3")
      (Demo.validator "https://example.com/b.xml")
    = Some (Normal tt, self',
            [mkRequest HEAD "https://example.com/3"
               [("User-Agent", "MyBot/2.0")] 10;
             mkRequest GET "https://example.com/3"
               [("User-Agent", "MyBot/2.0")] 10]) /\
    _all_processed_urls self'
    = [mkUrlResult (Demo.entry "https://example.com/3") true] /\
    valid_urls (results self') = 1 /\ invalid_urls (results self') = 0.
Proof.
  destruct (head_falls_back_to_get Demo.world
              (Demo.entry "https://example.com/3")
              (Demo.validator "https://example.com/b.xml")
              (mkParseResult "https" "example.com")
              (mkResponse 404 Demo.html_headers EmptyString)
              (mkResponse 200 Demo.html_headers "<html></html>"))
    as (_ & s & E & Hp & Hr).
  - reflexivity.
  - discriminate.
  - discriminate.
  - reflexivity.
  - simpl. tauto.
  - reflexivity.
  - exists s. split; [exact E|]. split; [exact Hp|].
    rewrite Hr. split; reflexivity.
Defined.

(** The location not-a-url is rejected without a request. *)
Lemma structural_rejection_witness :
  exists self',
    _check_url Demo.world (Demo.entry "not-a-url")
      (Demo.validator "https://example.com/b.xml")
    = Some (Normal tt, self', []) /\
    invalid_urls (results self') = 1 /\
    errors (results self') = ["Invalid URL structure: not-a-url"].
Proof.
  destruct (structural_rejection Demo.world (Demo.entry "not-a-url")
              (Demo.validator "https://example.com/b.xml")
              (mkParseResult EmptyString EmptyString))
    as (s & E & _ & Hr & _).
  - reflexivity.
  - left. reflexivity.
  - exists s. split; [exact E|]. rewrite Hr. split; reflexivity.
Defined.

(** A HEAD that times out makes the URL invalid. *)
Lemma check_url_outcomes_witness :
  exists self',
    _check_url Demo.world (Demo.entry "https://example.com/2")
      (Demo.validator "https://example.com/a.xml")
    = Some (Normal tt, self',
            [mkRequest HEAD "https://example.com/2"
               [("User-Agent", "MyBot/2.0")] 10]) /\
    invalid_urls (results self') = 1 /\
    errors (results self')
    = ["Failed to connect to https://example.com/2: timed out"].
Proof.
  destruct (proj1 (proj2 (check_url_outcomes Demo.world
              (Demo.entry "https://example.com/2")
              (Demo.validator "https://example.com/a.xml")))
              (mkParseResult "https" "example.com") "timed out")
    as (s & E & _ & Hr).
  - reflexivity.
  - discriminate.
  - discriminate.
  - reflexivity.
  - exists s. split; [exact E|]. rewrite Hr. split; reflexivity.
Defined.

(** C6, against the claim as it is stated: the check of a location that
    [urlparse] refuses raises, counts nothing and records nothing. *)
Lemma check_url_raises :
  _check_url Demo.world (Demo.entry "http://[bad")
    (Demo.validator "https://example.com/d.xml")
  = Some (Raised (ValueError "Invalid IPv6 URL"),
          Demo.validator "https://example.com/d.xml", []).
Proof. vm_compute. reflexivity. Qed.

(** A body that is not XML, served as text/html. *)
Lemma malformed_xml_report_witness :
  exists self' sent,
    validate Demo.world 1 (Demo.validator "https://example.com/broken.xml")
    = Some (Normal
              {| valid_urls := 0; invalid_urls := 0; total_urls := 0;
                 errors :=
                   ["Sitemap is not XML (Content-Type: text/html)";
                    "Validation failed: unclosed token: line 1, column 0"] |},
            self', sent).
Proof.
  eexists _, _.
  apply (malformed_xml_report Demo.world 0 "https://example.com/broken.xml"
           10 5 "MyBot/2.0" (mkResponse 200 Demo.html_headers "<html")
           (ParseError "unclosed token: line 1, column 0"));
    reflexivity.
Defined.

(** C7, against the claim as it is stated: a body that is not XML, served
    as text/html, gives a report with two error strings. *)
Lemma malformed_xml_two_errors :
  ET_fromstring Demo.world "<html"
  = inl (ParseError "unclosed token: line 1, column 0") /\
  exists r,
    Demo.report 1 "https://example.com/broken.xml" = Some r /\
    List.length (errors r) = 2%nat.
Proof.
  split; [reflexivity|]. eexists. split; [vm_compute; reflexivity|].
  reflexivity.
Qed.

(** A sitemap that answers 404, one whose host refuses the connection, and
    an index that lists itself, validated with room for two nested calls. *)
Lemma validate_always_returns_witness :
  Demo.report 1 "https://example.com/nothing.xml"
  = Some {| valid_urls := 0; invalid_urls := 0; total_urls := 0;
            errors := ["Failed to fetch sitemap (HTTP 404)"] |} /\
  Demo.report 1 "https://down.example/sitemap.xml"
  = Some {| valid_urls := 0; invalid_urls := 0; total_urls := 0;
            errors := ["Validation failed: connection refused"] |} /\
  exists self' sent,
    validate Demo2.loop_world 2
      (Demo.validator "https://example.com/loop.xml")
    = Some (Normal (results self'), self', sent) /\
    results self'
    = {| valid_urls := 0; invalid_urls := 0; total_urls := 0;
         errors :=
           ["Validation failed: maximum recursion depth exceeded"] |} /\
    List.length sent = 3%nat.
Proof.
  split; [|split].
  - destruct (validate_always_returns Demo.world) as (_ & _ & H404 & _).
    pose proof (H404 1%nat "https://example.com/nothing.xml" 10 5 "MyBot/2.0"
                  (mkResponse 404 Demo.html_headers "not found")
                  eq_refl ltac:(discriminate)) as H.
    cbv zeta in H. unfold Demo.report.
    change (Demo.validator "https://example.com/nothing.xml")
      with (__init__ "https://example.com/nothing.xml" 10 5 "MyBot/2.0").
    rewrite H. reflexivity.
  - destruct (validate_always_returns Demo.world) as (_ & _ & _ & Hdown).
    pose proof (Hdown 1%nat "https://down.example/sitemap.xml" 10 5
                  "MyBot/2.0" (RequestException "connection refused")
                  eq_refl) as H.
    cbv zeta in H. unfold Demo.report.
    change (Demo.validator "https://down.example/sitemap.xml")
      with (__init__ "https://down.example/sitemap.xml" 10 5 "MyBot/2.0").
    rewrite H. reflexivity.
  - destruct (validate_always_returns Demo2.loop_world) as (Hret & _).
    destruct (Hret 2%nat (Demo.validator "https://example.com/loop.xml"))
      as (s & sent & E).
    exists s, sent. split; [exact E|].
    vm_compute in E. injection E as _ <- <-. split; reflexivity.
Defined.

(** A urlset of four [<url>] elements, of which the second has an empty
    [<loc>] and the third has none: two entries, with their fields
    stripped. *)
Lemma empty_loc_skipped_fields_trimmed_witness :
  _parse_sitemap Demo2.fields_world (raise RecursionError) "fields"
    (Demo.validator "https://example.com/fields.xml")
  = Some (Normal
            [ {| loc := "https://example.com/1";
                 lastmod := Some "2024-05-01";
                 changefreq := Some "daily";
                 priority := None |};
              {| loc := "https://example.com/2";
                 lastmod := None;
                 changefreq := None;
                 priority := Some "0.8" |} ],
          Demo.validator "https://example.com/fields.xml", []).
Proof.
  destruct (proj1 empty_loc_skipped_fields_trimmed Demo2.fields_world
              (raise RecursionError) "fields"
              (Demo.validator "https://example.com/fields.xml")
              Demo2.fields_doc)
    as (urls & E & _).
  - reflexivity.
  - reflexivity.
  - rewrite E. vm_compute in E. injection E as <-. reflexivity.
Defined.

(** The run on the index of the small web, configured as MyBot/2.0: the
    fetch of the index, then the runs of a.xml and of b.xml. *)
Lemma children_send_default_user_agent_witness :
  exists r self',
    let bot := [("User-Agent", "MyBot/2.0")] in
    let default := [("User-Agent", "SitemapValidator/1.0")] in
    validate Demo.world 1 (Demo.validator "https://example.com/sitemap.xml")
    = Some (Normal r, self',
            [mkRequest GET "https://example.com/sitemap.xml" bot 10;
             mkRequest GET "https://example.com/a.xml" default 10;
             mkRequest HEAD "https://example.com/1" default 10;
             mkRequest HEAD "https://example.com/2" default 10;
             mkRequest GET "https://example.com/b.xml" default 10;
             mkRequest HEAD "https://example.com/3" default 10;
             mkRequest GET "https://example.com/3" default 10]).
Proof.
  destruct (proj2 (children_send_default_user_agent Demo.world
                     "https://example.com/sitemap.xml" 10 5 "MyBot/2.0"
                     demo_completes_all) 0%nat Demo.index_doc)
    as (outs & r & self' & Hall & E).
  - reflexivity.
  - vm_compute. discriminate.
  - exists r, self'. cbv zeta. vm_compute child_locs in Hall.
    inversion Hall as [|l1 o1 ls1 os1 (c1 & b1 & E1 & _) Hall1]; subst.
    inversion Hall1 as [|l2 o2 ls2 os2 (c2 & b2 & E2 & _) Hall2]; subst.
    inversion Hall2; subst.
    destruct o1 as [r1 t1], o2 as [r2 t2]. cbn [fst snd] in E1, E2.
    vm_compute in E1. injection E1 as _ _ <-.
    vm_compute in E2. injection E2 as _ _ <-.
    exact E.
Defined.

(** * More properties *)

(** ** Submission to the Indexing API *)

Lemma collect_valid (l : list UrlResult) :
  forall acc,
    fold_left
      (fun valid_urls url_data =>
         if is_valid url_data then (valid_urls ++ [url_data])%list
         else valid_urls) l acc
    = (acc ++ filter is_valid l)%list.
Proof.
  induction l as [|r l IH]; intros acc; simpl.
  - now rewrite app_nil_r.
  - rewrite IH. destruct (is_valid r); [|reflexivity].
    now rewrite <- app_assoc.
Qed.

Lemma _get_valid_urls_filter (self : SitemapValidator) :
  Indexing._get_valid_urls self = recorded_valid self.
Proof. unfold Indexing._get_valid_urls. now rewrite collect_valid. Qed.

Lemma collect_locations (l : list UrlResult) :
  forall acc,
    fold_left (fun urls url_data =>
                 (urls ++ [loc (url_data_of url_data)])%list) l acc
    = (acc ++ map (fun r => loc (url_data_of r)) l)%list.
Proof.
  induction l as [|r l IH]; intros acc; simpl.
  - now rewrite app_nil_r.
  - rewrite IH. now rewrite <- app_assoc.
Qed.

Lemma skipn_past {A : Type} (l : list A) (n : nat) :
  (List.length l <= n)%nat -> skipn n l = [].
Proof.
  revert n. induction l as [|x l IH]; intros [|n]; simpl; intros H;
    try reflexivity; try lia.
  apply IH. lia.
Qed.

Lemma skipn_add {A : Type} (l : list A) :
  forall m n, skipn m (skipn n l) = skipn (n + m) l.
Proof.
  induction l as [|x l IH]; intros m [|n]; simpl.
  - now destruct m.
  - now destruct m.
  - reflexivity.
  - apply IH.
Qed.

(** The slices that start at [i], [i + b], ... make up the list from [i]
    on. *)
Lemma slices_from {A : Type} (l : list A) (b : Z) :
  0 < b ->
  forall fuel i,
    0 <= i ->
    (Z.to_nat (Z.of_nat (List.length l) - i) <= fuel)%nat ->
    List.concat
      (map (fun j => Indexing.slice l j (j + b))
         (Indexing.range_up fuel i (Z.of_nat (List.length l)) b))
    = skipn (Z.to_nat i) l.
Proof.
  intros Hb. induction fuel as [|fuel IH]; intros i Hi Hfuel; simpl.
  - symmetry. apply skipn_past. lia.
  - destruct (i <? Z.of_nat (List.length l)) eqn:Hlt.
    + simpl. rewrite IH by lia. unfold Indexing.slice.
      replace (i + b - i) with b by lia.
      replace (Z.to_nat (i + b)) with (Z.to_nat i + Z.to_nat b)%nat by lia.
      rewrite <- skipn_add. apply firstn_skipn.
    + apply Z.ltb_ge in Hlt. symmetry. apply skipn_past. lia.
Qed.

Lemma submit_batch_app (g : Indexing.Google) (service : Indexing.Service)
  (l1 l2 : list string) :
  forall tally,
    Indexing.submit_batch g service (l1 ++ l2) tally
    = match Indexing.submit_batch g service l1 tally with
      | (inl e, published) => (inl e, published)
      | (inr tally', published) =>
          let (r, published') := Indexing.submit_batch g service l2 tally' in
          (r, (published ++ published')%list)
      end.
Proof.
  induction l1 as [|url l1 IH]; intros tally; simpl.
  - now destruct (Indexing.submit_batch g service l2 tally).
  - destruct (Indexing.submit_url g service tally url) as [e|tally'];
      [reflexivity|].
    rewrite IH.
    destruct (Indexing.submit_batch g service l1 tally') as [[e|t1] p1];
      [reflexivity|].
    now destruct (Indexing.submit_batch g service l2 t1).
Qed.

Lemma submit_batches_concat (g : Indexing.Google)
  (service : Indexing.Service) (batches : list (list string)) :
  forall tally,
    Indexing.submit_batches g service batches tally
    = Indexing.submit_batch g service (List.concat batches) tally.
Proof.
  induction batches as [|batch batches IH]; intros tally; simpl;
    [reflexivity|].
  rewrite submit_batch_app.
  destruct (Indexing.submit_batch g service batch tally) as [[e|t1] p1];
    [reflexivity|].
  now rewrite IH.
Qed.

(** With a positive batch size the batches are the list, cut up. *)
Lemma batches_make_up_the_list (l : list string) (b : Z) :
  0 < b ->
  exists starts,
    Indexing.range 0 (Z.of_nat (List.length l)) b = inr starts /\
    List.concat (map (fun i => Indexing.slice l i (i + b)) starts) = l.
Proof.
  intros Hb. unfold Indexing.range.
  replace (b =? 0) with false by (symmetry; apply Z.eqb_neq; lia).
  replace (0 <? b) with true by (symmetry; apply Z.ltb_lt; lia).
  eexists. split; [reflexivity|].
  rewrite slices_from by lia. reflexivity.
Qed.

(** What [submit_to_google_indexing] does once the service is built and the
    batch size is positive. *)
Lemma submit_with_service (g : Indexing.Google) (self : SitemapValidator)
  (file : string) (b : Z) (credentials : Indexing.Credentials)
  (service : Indexing.Service) :
  Indexing.from_service_account_file g file
    ["https://www.googleapis.com/auth/indexing"] = inr credentials ->
  Indexing.build g "indexing" "v3" credentials = inr service ->
  0 < b ->
  Indexing.submit_to_google_indexing g self file b
  = match Indexing.submit_batch g service (valid_locations self)
            (Indexing.mkTally 0 0 []) with
    | (inl e, published) => (Indexing.process_failed e, published)
    | (inr tally, published) =>
        ({| Indexing.total_submitted :=
              Z.of_nat (List.length (valid_locations self));
            Indexing.successful := Indexing.tally_successful tally;
            Indexing.failed := Indexing.tally_failed tally;
            Indexing.errors := Indexing.tally_errors tally |}, published)
    end.
Proof.
  intros Hcred Hbuild Hb. unfold Indexing.submit_to_google_indexing.
  rewrite Hcred, Hbuild, collect_locations, _get_valid_urls_filter.
  cbn [app]. fold (valid_locations self).
  destruct (batches_make_up_the_list (valid_locations self) b Hb)
    as (starts & -> & Hcat).
  now rewrite submit_batches_concat, Hcat.
Qed.

(** X13.  The batch size, when positive, changes neither what is
    published, nor in which order, nor what is returned. *)
Theorem batch_size_is_immaterial (g : Indexing.Google)
  (self : SitemapValidator) (file : string) (b1 b2 : Z) :
  0 < b1 -> 0 < b2 ->
  Indexing.submit_to_google_indexing g self file b1
  = Indexing.submit_to_google_indexing g self file b2.
Proof.
  intros H1 H2.
  destruct (Indexing.from_service_account_file g file
              ["https://www.googleapis.com/auth/indexing"])
    as [e|credentials] eqn:Hcred.
  { unfold Indexing.submit_to_google_indexing. now rewrite Hcred. }
  destruct (Indexing.build g "indexing" "v3" credentials)
    as [e|service] eqn:Hbuild.
  { unfold Indexing.submit_to_google_indexing. now rewrite Hcred, Hbuild. }
  now rewrite !(submit_with_service g self file _ credentials service).
Qed.

Lemma answers_submit_url (g : Indexing.Google) (service : Indexing.Service)
  (tally : Indexing.Tally) (url : string) :
  answers g service url ->
  exists tally',
    Indexing.submit_url g service tally url = inr tally' /\
    Indexing.tally_successful tally' + Indexing.tally_failed tally'
    = Indexing.tally_successful tally + Indexing.tally_failed tally + 1 /\
    Z.of_nat (List.length (Indexing.tally_errors tally'))
    - Indexing.tally_failed tally'
    = Z.of_nat (List.length (Indexing.tally_errors tally))
      - Indexing.tally_failed tally /\
    Indexing.tally_successful tally <= Indexing.tally_successful tally' /\
    Indexing.tally_failed tally <= Indexing.tally_failed tally'.
Proof.
  unfold answers, Indexing.submit_url.
  destruct (Indexing.execute_publish g service (Indexing.body_of url))
    as [result|content str_e|e]; [| |contradiction].
  - intros _. destruct (Indexing.has_key "urlNotificationMetadata" result);
      eexists; (split; [reflexivity|]); cbn [Indexing.tally_successful
        Indexing.tally_failed Indexing.tally_errors];
      rewrite ?length_app; simpl; lia.
  - intros (text & fields & Hdecode & Hloads & Herror).
    unfold Indexing.on_http_error. rewrite Hdecode, Hloads.
    cbn [Indexing.get].
    destruct (Indexing.lookup "error" fields) as [[]|]; try contradiction;
      cbn [Indexing.get]; eexists; (split; [reflexivity|]);
      cbn [Indexing.tally_successful Indexing.tally_failed
           Indexing.tally_errors];
      rewrite length_app; simpl; lia.
Qed.

Lemma submit_batch_answers (g : Indexing.Google) (service : Indexing.Service)
  (urls : list string) :
  Forall (answers g service) urls ->
  forall tally,
    exists tally',
      Indexing.submit_batch g service urls tally
      = (inr tally', map Indexing.body_of urls) /\
      Indexing.tally_successful tally' + Indexing.tally_failed tally'
      = Indexing.tally_successful tally + Indexing.tally_failed tally
        + Z.of_nat (List.length urls) /\
      Z.of_nat (List.length (Indexing.tally_errors tally'))
      - Indexing.tally_failed tally'
      = Z.of_nat (List.length (Indexing.tally_errors tally))
        - Indexing.tally_failed tally /\
      Indexing.tally_successful tally <= Indexing.tally_successful tally' /\
      Indexing.tally_failed tally <= Indexing.tally_failed tally'.
Proof.
  induction 1 as [|url urls Hurl _ IH]; intros tally.
  - exists tally. simpl. repeat split; lia.
  - destruct (answers_submit_url g service tally url Hurl)
      as (t1 & E1 & Hsum1 & Herr1 & Hs1 & Hf1).
    destruct (IH t1) as (t2 & E2 & Hsum2 & Herr2 & Hs2 & Hf2).
    exists t2. cbn [Indexing.submit_batch]. rewrite E1, E2.
    split; [reflexivity|]. cbn [List.length]. repeat split; lia.
Qed.

(** X14.  When every publication answers, each valid URL is published
    once, in the order in which it was recorded; [total_submitted] is their
    number, [successful + failed] equals it, and there is one error string
    for each failure. *)
Theorem submission_accounts_for_every_url (g : Indexing.Google)
  (self : SitemapValidator) (file : string) (b : Z)
  (credentials : Indexing.Credentials) (service : Indexing.Service) :
  Indexing.from_service_account_file g file
    ["https://www.googleapis.com/auth/indexing"] = inr credentials ->
  Indexing.build g "indexing" "v3" credentials = inr service ->
  0 < b ->
  Forall (answers g service) (valid_locations self) ->
  exists s,
    Indexing.submit_to_google_indexing g self file b
    = (s, map Indexing.body_of (valid_locations self)) /\
    Indexing.total_submitted s
    = Z.of_nat (List.length (valid_locations self)) /\
    Indexing.successful s + Indexing.failed s = Indexing.total_submitted s /\
    Z.of_nat (List.length (Indexing.errors s)) = Indexing.failed s /\
    0 <= Indexing.successful s /\ 0 <= Indexing.failed s.
Proof.
  intros Hcred Hbuild Hb Hall.
  rewrite (submit_with_service g self file b credentials service)
    by assumption.
  destruct (submit_batch_answers g service _ Hall (Indexing.mkTally 0 0 []))
    as (t & -> & Hsum & Herr & Hs & Hf).
  eexists. split; [reflexivity|]. simpl in *. repeat split; lia.
Qed.

Lemma range_down_empty (fuel : nat) (stop step : Z) :
  0 <= stop -> Indexing.range_down fuel 0 stop step = [].
Proof.
  intros H. destruct fuel; simpl; [reflexivity|].
  now replace (stop <? 0) with false by (symmetry; apply Z.ltb_ge; lia).
Qed.

(** X15.  A batch size that is not positive publishes nothing.  With zero,
    [range] raises and the failure dictionary is returned.  With a negative
    size the loop has no iteration, and the dictionary still reports every
    valid URL as submitted, with no success, no failure and no error. *)
Theorem nonpositive_batch_size_publishes_nothing (g : Indexing.Google)
  (self : SitemapValidator) (file : string) (b : Z)
  (credentials : Indexing.Credentials) (service : Indexing.Service) :
  Indexing.from_service_account_file g file
    ["https://www.googleapis.com/auth/indexing"] = inr credentials ->
  Indexing.build g "indexing" "v3" credentials = inr service ->
  b <= 0 ->
  Indexing.submit_to_google_indexing g self file b
  = (if b =? 0 then
       {| Indexing.total_submitted := 0; Indexing.successful := 0;
          Indexing.failed := 0;
          Indexing.errors :=
            ["Submission process failed: range() arg 3 must not be zero"] |}
     else
       {| Indexing.total_submitted :=
            Z.of_nat (List.length (valid_locations self));
          Indexing.successful := 0; Indexing.failed := 0;
          Indexing.errors := [] |},
     []).
Proof.
  intros Hcred Hbuild Hb. unfold Indexing.submit_to_google_indexing.
  rewrite Hcred, Hbuild, collect_locations, _get_valid_urls_filter.
  cbn [app]. fold (valid_locations self). unfold Indexing.range.
  destruct (b =? 0) eqn:Hzero; [reflexivity|].
  apply Z.eqb_neq in Hzero.
  replace (0 <? b) with false by (symmetry; apply Z.ltb_ge; lia).
  rewrite range_down_empty by lia. reflexivity.
Qed.

(** X18.  The reason recorded for an [HttpError] whose content is a JSON
    object: the ["message"] of its ["error"] object; [str(e)] where
    ["error"] or ["message"] is missing.  Where ["error"] is there and is no
    object, the handler itself raises, and the URL leaves the loop with that
    exception. *)
Theorem http_error_reason (g : Indexing.Google) (service : Indexing.Service)
  (tally : Indexing.Tally) (url content str_e text : string)
  (fields : Indexing.dict) :
  Indexing.execute_publish g service (Indexing.body_of url)
  = Indexing.HttpError content str_e ->
  Indexing.decode g content = inr text ->
  Indexing.json_loads g text = inr (Indexing.JObject fields) ->
  let recorded reason :=
    inr {| Indexing.tally_successful := Indexing.tally_successful tally;
           Indexing.tally_failed := Indexing.tally_failed tally + 1;
           Indexing.tally_errors :=
             Indexing.tally_errors tally
             ++ ["Failed to submit " ++ url ++ ": " ++ reason] |} in
  Indexing.submit_url g service tally url
  = match Indexing.lookup "error" fields with
    | None => recorded str_e
    | Some (Indexing.JObject error) =>
        match Indexing.lookup "message" error with
        | None => recorded str_e
        | Some message => recorded (Indexing.format g message)
        end
    | Some v =>
        inl (OtherException
               ("'" ++ Indexing.type_name v
                ++ "' object has no attribute 'get'"))
    end.
Proof.
  intros Hpublish Hdecode Hloads recorded.
  unfold Indexing.submit_url, Indexing.on_http_error.
  rewrite Hpublish, Hdecode, Hloads. cbn [Indexing.get].
  destruct (Indexing.lookup "error" fields) as [[| | | | | |error]|];
    cbn [Indexing.get Indexing.lookup]; try reflexivity.
  now destruct (Indexing.lookup "message" error).
Qed.

(** X16.  When a publication raises something else than an [HttpError],
    or fails with an [HttpError] whose content is not JSON, the submission
    stops there: the URLs up to that one have been published, and the
    dictionary returned reports none of them. *)
Theorem aborted_submission_reports_nothing (g : Indexing.Google)
  (self : SitemapValidator) (file : string) (b : Z)
  (credentials : Indexing.Credentials) (service : Indexing.Service)
  (before after : list string) (url : string) (e : exn) :
  Indexing.from_service_account_file g file
    ["https://www.googleapis.com/auth/indexing"] = inr credentials ->
  Indexing.build g "indexing" "v3" credentials = inr service ->
  0 < b ->
  valid_locations self = (before ++ url :: after)%list ->
  Forall (answers g service) before ->
  Indexing.execute_publish g service (Indexing.body_of url)
  = Indexing.Raises e \/
  (exists content str_e text,
      Indexing.execute_publish g service (Indexing.body_of url)
      = Indexing.HttpError content str_e /\
      Indexing.decode g content = inr text /\
      Indexing.json_loads g text = inl e) ->
  Indexing.submit_to_google_indexing g self file b
  = ({| Indexing.total_submitted := 0; Indexing.successful := 0;
        Indexing.failed := 0;
        Indexing.errors := ["Submission process failed: " ++ str_exn e] |},
     map Indexing.body_of (before ++ [url])).
Proof.
  intros Hcred Hbuild Hb Hurls Hbefore Hfail.
  rewrite (submit_with_service g self file b credentials service)
    by assumption.
  rewrite Hurls, submit_batch_app.
  destruct (submit_batch_answers g service _ Hbefore
              (Indexing.mkTally 0 0 [])) as (t & -> & _).
  assert (Hurl : Indexing.submit_url g service t url = inl e).
  { unfold Indexing.submit_url.
    destruct Hfail as [-> | (content & str_e & text & -> & Hd & Hl)];
      [reflexivity|].
    unfold Indexing.on_http_error. now rewrite Hd, Hl. }
  cbn [Indexing.submit_batch]. rewrite Hurl.
  now rewrite map_app.
Qed.

(** ** More on the checks *)

Lemma _check_url_requests (w : World) (u : UrlData)
  (self : SitemapValidator) :
  exists c self' sent,
    _check_url w u self = Some (c, self', sent) /\
    (sent = [] \/
     sent = [request_of HEAD self (loc u)] \/
     sent = [request_of HEAD self (loc u); request_of GET self (loc u)]).
Proof.
  unfold _check_url, try_except, bind, head, get, get_self, send.
  cbn -[append Str.of_Z forallb existsb].
  destruct (urlparse w (loc u)) as [e|parsed];
    cbn -[append Str.of_Z forallb existsb].
  - destruct e; cbn -[append Str.of_Z]; do 3 eexists;
      (split; [reflexivity|]); auto.
  - destruct (forallb Str.truthy [scheme parsed; netloc parsed]);
      cbn -[append Str.of_Z forallb existsb].
    2:{ do 3 eexists; (split; [reflexivity|]); auto. }
    destruct (requests_head w (loc u) (headers self) (timeout self) true)
      as [e|r]; cbn -[append Str.of_Z forallb existsb].
    + destruct e; cbn -[append Str.of_Z]; do 3 eexists;
        (split; [reflexivity|]); auto.
    + destruct (existsb (Z.eqb (status_code r)) [405; 404; 403]);
        cbn -[append Str.of_Z forallb existsb].
      * destruct (requests_get w (loc u) (headers self) (timeout self))
          as [e|r']; cbn -[append Str.of_Z forallb existsb].
        -- destruct e; cbn -[append Str.of_Z]; do 3 eexists;
             (split; [reflexivity|]); auto.
        -- destruct ((200 <=? status_code r') && (status_code r' <? 300));
             cbn -[append Str.of_Z]; do 3 eexists;
             (split; [reflexivity|]); auto.
      * destruct ((200 <=? status_code r) && (status_code r <? 300));
          cbn -[append Str.of_Z]; do 3 eexists;
          (split; [reflexivity|]); auto.
Qed.

(** X3.  A check contacts only the location it checks: it sends nothing,
    or a HEAD, or a HEAD followed by one GET, each with the headers and the
    timeout of the validator. *)
Theorem check_sends_head_then_get (w : World) (u : UrlData)
  (self : SitemapValidator) (c : completion unit)
  (self' : SitemapValidator) (sent : list Request) :
  _check_url w u self = Some (c, self', sent) ->
  sent = [] \/
  sent = [mkRequest HEAD (loc u) (headers self) (timeout self)] \/
  sent = [mkRequest HEAD (loc u) (headers self) (timeout self);
          mkRequest GET (loc u) (headers self) (timeout self)].
Proof.
  intros E. destruct (_check_url_requests w u self) as (c' & s' & t' & E' & H).
  rewrite E in E'. injection E' as <- <- <-. exact H.
Qed.

(** X4.  A HEAD answer other than 403, 404 and 405 is final: no GET is
    sent, and the URL is valid exactly when that status lies in
    [200,300). *)
Theorem head_answer_is_final (w : World) (u : UrlData)
  (self : SitemapValidator) (parsed : ParseResult)
  (head_response : Response) :
  urlparse w (loc u) = inr parsed ->
  scheme parsed <> EmptyString -> netloc parsed <> EmptyString ->
  requests_head w (loc u) (headers self) (timeout self) true
  = inr head_response ->
  ~ In (status_code head_response) [403; 404; 405] ->
  let status := status_code head_response in
  let ok := (200 <=? status) && (status <? 300) in
  exists self',
    _check_url w u self
    = Some (Normal tt, self', [request_of HEAD self (loc u)]) /\
    _all_processed_urls self'
    = (_all_processed_urls self ++ [mkUrlResult u ok])%list /\
    results self'
    = if ok then count_valid (results self)
      else count_invalid
             ("URL returned HTTP " ++ Str.of_Z status ++ ": " ++ loc u)
             (results self).
Proof.
  intros Hparse Hscheme Hnetloc Hhead Hnot status ok.
  assert (Hall : forallb Str.truthy [scheme parsed; netloc parsed] = true).
  { simpl. now rewrite !truthy_nonempty. }
  assert (Hfall : existsb (Z.eqb (status_code head_response)) [405; 404; 403]
                  = false).
  { simpl in *. rewrite !orb_false_r, !orb_false_iff, !Z.eqb_neq.
    repeat split; intros E; apply Hnot; rewrite E; tauto. }
  unfold _check_url, try_except, bind, head, get, get_self, send.
  rewrite Hparse. cbn -[append forallb existsb Str.of_Z].
  rewrite Hall. cbn -[append forallb existsb Str.of_Z].
  rewrite Hhead. cbn -[append forallb existsb Str.of_Z].
  rewrite Hfall. cbn -[append forallb existsb Str.of_Z].
  fold status. fold ok.
  destruct ok; cbn -[append Str.of_Z]; eexists; repeat split.
Qed.

(** ** What the pool keeps *)

Lemma recorded_valid_app (self : SitemapValidator) (l : list UrlResult)
  (r : UrlResult) :
  _all_processed_urls self = (l ++ [r])%list ->
  List.length (recorded_valid self)
  = (List.length (filter is_valid l) + if is_valid r then 1 else 0)%nat /\
  List.length (recorded_invalid self)
  = (List.length (filter (fun x => negb (is_valid x)) l)
     + if is_valid r then 0 else 1)%nat.
Proof.
  unfold recorded_valid, recorded_invalid. intros ->.
  rewrite !filter_app, !length_app. simpl.
  destruct (is_valid r); simpl; split; reflexivity.
Qed.


Lemma keeps_refl (self : SitemapValidator) : keeps self self.
Proof. repeat split. exists []. now rewrite app_nil_r. Qed.

Lemma keeps_trans (a b c : SitemapValidator) :
  keeps a b -> keeps b c -> keeps a c.
Proof.
  intros (Hv1 & Hi1 & m1 & He1) (Hv2 & Hi2 & m2 & He2).
  split; [lia|]. split; [lia|]. exists (m1 ++ m2)%list.
  now rewrite He2, He1, app_assoc.
Qed.

Lemma keeps_with_errors (self : SitemapValidator) (msgs : list string) :
  keeps self (with_errors self msgs).
Proof. repeat split. now exists msgs. Qed.

Lemma keeps_with_total (self : SitemapValidator) (n : Z) :
  keeps self (with_total self n).
Proof. repeat split. exists []. simpl. now rewrite app_nil_r. Qed.

Lemma future_result_keeps (w : World) (u : UrlData)
  (self : SitemapValidator) :
  run False (future_result w u) self (fun c s t =>
    c = Normal tt /\ keeps self s /\ (List.length t <= 2)%nat).
Proof.
  generalize (run_future_result w u self) (_check_url_spec w u self)
             (_check_url_requests w u self).
  rewrite !run_returns.
  intros (c & s & t & E & -> & H) (c' & s' & t' & E' & _ & _ & Hc)
         (c2 & s2 & t2 & E2 & Hsent).
  rewrite E' in H, E2. injection E2 as <- <- <-.
  exists (Normal tt), s, t. split; [exact E|]. split; [reflexivity|].
  assert (Hlen : (List.length t' <= 2)%nat).
  { destruct Hsent as [-> | [-> | ->]]; simpl; lia. }
  destruct c' as [[]|e].
  - destruct H as [-> ->]. split; [|exact Hlen].
    destruct Hc as (v & Hp & Hr).
    destruct (recorded_valid_app s' _ _ Hp) as [Hv Hi].
    fold (recorded_valid self) (recorded_invalid self) in *.
    unfold keeps. rewrite Hv, Hi. simpl.
    destruct v; [|destruct Hr as [msg Hr]]; rewrite Hr; simpl;
      (split; [lia|]); (split; [lia|]).
    + exists []. now rewrite app_nil_r.
    + now exists [msg].
  - destruct H as [-> ->]. split; [apply keeps_with_errors | exact Hlen].
Qed.

Lemma check_loop_keeps (w : World) (urls : list UrlData) :
  forall self,
    run False (for_each urls (future_result w)) self (fun c s t =>
      c = Normal tt /\ keeps self s /\
      (List.length t <= 2 * List.length urls)%nat).
Proof.
  induction urls as [|u urls IH]; intros self.
  - simpl. run_step. split; [reflexivity|]. split; [apply keeps_refl|].
    simpl. lia.
  - cbn [for_each]. run_step.
    generalize (future_result_keeps w u self). apply run_mono.
    intros c s t (-> & Hk & Hlen).
    generalize (IH s). apply run_mono.
    intros c' s' t' (-> & Hk' & Hlen'). split; [reflexivity|].
    split; [eapply keeps_trans; eauto|].
    rewrite length_app. simpl in *. lia.
Qed.

Lemma _validate_urls_keeps (w : World) (urls : list UrlData)
  (self : SitemapValidator) :
  run False (_validate_urls w urls) self (fun c s t =>
    keeps self s /\
    (List.length t <= 2 * List.length (as_completed w urls))%nat).
Proof.
  unfold _validate_urls. do 2 run_step.
  destruct (max_workers self <=? 0).
  - run_step. split; [apply keeps_refl|]. simpl. lia.
  - generalize (check_loop_keeps w (as_completed w urls) self).
    apply run_mono. now intros c s t (_ & Hk & Hlen).
Qed.

(** One call of [validate] on a document that is no index. *)
Lemma validate_call_no_index (w : World) (rec : Py Results)
  (self : SitemapValidator) :
  no_index w self ->
  run False (validate_call w rec) self (fun c s t =>
    c = Normal (results s) /\ keeps self s /\
    exists rest,
      t = fetch_of self :: rest /\
      (completes_all w -> is_urlset w self ->
       Z.of_nat (List.length rest) <= 2 * total_urls (results s))).
Proof.
  unfold no_index, is_urlset, document_of, document_at. intros Hdoc.
  apply run_validate_call.
  destruct (requests_get w (sitemap_url self) (headers self) (timeout self))
    as [e|response].
  { split; [reflexivity|]. split; [apply keeps_with_errors|].
    exists []. split; [reflexivity|]. now intros _ (root & [=] & _). }
  destruct (status_code response =? 200).
  2:{ cbv zeta. split; [reflexivity|]. split; [apply keeps_with_errors|].
      exists []. split; [reflexivity|]. now intros _ (root & [=] & _). }
  set (self1 := with_errors self (content_type_warning response)).
  assert (H1 : keeps self self1) by apply keeps_with_errors.
  destruct (ET_fromstring w (content response)) as [e|root] eqn:Hparse.
  - eapply run_eq; [exact (_parse_sitemap_malformed _ _ _ _ e Hparse)|].
    cbv beta iota. split; [reflexivity|].
    split; [eapply keeps_trans; [exact H1 | apply keeps_with_errors]|].
    exists []. split; [reflexivity|]. now intros _ (root & [=] & _).
  - eapply run_eq; [exact (_parse_sitemap_urlset _ _ _ _ root Hparse Hdoc)|].
    cbv beta iota.
    set (urls := fold_left add_url (ET.findall_descendants "url" root) []).
    set (self2 := with_total self1 (Z.of_nat (List.length urls))).
    assert (H2 : keeps self self2).
    { eapply keeps_trans; [exact H1 | apply keeps_with_total]. }
    generalize (_validate_urls_keeps w urls self2)
               (_validate_urls_spec w urls self2).
    unfold run.
    destruct (_validate_urls w urls self2) as [[[c s] t]|]; [|contradiction].
    intros (Hk & Hlen) (_ & _ & Htot & _).
    assert (Hbound : completes_all w ->
              Z.of_nat (List.length t) <= 2 * total_urls (results s)).
    { intros Hpool. rewrite Htot.
      change (total_urls (results self2))
        with (Z.of_nat (List.length urls)).
      rewrite (Permutation_length (Hpool urls)) in Hlen. lia. }
    destruct c as [[]|e]; (split; [reflexivity|]).
    + split; [eapply keeps_trans; eauto|].
      exists t. split; [reflexivity | intros Hpool _; exact (Hbound Hpool)].
    + split.
      * eapply keeps_trans; [|apply keeps_with_errors].
        eapply keeps_trans; eauto.
      * exists t. split; [reflexivity | intros Hpool _; exact (Hbound Hpool)].
Qed.

Lemma validate_no_index (w : World) (fuel : nat) (self : SitemapValidator) :
  no_index w self ->
  exists s rest,
    validate w (S fuel) self
    = Some (Normal (results s), s, fetch_of self :: rest) /\
    keeps self s /\
    (completes_all w -> is_urlset w self ->
     Z.of_nat (List.length rest) <= 2 * total_urls (results s)).
Proof.
  intros Hdoc.
  generalize (validate_call_no_index w (validate w fuel) self Hdoc).
  rewrite run_returns. intros (c & s & t & E & -> & Hk & rest & -> & H).
  now exists s, rest.
Qed.

(** X10.  After [validate] on a document that is no index, the counters
    agree with the recorded entries: [valid_urls] is the number of entries
    [_get_valid_urls] returns, [invalid_urls] the number of entries recorded
    as not valid. *)
Theorem counters_agree_with_recorded_entries (w : World) (fuel : nat)
  (url : string) (t mw : Z) (ua : string) :
  no_index w (__init__ url t mw ua) ->
  exists r self' sent,
    validate w (S fuel) (__init__ url t mw ua)
    = Some (Normal r, self', sent) /\
    valid_urls r = Z.of_nat (List.length (Indexing._get_valid_urls self')) /\
    invalid_urls r = Z.of_nat (List.length (recorded_invalid self')) /\
    valid_urls r + invalid_urls r
    = Z.of_nat (List.length (_all_processed_urls self')).
Proof.
  intros Hdoc.
  destruct (validate_no_index w fuel _ Hdoc)
    as (s & rest & E & (Hv & Hi & _) & _).
  exists (results s), s. eexists. split; [exact E|].
  rewrite _get_valid_urls_filter. simpl in Hv, Hi.
  split; [lia|]. split; [lia|].
  assert (Hsplit : forall l : list UrlResult,
            (List.length (filter is_valid l)
             + List.length (filter (fun x => negb (is_valid x)) l)
             = List.length l)%nat).
  { induction l as [|x l IH]; simpl; [reflexivity|].
    destruct (is_valid x); simpl; lia. }
  specialize (Hsplit (_all_processed_urls s)).
  unfold recorded_valid, recorded_invalid in *. lia.
Qed.

(** X5.  A run on a urlset sends the fetch and then at most two requests
    for each URL counted in [total_urls]. *)
Theorem urlset_requests_are_bounded (w : World) (fuel : nat)
  (self : SitemapValidator) :
  completes_all w ->
  is_urlset w self ->
  exists r self' rest,
    validate w (S fuel) self = Some (Normal r, self', fetch_of self :: rest) /\
    Z.of_nat (List.length rest) <= 2 * total_urls r.
Proof.
  intros Hpool Hurlset.
  assert (Hno : no_index w self).
  { destruct Hurlset as (root & Hdoc & H). unfold no_index. now rewrite Hdoc. }
  destruct (validate_no_index w fuel self Hno) as (s & rest & E & _ & H).
  exists (results s), s, rest. split; [exact E|]. now apply H.
Qed.

(** X17.  After [validate] on a urlset, a submission in which every
    publication answers publishes the locations recorded as valid, and
    reports as many URLs as the report of [validate] counts valid. *)
Theorem submission_follows_validation (w : World) (fuel : nat)
  (url : string) (t mw : Z) (ua : string) (g : Indexing.Google)
  (file : string) (b : Z) (credentials : Indexing.Credentials)
  (service : Indexing.Service) :
  is_urlset w (__init__ url t mw ua) ->
  Indexing.from_service_account_file g file
    ["https://www.googleapis.com/auth/indexing"] = inr credentials ->
  Indexing.build g "indexing" "v3" credentials = inr service ->
  0 < b ->
  (forall l, answers g service l) ->
  exists r self' sent s,
    validate w (S fuel) (__init__ url t mw ua)
    = Some (Normal r, self', sent) /\
    Indexing.submit_to_google_indexing g self' file b
    = (s, map Indexing.body_of (valid_locations self')) /\
    Indexing.total_submitted s = valid_urls r /\
    Indexing.successful s + Indexing.failed s = valid_urls r.
Proof.
  intros Hurlset Hcred Hbuild Hb Hanswers.
  assert (Hno : no_index w (__init__ url t mw ua)).
  { destruct Hurlset as (root & Hdoc & H). unfold no_index. now rewrite Hdoc. }
  destruct (validate_no_index w fuel _ Hno)
    as (s & rest & E & (Hv & _ & _) & _).
  pose proof (submit_with_service g s file b credentials service
                Hcred Hbuild Hb) as Hsubmit.
  destruct (submit_batch_answers g service (valid_locations s)
              (proj2 (Forall_forall _ _) (fun l _ => Hanswers l))
              (Indexing.mkTally 0 0 []))
    as (tally & Hbatch & Hsum & _).
  rewrite Hbatch in Hsubmit.
  exists (results s), s. do 2 eexists. split; [exact E|].
  split; [exact Hsubmit|]. simpl in *.
  unfold valid_locations in *. rewrite length_map in *. split; lia.
Qed.

(** ** More on indexes *)

Lemma submit_nothing (g : Indexing.Google) (self : SitemapValidator)
  (file : string) (b : Z) :
  _all_processed_urls self = [] ->
  snd (Indexing.submit_to_google_indexing g self file b) = [] /\
  Indexing.successful (fst (Indexing.submit_to_google_indexing g self file b))
  = 0.
Proof.
  intros Hempty. unfold Indexing.submit_to_google_indexing.
  destruct (Indexing.from_service_account_file g file _); [now split|].
  destruct (Indexing.build g "indexing" "v3" c); [now split|].
  unfold Indexing._get_valid_urls. rewrite Hempty. cbn [fold_left List.length].
  unfold Indexing.range. cbn [Z.of_nat Z.sub Z.to_nat].
  destruct (b =? 0); [now split|].
  destruct (0 <? b); now split.
Qed.

(** X11.  The entries that the children of an index record stay with the
    children: after [validate] on an index the validator has recorded no
    entry, whatever its report counts, so [_get_valid_urls] is empty and
    [submit_to_google_indexing] publishes nothing. *)
Theorem index_records_no_entry (w : World) (fuel : nat) (url : string)
  (t mw : Z) (ua : string) (response : Response) (root : ET.Element)
  (outs : list (Results * list Request)) :
  let self := __init__ url t mw ua in
  completes_all w ->
  0 < mw ->
  requests_get w url [("User-Agent", ua)] t = inr response ->
  status_code response = 200 ->
  ET_fromstring w (content response) = inr root ->
  ET.findall_descendants "sitemap" root <> [] ->
  child_runs w fuel self (child_locs root) = Some outs ->
  exists r self' sent,
    validate w (S fuel) self = Some (Normal r, self', sent) /\
    valid_urls r = sum_of valid_urls (map fst outs) /\
    Indexing._get_valid_urls self' = [] /\
    forall g file b,
      snd (Indexing.submit_to_google_indexing g self' file b) = [] /\
      Indexing.successful
        (fst (Indexing.submit_to_google_indexing g self' file b)) = 0.
Proof.
  intros self Hpool Hmw Hget Hstatus Hparse Hindex Hruns.
  destruct (validate_index w fuel self response root outs
              Hpool Hmw Hget Hstatus Hparse Hindex Hruns) as [_ Hv].
  eexists _, _, _. split; [exact Hv|]. split; [reflexivity|].
  split; [reflexivity|]. intros g file b. now apply submit_nothing.
Qed.

Lemma child_runs_ranked (w : World) (rank : string -> nat) (fuel : nat)
  (self : SitemapValidator) (locs : list string) :
  ranked w rank ->
  Forall (fun l => (rank l < fuel)%nat) locs ->
  exists outs,
    child_runs w fuel self locs = Some outs /\
    List.length outs = List.length locs.
Proof.
  intros Hrank. induction 1 as [|l locs Hl _ (outs & IH & Hlen)].
  - now exists [].
  - generalize (validate_returns w rank Hrank fuel (child_validator self l)
                  Hl).
    rewrite run_returns. intros (c & s & t & E & ->).
    cbn [child_runs]. rewrite E, IH. eexists. split; [reflexivity|].
    simpl. now rewrite Hlen.
Qed.

(** X12.  In a web whose indexes are ranked, an index is validated to the
    end whatever its children are: every child location gets its run, in
    document order, and the report of the index has the sums of
    [valid_urls] and [invalid_urls] of those runs and their errors in that
    order.  A child that cannot be fetched or parsed adds its error and stops
    nothing. *)
Theorem index_merges_every_child (w : World) (rank : string -> nat)
  (fuel : nat) (url : string) (t mw : Z) (ua : string)
  (response : Response) (root : ET.Element) :
  let self := __init__ url t mw ua in
  ranked w rank ->
  (rank url <= fuel)%nat ->
  completes_all w ->
  0 < mw ->
  requests_get w url [("User-Agent", ua)] t = inr response ->
  status_code response = 200 ->
  ET_fromstring w (content response) = inr root ->
  ET.findall_descendants "sitemap" root <> [] ->
  exists outs r self',
    child_runs w fuel self (child_locs root) = Some outs /\
    List.length outs = List.length (child_locs root) /\
    validate w (S fuel) self
    = Some (Normal r, self',
            fetch_of self :: List.concat (map snd outs)) /\
    valid_urls r = sum_of valid_urls (map fst outs) /\
    invalid_urls r = sum_of invalid_urls (map fst outs) /\
    errors r
    = (content_type_warning response
       ++ List.concat (map errors (map fst outs)))%list.
Proof.
  intros self Hrank Hfuel Hpool Hmw Hget Hstatus Hparse Hindex.
  assert (Hlocs : Forall (fun l => (rank l < fuel)%nat) (child_locs root)).
  { apply Forall_forall. intros l Hl.
    assert (Hin : In l (children_at w url [("User-Agent", ua)] t)).
    { unfold children_at, document_at. rewrite Hget, Hstatus. simpl.
      now rewrite Hparse. }
    specialize (Hrank _ _ _ _ Hin). lia. }
  destruct (child_runs_ranked w rank fuel self _ Hrank Hlocs)
    as (outs & Hruns & Hlen).
  destruct (validate_index w fuel self response root outs
              Hpool Hmw Hget Hstatus Hparse Hindex Hruns) as [_ Hv].
  exists outs. eexists _, _. split; [exact Hruns|]. split; [exact Hlen|].
  split; [exact Hv|]. repeat split.
Qed.

(** ** Settings *)

Lemma timeout_below (w : World) (fuel : nat) :
  forall self,
    run True (validate w fuel) self (fun c _ sent =>
      (exists r, c = Normal r) /\
      Forall (fun r => req_timeout r = timeout self) sent).
Proof.
  induction fuel as [|fuel IH]; intros self; rewrite validate_unfold;
    (eapply run_mono;
     [|apply (validate_call_sends True w _ self
                (fun r => req_timeout r = timeout self))]).
  1,3: intros c s sent (-> & _ & rest & -> & Hrest);
    (split; [now exists (results s)|]);
    assert (Hmine : forall l, Forall (sent_by self) l ->
              Forall (fun r => req_timeout r = timeout self) l)
      by (intros l; apply Forall_impl; now intros r [_ ->]);
    (constructor; [reflexivity|]);
    (destruct (document_of w self) as [root|]; [|subst; constructor]);
    (destruct (ET.findall_descendants "sitemap" root); [auto|]);
    destruct Hrest as (t1 & t2 & -> & H1 & H2 & _);
    apply Forall_app; auto.
  - intros l _. unfold run, raise. constructor.
  - intros l _. generalize (IH (child_validator self l)).
    apply run_mono. now intros c s sent [_ H].
Qed.

(** X6.  Every request of a run, at whatever depth of nesting, carries the
    timeout the top-level validator was built with. *)
Theorem timeout_reaches_every_request (w : World) (fuel : nat)
  (url : string) (t mw : Z) (ua : string) (c : completion Results)
  (self' : SitemapValidator) (sent : list Request) :
  validate w fuel (__init__ url t mw ua) = Some (c, self', sent) ->
  Forall (fun r => req_timeout r = t) sent.
Proof.
  intros E. generalize (timeout_below w fuel (__init__ url t mw ua)).
  unfold run. rewrite E. now intros [_ H].
Qed.

(** X7.  Without a worker no URL is checked: for a urlset and
    [max_workers <= 0], [validate] sends the fetch alone and reports
    [total_urls] as parsed, no valid and no invalid URL, and the error
    "Validation failed: max_workers must be greater than 0" after the
    content-type warning. *)
Theorem no_worker_no_check (w : World) (fuel : nat) (url : string)
  (t mw : Z) (ua : string) (response : Response) (root : ET.Element) :
  mw <= 0 ->
  requests_get w url [("User-Agent", ua)] t = inr response ->
  status_code response = 200 ->
  ET_fromstring w (content response) = inr root ->
  ET.findall_descendants "sitemap" root = [] ->
  let self := __init__ url t mw ua in
  let r := {| valid_urls := 0; invalid_urls := 0;
              total_urls :=
                Z.of_nat
                  (List.length
                     (filter has_location
                        (ET.findall_descendants "url" root)));
              errors :=
                content_type_warning response
                ++ ["Validation failed: max_workers must be greater than 0"]
           |} in
  validate w (S fuel) self
  = Some (Normal r, with_results self r, [fetch_of self]).
Proof.
  intros Hmw Hget Hstatus Hparse Hurlset self r.
  apply run_exact. rewrite validate_S. apply run_validate_call.
  cbn [sitemap_url headers timeout self __init__].
  rewrite Hget, Hstatus. cbn [Z.eqb Pos.eqb].
  eapply run_eq; [exact (_parse_sitemap_urlset _ _ _ _ root Hparse Hurlset)|].
  cbv beta iota.
  pose proof (fold_add_url_length (ET.findall_descendants "url" root) [])
    as Hlen. simpl in Hlen. rewrite Hlen.
  unfold _validate_urls. do 2 run_step.
  change (max_workers _ <=? 0) with (mw <=? 0).
  replace (mw <=? 0) with true by (symmetry; apply Z.leb_le; exact Hmw).
  run_step. repeat split.
Qed.

(** ** Edge cases of the documents *)

(** X8.  A [<loc>] that holds white space only is not passed over: its
    text is not empty, so the [<url>] gives an entry, and the location of
    that entry is the empty string. *)
Theorem blank_loc_gives_empty_location (urls : list UrlData)
  (url loc_tag : ET.Element) (s : string) :
  ET.find_child "loc" url = Some loc_tag ->
  ET.text loc_tag = Some s ->
  s <> EmptyString ->
  all_space s = true ->
  has_location url = true /\
  add_url urls url
  = (urls ++ [ {| loc := EmptyString;
                  lastmod := _get_tag_text url "lastmod";
                  changefreq := _get_tag_text url "changefreq";
                  priority := _get_tag_text url "priority" |} ])%list.
Proof.
  intros Hfind Htext Hne Hblank.
  assert (Hhas : ET.has_text loc_tag = true).
  { unfold ET.has_text. rewrite Htext. now apply truthy_nonempty. }
  unfold has_location, add_url. rewrite Hfind, Hhas.
  split; [reflexivity|].
  unfold ET.text_of, Str.strip. rewrite Htext.
  now rewrite (proj1 (lstrip_all_space s) Hblank).
Qed.

Lemma headers_get_absent (key default : string) (hs : Headers) :
  header_absent key hs -> headers_get key default hs = default.
Proof.
  induction 1 as [|[k v] hs Hk _ IH]; simpl; [reflexivity|].
  simpl in Hk. now rewrite Hk.
Qed.

(** X9.  A sitemap served without a Content-Type header is validated all
    the same: the report starts with the warning "Sitemap is not XML
    (Content-Type: )" and [total_urls] counts the entries of the
    document. *)
Theorem missing_content_type_is_a_warning (w : World) (fuel : nat)
  (url : string) (t mw : Z) (ua : string) (response : Response)
  (root : ET.Element) :
  requests_get w url [("User-Agent", ua)] t = inr response ->
  status_code response = 200 ->
  header_absent "Content-Type" (resp_headers response) ->
  ET_fromstring w (content response) = inr root ->
  ET.findall_descendants "sitemap" root = [] ->
  exists r self' sent more,
    validate w (S fuel) (__init__ url t mw ua)
    = Some (Normal r, self', sent) /\
    errors r = "Sitemap is not XML (Content-Type: )" :: more /\
    total_urls r
    = Z.of_nat
        (List.length
           (filter has_location (ET.findall_descendants "url" root))).
Proof.
  intros Hget Hstatus Habsent Hparse Hurlset.
  set (self := __init__ url t mw ua).
  assert (Hwarn : content_type_warning response
                  = ["Sitemap is not XML (Content-Type: )"]).
  { unfold content_type_warning.
    now rewrite (headers_get_absent _ _ _ Habsent). }
  cut (run False (validate w (S fuel)) self (fun c s _ =>
         c = Normal (results s) /\
         (exists more,
             errors (results s)
             = "Sitemap is not XML (Content-Type: )" :: more) /\
         total_urls (results s)
         = Z.of_nat
             (List.length
                (filter has_location (ET.findall_descendants "url" root))))).
  { rewrite run_returns. intros (c & s & sent & E & -> & (more & He) & Ht).
    now exists (results s), s, sent, more. }
  rewrite validate_S. apply run_validate_call.
  cbn [sitemap_url headers timeout self __init__].
  rewrite Hget, Hstatus. cbn [Z.eqb Pos.eqb].
  eapply run_eq; [exact (_parse_sitemap_urlset _ _ _ _ root Hparse Hurlset)|].
  cbv beta iota.
  pose proof (fold_add_url_length (ET.findall_descendants "url" root) [])
    as Hlen. simpl in Hlen. rewrite Hlen, Hwarn.
  match goal with
  | |- run False (_validate_urls w ?urls) ?s0 _ =>
      generalize (_validate_urls_keeps w urls s0)
                 (_validate_urls_spec w urls s0);
      unfold run; destruct (_validate_urls w urls s0) as [[[c s] sent]|];
      [|contradiction]
  end.
  intros ((_ & _ & more & He) & _) (_ & _ & Htot & _).
  simpl in He, Htot.
  destruct c as [[]|e]; (split; [reflexivity|]); simpl; rewrite He, Htot;
    (split; [|reflexivity]); eexists; reflexivity.
Qed.

(** ** More runs on the small web *)

Lemma quiet_world_raises_little : only_request_errors Demo2.quiet_world.
Proof.
  split; [|split].
  - intros url e. cbn [urlparse Demo2.quiet_world]. unfold Demo2.quiet_parse.
    now destruct (Demo.parse url).
  - intros url h t e. cbn [requests_get Demo2.quiet_world]. unfold Demo.get.
    repeat
      match goal with
      | |- context [String.eqb url ?s] => destruct (String.eqb url s)
      end; try discriminate.
    now intros [= <-].
  - intros url h t b e. cbn [requests_head Demo2.quiet_world].
    unfold Demo.head.
    repeat
      match goal with
      | |- context [String.eqb url ?s] => destruct (String.eqb url s)
      end; try discriminate.
    now intros [= <-].
Qed.

Lemma quiet_world_completes_all : completes_all Demo2.quiet_world.
Proof. intros urls. apply Permutation_refl. Defined.

(** The index small.xml of the small web. *)
Lemma index_total_is_overwritten_witness :
  exists r self' sent,
    validate Demo.world 2 (Demo.validator "https://example.com/small.xml")
    = Some (Normal r, self', sent) /\
    total_urls r = 0 /\ valid_urls r + invalid_urls r = 1.
Proof.
  destruct (index_total_is_overwritten Demo.world 1
              (Demo.validator "https://example.com/small.xml")
              (mkResponse 200 Demo.xml_headers "small index")
              Demo.small_index_doc
              [({| valid_urls := 1; invalid_urls := 0; total_urls := 1;
                   errors := [] |},
                [mkRequest GET "https://example.com/c.xml"
                   [("User-Agent", "SitemapValidator/1.0")] 10;
                 mkRequest HEAD "https://example.com/1"
                   [("User-Agent", "SitemapValidator/1.0")] 10])])
    as (r & s & sent & E & Htot & Hsum).
  - exact demo_completes_all.
  - reflexivity.
  - reflexivity.
  - reflexivity.
  - reflexivity.
  - vm_compute. discriminate.
  - vm_compute. reflexivity.
  - exists r, s, sent. split; [exact E|]. split; [exact Htot|].
    rewrite Hsum. reflexivity.
Defined.

(** The urlset a.xml, in the web whose [urlparse] raises nothing. *)
Lemma urlset_counts_reconcile_witness :
  exists r self' sent,
    validate Demo2.quiet_world 1
      (__init__ "https://example.com/a.xml" 10 5 "MyBot/2.0")
    = Some (Normal r, self', sent) /\
    valid_urls r + invalid_urls r = total_urls r.
Proof.
  apply (urlset_counts_reconcile Demo2.quiet_world 0
           "https://example.com/a.xml" 10 5 "MyBot/2.0").
  - exact quiet_world_raises_little.
  - exact quiet_world_completes_all.
  - lia.
  - exists Demo.a_doc. split; reflexivity.
Defined.

(** The check of a URL that answers HEAD with 404. *)
Lemma check_sends_head_then_get_witness :
  exists c self' sent,
    _check_url Demo.world (Demo.entry "https://example.com/3")
      (Demo.validator "https://example.com/b.xml")
    = Some (c, self', sent) /\
    (sent = [] \/
     sent = [mkRequest HEAD "https://example.com/3"
               [("User-Agent", "MyBot/2.0")] 10] \/
     sent = [mkRequest HEAD "https://example.com/3"
               [("User-Agent", "MyBot/2.0")] 10;
             mkRequest GET "https://example.com/3"
               [("User-Agent", "MyBot/2.0")] 10]).
Proof.
  destruct (_check_url Demo.world (Demo.entry "https://example.com/3")
              (Demo.validator "https://example.com/b.xml"))
    as [[[c s] sent]|] eqn:E; [|discriminate E].
  exists c, s, sent. split; [reflexivity|].
  exact (check_sends_head_then_get _ _ _ _ _ _ E).
Defined.

(** A URL that answers HEAD with 200. *)
Lemma head_answer_is_final_witness :
  exists self',
    _check_url Demo.world (Demo.entry "https://example.com/1")
      (Demo.validator "https://example.com/a.xml")
    = Some (Normal tt, self',
            [mkRequest HEAD "https://example.com/1"
               [("User-Agent", "MyBot/2.0")] 10]) /\
    valid_urls (results self') = 1.
Proof.
  destruct (head_answer_is_final Demo.world
              (Demo.entry "https://example.com/1")
              (Demo.validator "https://example.com/a.xml")
              (mkParseResult "https" "example.com")
              (mkResponse 200 Demo.html_headers EmptyString))
    as (s & E & _ & Hr).
  - reflexivity.
  - discriminate.
  - discriminate.
  - reflexivity.
  - simpl. intros [H | [H | [H | []]]]; discriminate H.
  - exists s. split; [exact E|]. rewrite Hr. reflexivity.
Defined.

(** The run on the index of the small web, with a timeout of 7. *)
Lemma timeout_reaches_every_request_witness :
  exists c self' sent,
    validate Demo.world 2
      (__init__ "https://example.com/sitemap.xml" 7 5 "MyBot/2.0")
    = Some (c, self', sent) /\
    List.length sent = 7%nat /\
    Forall (fun r => req_timeout r = 7) sent.
Proof.
  assert (E : exists c s sent,
             validate Demo.world 2
               (__init__ "https://example.com/sitemap.xml" 7 5 "MyBot/2.0")
             = Some (c, s, sent) /\ List.length sent = 7%nat).
  { eexists _, _, _. split; vm_compute; reflexivity. }
  destruct E as (c & s & sent & E & Hlen).
  exists c, s, sent. split; [exact E|]. split; [exact Hlen|].
  exact (timeout_reaches_every_request _ _ _ _ _ _ _ _ _ E).
Defined.

(** The urlset a.xml, validated without a worker. *)
Lemma no_worker_no_check_witness :
  exists self',
    validate Demo.world 1
      (__init__ "https://example.com/a.xml" 10 0 "MyBot/2.0")
    = Some (Normal
              {| valid_urls := 0; invalid_urls := 0; total_urls := 2;
                 errors :=
                   ["Validation failed: max_workers must be greater than 0"]
              |},
            self',
            [mkRequest GET "https://example.com/a.xml"
               [("User-Agent", "MyBot/2.0")] 10]).
Proof.
  eexists.
  apply (no_worker_no_check Demo.world 0 "https://example.com/a.xml" 10 0
           "MyBot/2.0" (mkResponse 200 Demo.xml_headers "a") Demo.a_doc).
  - lia.
  - reflexivity.
  - reflexivity.
  - reflexivity.
  - reflexivity.
Defined.

(** A [<loc>] that holds a space and a line break. *)
Lemma blank_loc_gives_empty_location_witness :
  add_url [] Demo2.blank_url_tag = [Demo.entry EmptyString].
Proof.
  apply (blank_loc_gives_empty_location [] Demo2.blank_url_tag
           (ET.mkElement (ET.sm "loc")
              (Some (String " " (String (ascii_of_nat 10) EmptyString))) [])
           (String " " (String (ascii_of_nat 10) EmptyString))).
  - reflexivity.
  - reflexivity.
  - discriminate.
  - reflexivity.
Defined.

(** The urlset b.xml: one valid URL, one rejected, one [<url>] passed
    over. *)
Lemma counters_agree_with_recorded_entries_witness :
  exists r self' sent,
    validate Demo.world 1
      (__init__ "https://example.com/b.xml" 10 5 "MyBot/2.0")
    = Some (Normal r, self', sent) /\
    valid_urls r = Z.of_nat (List.length (Indexing._get_valid_urls self')) /\
    valid_urls r + invalid_urls r = 2.
Proof.
  destruct (counters_agree_with_recorded_entries Demo.world 0
              "https://example.com/b.xml" 10 5 "MyBot/2.0")
    as (r & s & sent & E & Hv & _ & Hsum).
  - unfold no_index. vm_compute. reflexivity.
  - exists r, s, sent. split; [exact E|]. split; [exact Hv|].
    rewrite Hsum. vm_compute in E. injection E as _ <- _. reflexivity.
Defined.

(** The urlset b.xml: a fetch and three requests for two URLs. *)
Lemma urlset_requests_are_bounded_witness :
  exists r self' rest,
    validate Demo.world 1 (Demo.validator "https://example.com/b.xml")
    = Some (Normal r, self',
            fetch_of (Demo.validator "https://example.com/b.xml") :: rest) /\
    Z.of_nat (List.length rest) <= 2 * total_urls r.
Proof.
  apply (urlset_requests_are_bounded Demo.world 0
           (Demo.validator "https://example.com/b.xml")).
  - exact demo_completes_all.
  - exists Demo.b_doc. split; reflexivity.
Defined.

(** The index small.xml: one valid URL counted, none recorded. *)
Lemma index_records_no_entry_witness :
  exists r self' sent,
    validate Demo.world 2 (Demo.validator "https://example.com/small.xml")
    = Some (Normal r, self', sent) /\
    valid_urls r = 1 /\
    Indexing.submit_to_google_indexing Demo2.obliging self' "key.json" 100
    = ({| Indexing.total_submitted := 0; Indexing.successful := 0;
          Indexing.failed := 0; Indexing.errors := [] |}, []).
Proof.
  destruct (index_records_no_entry Demo.world 1
              "https://example.com/small.xml" 10 5 "MyBot/2.0"
              (mkResponse 200 Demo.xml_headers "small index")
              Demo.small_index_doc
              [({| valid_urls := 1; invalid_urls := 0; total_urls := 1;
                   errors := [] |},
                [mkRequest GET "https://example.com/c.xml"
                   [("User-Agent", "SitemapValidator/1.0")] 10;
                 mkRequest HEAD "https://example.com/1"
                   [("User-Agent", "SitemapValidator/1.0")] 10])])
    as (r & s & sent & E & Hv & Hnone & _).
  - exact demo_completes_all.
  - lia.
  - reflexivity.
  - reflexivity.
  - reflexivity.
  - vm_compute. discriminate.
  - vm_compute. reflexivity.
  - exists r, s, sent. split; [exact E|]. split; [exact Hv|].
    unfold Indexing.submit_to_google_indexing.
    cbn [Indexing.from_service_account_file Indexing.build Demo2.obliging].
    rewrite Hnone. reflexivity.
Defined.

Lemma mixed_ranked : ranked Demo2.mixed_world Demo2.mixed_rank.
Proof.
  intros url h t child. unfold children_at, document_at.
  cbn [requests_get ET_fromstring Demo2.mixed_world].
  unfold Demo2.mixed_get, Demo.get.
  repeat
    match goal with
    | |- context [String.eqb url ?s] =>
        destruct (String.eqb_spec url s) as [-> | _]
    end;
    intros Hin; vm_compute in Hin; try contradiction.
  - destruct Hin as [<- | [<- | [<- | []]]]; vm_compute; repeat constructor.
  - destruct Hin as [<- | [<- | []]]; vm_compute; repeat constructor.
  - destruct Hin as [<- | []]; vm_compute; repeat constructor.
Qed.

(** An index whose first child answers 404 and whose second is not XML:
    the third, a urlset, is validated all the same. *)
Lemma index_merges_every_child_witness :
  exists self' sent,
    validate Demo2.mixed_world 2
      (__init__ "https://example.com/mixed.xml" 10 5 "MyBot/2.0")
    = Some (Normal
              {| valid_urls := 1; invalid_urls := 0; total_urls := 0;
                 errors :=
                   ["Failed to fetch sitemap (HTTP 404)";
                    "Sitemap is not XML (Content-Type: text/html)";
                    "Validation failed: unclosed token: line 1, column 0"] |},
            self', sent).
Proof.
  destruct (index_merges_every_child Demo2.mixed_world Demo2.mixed_rank 1
              "https://example.com/mixed.xml" 10 5 "MyBot/2.0"
              (mkResponse 200 Demo.xml_headers "mixed") Demo2.mixed_doc)
    as (outs & r & s & Hruns & _ & E & _).
  - exact mixed_ranked.
  - vm_compute. lia.
  - intros urls. apply Permutation_refl.
  - lia.
  - reflexivity.
  - reflexivity.
  - reflexivity.
  - vm_compute. discriminate.
  - exists s. eexists. rewrite E. vm_compute in E.
    injection E as <- _. reflexivity.
Defined.

(** The urlset bare.xml, served with a Server header only. *)
Lemma missing_content_type_is_a_warning_witness :
  exists r self' sent,
    validate Demo2.bare_world 1
      (__init__ "https://example.com/bare.xml" 10 5 "MyBot/2.0")
    = Some (Normal r, self', sent) /\
    errors r = ["Sitemap is not XML (Content-Type: )"] /\
    total_urls r = 1.
Proof.
  destruct (missing_content_type_is_a_warning Demo2.bare_world 0
              "https://example.com/bare.xml" 10 5 "MyBot/2.0"
              (mkResponse 200 [("Server", "nginx")] "c") Demo.c_doc)
    as (r & s & sent & more & E & He & Ht).
  - reflexivity.
  - reflexivity.
  - repeat constructor.
  - reflexivity.
  - reflexivity.
  - exists r, s, sent. split; [exact E|]. rewrite Ht.
    split; [|reflexivity].
    vm_compute in E. injection E as <- _ _. reflexivity.
Defined.

(** Batches of one and batches of a hundred. *)
Lemma batch_size_is_immaterial_witness :
  Indexing.submit_to_google_indexing Demo2.google Demo2.checked "key.json" 1
  = Indexing.submit_to_google_indexing Demo2.google Demo2.checked "key.json"
      100.
Proof. apply batch_size_is_immaterial; lia. Defined.

(** Two valid URLs: one published with success, one refused with a quota
    error. *)
Lemma submission_accounts_for_every_url_witness :
  Indexing.submit_to_google_indexing Demo2.google Demo2.checked "key.json" 100
  = ({| Indexing.total_submitted := 2; Indexing.successful := 1;
        Indexing.failed := 1;
        Indexing.errors :=
          ["Failed to submit https://example.com/3: Quota exceeded"] |},
     [Indexing.body_of "https://example.com/1";
      Indexing.body_of "https://example.com/3"]).
Proof.
  destruct (submission_accounts_for_every_url Demo2.google Demo2.checked
              "key.json" 100 Demo2.account Demo2.service)
    as (s & E & _).
  - reflexivity.
  - reflexivity.
  - lia.
  - repeat constructor.
    exists "quota". eexists. split; [reflexivity|]. split; [reflexivity|].
    exact I.
  - rewrite E. vm_compute in E. injection E as <-. reflexivity.
Defined.

(** Two valid URLs, with a batch size of zero and with one of -3. *)
Lemma nonpositive_batch_size_publishes_nothing_witness :
  Indexing.submit_to_google_indexing Demo2.google Demo2.checked "key.json" 0
  = ({| Indexing.total_submitted := 0; Indexing.successful := 0;
        Indexing.failed := 0;
        Indexing.errors :=
          ["Submission process failed: range() arg 3 must not be zero"] |},
     []) /\
  Indexing.submit_to_google_indexing Demo2.google Demo2.checked "key.json"
    (-3)
  = ({| Indexing.total_submitted := 2; Indexing.successful := 0;
        Indexing.failed := 0; Indexing.errors := [] |}, []).
Proof.
  split.
  - apply (nonpositive_batch_size_publishes_nothing Demo2.google
             Demo2.checked "key.json" 0 Demo2.account Demo2.service);
      [reflexivity | reflexivity | lia].
  - apply (nonpositive_batch_size_publishes_nothing Demo2.google
             Demo2.checked "key.json" (-3) Demo2.account Demo2.service);
      [reflexivity | reflexivity | lia].
Defined.

(** Three valid URLs, the second of which makes the client raise. *)
Lemma aborted_submission_reports_nothing_witness :
  Indexing.submit_to_google_indexing Demo2.google Demo2.checked_boom
    "key.json" 2
  = ({| Indexing.total_submitted := 0; Indexing.successful := 0;
        Indexing.failed := 0;
        Indexing.errors := ["Submission process failed: timed out"] |},
     [Indexing.body_of "https://example.com/1";
      Indexing.body_of "https://example.com/boom"]).
Proof.
  apply (aborted_submission_reports_nothing Demo2.google Demo2.checked_boom
           "key.json" 2 Demo2.account Demo2.service
           ["https://example.com/1"] ["https://example.com/3"]
           "https://example.com/boom" (OtherException "timed out")).
  - reflexivity.
  - reflexivity.
  - lia.
  - reflexivity.
  - repeat constructor.
  - left. reflexivity.
Defined.

(** The urlset a.xml, then a submission that always succeeds. *)
Lemma submission_follows_validation_witness :
  exists r self' sent s,
    validate Demo.world 1
      (__init__ "https://example.com/a.xml" 10 5 "MyBot/2.0")
    = Some (Normal r, self', sent) /\
    Indexing.submit_to_google_indexing Demo2.obliging self' "key.json" 100
    = (s, map Indexing.body_of (valid_locations self')) /\
    Indexing.total_submitted s = valid_urls r /\
    Indexing.successful s + Indexing.failed s = valid_urls r.
Proof.
  apply (submission_follows_validation Demo.world 0
           "https://example.com/a.xml" 10 5 "MyBot/2.0" Demo2.obliging
           "key.json" 100 Demo2.account Demo2.service).
  - exists Demo.a_doc. split; reflexivity.
  - reflexivity.
  - reflexivity.
  - lia.
  - intros l. exact I.
Defined.

(** A quota error, whose content names its reason. *)
Lemma http_error_reason_witness :
  Indexing.submit_url Demo2.google Demo2.service (Indexing.mkTally 1 0 [])
    "https://example.com/3"
  = inr (Indexing.mkTally 1 1
           ["Failed to submit https://example.com/3: Quota exceeded"]).
Proof.
  apply (http_error_reason Demo2.google Demo2.service
           (Indexing.mkTally 1 0 []) "https://example.com/3" "quota"
           "<HttpError 429>" "quota"
           [("error",
             Indexing.JObject
               [("code", Indexing.JInt 429);
                ("message", Indexing.JString "Quota exceeded")])]);
    reflexivity.
Defined.
